(** * Lunagis illumination map generator: model and verified properties

    Shallow embedding of [illumination_engine.py] and [run_mission.py].

    Number model.  The Python code computes in IEEE binary64.  Formulas with
    [arccos], [sqrt] and [pi] are stated over the real numbers [R]; affine
    coordinate, packing and time arithmetic is stated over the rationals [Q]
    (every finite float is a rational).  The horizon lookup is written once,
    over an interface of the float operations it uses, and instantiated both
    with exact rational arithmetic and with binary64 arithmetic
    ([SpecFloat], precision 53, emax 1024), because its index computation
    depends on rounding. *)

From Stdlib Require Import String Reals ZArith QArith Qround List Bool Psatz.
From Stdlib Require Import Floats.SpecFloat.
Import ListNotations.
Set Warnings "-register-all".

(** ** Python exceptions and a state-and-exception monad *)

Module Py.

Inductive exn : Type :=
| TypeError
| KeyError
| IndexError
| ValueError
| ZeroDivisionError
| OverflowError
| FileNotFoundError
| OtherException (name : string)   (* any other subclass of Exception *)
| KeyboardInterrupt                (* BaseException, not an Exception *)
| SystemExit.                      (* BaseException, not an Exception *)

(** [isinstance(e, Exception)] *)
Definition is_Exception (e : exn) : bool :=
  match e with
  | KeyboardInterrupt | SystemExit => false
  | _ => true
  end.

(** Outcome of running a piece of Python code.  [Running] is not a Python
    outcome: it marks a loop that has not finished within the fuel given to
    the model, and is passed through unchanged by every combinator. *)
Inductive result (A : Type) : Type :=
| Ok (a : A)
| Raise (e : exn)
| Running.
Arguments Ok {A} a.
Arguments Raise {A} e.
Arguments Running {A}.

(** Pure code that may raise. *)
Definition rbind {A B} (r : result A) (k : A -> result B) : result B :=
  match r with
  | Ok a => k a
  | Raise e => Raise e
  | Running => Running
  end.

(** The outcome of an external call that returns or raises. *)
Definition of_sum {A} (x : exn + A) : result A :=
  match x with
  | inl e => Raise e
  | inr a => Ok a
  end.

(** Code that may raise and that updates a state [S]; an exception keeps the
    state reached so far. *)
Definition M (S A : Type) : Type := S -> result A * S.

Definition ret {S A} (a : A) : M S A := fun s => (Ok a, s).
Definition raise {S A} (e : exn) : M S A := fun s => (Raise e, s).
Definition bind {S A B} (m : M S A) (k : A -> M S B) : M S B :=
  fun s =>
    match m s with
    | (Ok a, s') => k a s'
    | (Raise e, s') => (Raise e, s')
    | (Running, s') => (Running, s')
    end.
Definition lift {S A} (r : result A) : M S A := fun s => (r, s).
Definition get {S} : M S S := fun s => (Ok s, s).
Definition modify {S} (f : S -> S) : M S unit := fun s => (Ok tt, f s).

(** [try: body / except ...: handler / finally: final].  [handler e] is
    [None] when no [except] clause matches [e]. *)
Definition try_except_finally {S A}
    (body : M S A) (handler : exn -> option (M S A)) (final : M S unit) : M S A :=
  fun s =>
    let after (r : result A) (s1 : S) : result A * S :=
      match final s1 with
      | (Ok _, s2) => (r, s2)
      | (Raise e', s2) => (Raise e', s2)
      | (Running, s2) => (Running, s2)
      end in
    match body s with
    | (Ok a, s1) => after (Ok a) s1
    | (Running, s1) => (Running, s1)
    | (Raise e, s1) =>
        match handler e with
        | None => after (Raise e) s1
        | Some h =>
            match h s1 with
            | (Running, s2) => (Running, s2)
            | (r, s2) => after r s2
            end
        end
    end.

End Py.

Import Py.

Declare Scope py_scope.
Delimit Scope py_scope with py.
Notation "x <- m ;; k" := (bind m (fun x => k))
  (at level 100, m at next level, right associativity) : py_scope.
Notation "m ;;; k" := (bind m (fun _ => k))
  (at level 100, right associativity) : py_scope.
Notation "x <~ r ;; k" := (rbind r (fun x => k))
  (at level 100, r at next level, right associativity) : py_scope.
Open Scope py_scope.

(** ** Python and NumPy primitives used by the program *)

Module Prim.

(** [int(q)]: truncation toward zero. *)
Definition py_int (q : Q) : Z := Z.quot (Qnum q) (Z.pos (Qden q)).

(** Round to nearest, ties to even: Python's [round], [np.around] and the
    rounding of [timedelta] to whole microseconds. *)
Definition round_half_even (q : Q) : Z :=
  let f := Qfloor q in
  match Qcompare (q - inject_Z f) (1 # 2) with
  | Lt => f
  | Gt => (f + 1)%Z
  | Eq => if Z.even f then f else (f + 1)%Z
  end.

(** [np.arange(start, stop)] on integers. *)
Definition arange (start stop : Z) : list Z :=
  map (fun i => (start + Z.of_nat i)%Z) (seq 0 (Z.to_nat (stop - start))).

(** A bound of the slice [l[start:stop]] brought into [0 .. len(l)]. *)
Definition slice_bound (n i : Z) : Z :=
  if (i <? 0)%Z then Z.max (i + n) 0 else Z.min i n.

(** [l[start:stop]] *)
Definition py_slice {A} (start stop : Z) (l : list A) : list A :=
  let n := Z.of_nat (List.length l) in
  let lo := slice_bound n start in
  let hi := slice_bound n stop in
  firstn (Z.to_nat (hi - lo)) (skipn (Z.to_nat lo) l).

(** [l[i]] for an integer index: negative indices count from the end. *)
Definition py_index {A} (l : list A) (i : Z) : result A :=
  let n := Z.of_nat (List.length l) in
  let j := if (i <? 0)%Z then (i + n)%Z else i in
  if ((0 <=? j) && (j <? n))%Z then
    match nth_error l (Z.to_nat j) with
    | Some a => Ok a
    | None => Raise IndexError
    end
  else Raise IndexError.

(** Rows of width [w] cut from a flat row-major sequence. *)
Definition rows_of {A} (flat : list A) (h w : nat) : list (list A) :=
  map (fun i => firstn w (skipn (i * w) flat)) (seq 0 h).

(** [np.array(flat).reshape(h, w)]: one dimension may be [-1]. *)
Definition np_reshape2 {A} (flat : list A) (h w : Z) : result (list (list A)) :=
  let n := Z.of_nat (List.length flat) in
  if ((0 <=? h) && (0 <=? w))%Z then
    if (h * w =? n)%Z then Ok (rows_of flat (Z.to_nat h) (Z.to_nat w))
    else Raise ValueError
  else if ((h =? -1) && (0 <? w))%Z then
    if (n mod w =? 0)%Z then Ok (rows_of flat (Z.to_nat (n / w)) (Z.to_nat w))
    else Raise ValueError
  else if ((w =? -1) && (0 <? h))%Z then
    if (n mod h =? 0)%Z then Ok (rows_of flat (Z.to_nat h) (Z.to_nat (n / h)))
    else Raise ValueError
  else Raise ValueError.

(** Values parsed by [json.load]. *)
Inductive json : Type :=
| JNull
| JBool (b : bool)
| JNum (q : Q)
| JStr (s : string)
| JArr (items : list json)
| JObj (fields : list (string * json)).

Fixpoint assoc (k : string) (fields : list (string * json)) : option json :=
  match fields with
  | [] => None
  | (k', v) :: rest => if String.eqb k k' then Some v else assoc k rest
  end.

(** [v[key]] with a string key. *)
Definition subscript (v : json) (key : string) : result json :=
  match v with
  | JObj fields =>
      match assoc key fields with
      | Some x => Ok x
      | None => Raise KeyError
      end
  | _ => Raise TypeError
  end.

(** [v.get(key, default)]; only dictionaries have [get]. *)
Definition dict_get (v : json) (key : string) (default : json) : result json :=
  match v with
  | JObj fields =>
      match assoc key fields with
      | Some x => Ok x
      | None => Ok default
      end
  | _ => Raise (OtherException "AttributeError")
  end.

End Prim.

Import Prim.

(** ** [datetime] and [timedelta] *)

Module Datetime.

(** A naive [datetime]: microseconds since 0001-01-01T00:00:00. *)
Definition datetime : Type := Z.

Definition us_per_hour : Z := 3600000000.
Definition us_per_day : Z := 86400000000.

(** [date.max.toordinal()] is 3652059: the last instant is
    9999-12-31T23:59:59.999999. *)
Definition datetime_max : Z := 3652059 * us_per_day - 1.

(** [timedelta.max] is 999999999 days, 23:59:59.999999. *)
Definition timedelta_max : Z := 1000000000 * us_per_day - 1.
Definition timedelta_min : Z := - 999999999 * us_per_day.

(** [timedelta(hours=v)] for a value read from JSON. *)
Definition timedelta_hours (v : json) : result Z :=
  let of_hours (h : Q) :=
    let us := round_half_even (h * inject_Z us_per_hour) in
    if ((timedelta_min <=? us) && (us <=? timedelta_max))%Z then Ok us
    else Raise OverflowError in
  match v with
  | JNum h => of_hours h
  | JBool b => of_hours (if b then 1 else 0)
  | _ => Raise TypeError
  end.

(** [t + delta] *)
Definition datetime_add (t : datetime) (delta : Z) : result datetime :=
  let t' := (t + delta)%Z in
  if ((0 <=? t') && (t' <=? datetime_max))%Z then Ok t' else Raise OverflowError.

(** [(t - start).total_seconds() / 3600.0], as a rational in lowest terms. *)
Definition hours_between (t start : datetime) : Q :=
  Qred (Qmake (t - start) 3600000000).

End Datetime.

Import Datetime.

(** ** illumination_engine.py *)

Module IlluminationEngine.
Local Open Scope R_scope.

(** [np.radians] *)
Definition radians (deg : R) : R := deg * (PI / 180).

(** Lines 31-39, for one pixel of the partial band. *)
Definition seg_frac (h_part r_part : R) : R :=
  let x := Rabs h_part in
  let x := Rmin x r_part in
  let term1 := r_part ^ 2 * acos (x / r_part) in
  let term2 := x * sqrt (r_part ^ 2 - x ^ 2) in
  let seg_area := term1 - term2 in
  let total_area := PI * r_part ^ 2 in
  seg_area / total_area.

(** Lines 41-43: [vals] starts at zero and is overwritten under two masks. *)
Definition vals (h_part r_part : R) : R :=
  let v := 0 in
  let v := if Rge_dec h_part 0 then seg_frac h_part r_part else v in
  let v := if Rlt_dec h_part 0 then 1 - seg_frac h_part r_part else v in
  v.

(** Line 20 *)
Definition mask_partial (h_rad r_rad : R) : bool :=
  (if Rgt_dec h_rad (- r_rad) then true else false)
  && (if Rlt_dec h_rad r_rad then true else false).

(** [calculate_circular_segment_area] at one pixel: [fraction] starts at
    zero and is overwritten under the three masks, in the order of the
    source (lines 18, 45, 47, 48). *)
Definition fraction_px (sun_elev_deg horizon_elev_deg sun_radius_deg : R) : R :=
  let r_rad := radians sun_radius_deg in
  let h_rad := radians (horizon_elev_deg - sun_elev_deg) in
  let fraction := 0 in
  let fraction :=
    if mask_partial h_rad r_rad then vals h_rad r_rad else fraction in
  let fraction := if Rle_dec h_rad (- r_rad) then 1 else fraction in
  let fraction := if Rge_dec h_rad r_rad then 0 else fraction in
  fraction.

(** The vectorised function with a scalar radius; a grid cell holds the sun
    elevation and the horizon elevation of one pixel. *)
Definition calculate_circular_segment_area
    (elev : list (list (R * R))) (sun_radius_deg : R) : list (list R) :=
  map (map (fun p => fraction_px (fst p) (snd p) sun_radius_deg)) elev.

(** The same with a radius array of the shape of the grid (lines 26-27). *)
Definition calculate_circular_segment_area_per_pixel
    (elev : list (list (R * R * R))) : list (list R) :=
  map (map (fun p => fraction_px (fst (fst p)) (snd (fst p)) (snd p))) elev.

End IlluminationEngine.

(** ** The float operations of the horizon lookup *)

Class FloatOps (F : Type) : Type := {
  of_int : Z -> F;               (* integer to float conversion *)
  fadd : F -> F -> F;
  fsub : F -> F -> F;
  fmul : F -> F -> F;
  fdiv : F -> F -> F;
  np_mod : F -> F -> F;          (* [np.mod] *)
  floor_astype_int : F -> Z      (* [np.floor(x).astype(int)] *)
}.

(** Exact arithmetic on rationals. *)
Module Exact.

Definition np_mod (a b : Q) : Q := a - inject_Z (Qfloor (a / b)) * b.

#[export] Instance ops : FloatOps Q :=
  Build_FloatOps Q inject_Z Qplus Qminus Qmult Qdiv np_mod Qfloor.

End Exact.

(** IEEE binary64 arithmetic. *)
Module B64.

Definition prec : Z := 53.
Definition emax : Z := 1024.

Definition float : Type := spec_float.

Definition of_int (z : Z) : float := binary_normalize prec emax z 0 false.

Definition sign_of (x : float) : bool :=
  match x with
  | S754_zero s | S754_infinity s | S754_finite s _ _ => s
  | S754_nan => false
  end.

(** C [fmod]: the result has the sign of [x] and is exact. *)
Definition fmod (x y : float) : float :=
  match x, y with
  | S754_nan, _ | _, S754_nan => S754_nan
  | S754_infinity _, _ => S754_nan
  | _, S754_zero _ => S754_nan
  | _, S754_infinity _ => x
  | S754_zero _, _ => x
  | S754_finite sx mx ex, S754_finite _ my ey =>
      let ez := Z.min ex ey in
      let ax := Z.pos (fst (shl_align mx ex ez)) in
      let ay := Z.pos (fst (shl_align my ey ez)) in
      binary_normalize prec emax (cond_Zopp sx (ax mod ay)) ez sx
  end.

(** [np.mod] on doubles (NumPy's [npy_divmod]): [fmod], then the divisor is
    added when the remainder is non-zero and its sign differs from the
    divisor's; the addition rounds. *)
Definition np_mod (a b : float) : float :=
  let m := fmod a b in
  match b with
  | S754_zero _ => m
  | _ =>
      match m with
      | S754_zero _ => S754_zero (sign_of b)
      | _ =>
          if xorb (SFltb b (S754_zero false)) (SFltb m (S754_zero false))
          then SFadd prec emax m b
          else m
      end
  end.

Definition int64_min : Z := - 2 ^ 63.

(** [np.floor(x).astype(int)]: the floor is exact; a value that is not a
    64-bit integer (NaN, infinities, out of range) converts to [INT64_MIN]
    on x86-64. *)
Definition floor_astype_int (x : float) : Z :=
  match x with
  | S754_zero _ => 0
  | S754_finite s m e =>
      let n := Z.shiftl (cond_Zopp s (Z.pos m)) e in
      if ((int64_min <=? n) && (n <? 2 ^ 63))%Z then n else int64_min
  | _ => int64_min
  end.

#[export] Instance ops : FloatOps float :=
  Build_FloatOps float of_int (SFadd prec emax) (SFsub prec emax) (SFmul prec emax)
    (SFdiv prec emax) np_mod floor_astype_int.

End B64.

(** ** run_mission.py: RealDEM *)

(** [rasterio.Affine]: [(x, y)] maps to [(a*x + b*y + c, d*x + e*y + f)]. *)
Module Affine.

Record t : Type := { a : Q; b : Q; c : Q; d : Q; e : Q; f : Q }.

(** [Affine.from_gdal(c, a, b, f, d, e)], called with the unpacked list
    [meta['transform']]: any other number of coefficients is a [TypeError]. *)
Definition from_gdal (coeffs : list Q) : result t :=
  match coeffs with
  | [c0; a0; b0; f0; d0; e0] =>
      Ok {| a := a0; b := b0; c := c0; d := d0; e := e0; f := f0 |}
  | _ => Raise TypeError
  end.

(** [T * (x, y)] *)
Definition apply (T : t) (x y : Q) : Q * Q :=
  (a T * x + b T * y + c T, d T * x + e T * y + f T).

End Affine.

(** The metadata record written by [prep_terrain.py] (lines 106-114), as
    far as [RealDEM] reads it. *)
Record Meta : Type := {
  meta_width : Z;
  meta_height : Z;
  meta_transform : list Q;          (* GDAL order *)
  meta_crs : string;
  meta_buffer_meters : option Q     (* [None]: the key is absent *)
}.

(** The files [RealDEM] reads. *)
Record Files : Type := {
  meta_file : string -> option Meta;       (* [json.load] of the file *)
  mask_file : string -> option (list Z)    (* the int16 values of the file *)
}.

Module RealDEM.

Record t : Type := {
  meta : Meta;
  transform : Affine.t;
  roi_width : Z;
  roi_height : Z;
  horizon_roi : list (list (list Z));
  x_coords : list Q;
  y_coords : list Q;
  X_grid : list (list Q);
  Y_grid : list (list Q);
  lats : list (list Q);
  lons : list (list Q);
  width : Z;
  height : Z
}.

(** The region of interest of lines 21-34. *)
Record Roi : Type := {
  buffer_px : Z;
  x_start : Z; x_end : Z;
  y_start : Z; y_end : Z
}.

(** Lines 21-31.  The division is a float division, which raises on a zero
    divisor. *)
Definition roi_of (m : Meta) (T : Affine.t) : result Roi :=
  let full_width := meta_width m in
  let full_height := meta_height m in
  let buffer_m :=
    match meta_buffer_meters m with Some v => v | None => 50000 end in
  let pixel_size := Affine.a T in
  if Qeq_bool pixel_size 0 then Raise ZeroDivisionError else
  let buffer_px := py_int (buffer_m / pixel_size) in
  Ok {| buffer_px := buffer_px;
        x_start := buffer_px; x_end := (full_width - buffer_px)%Z;
        y_start := buffer_px; y_end := (full_height - buffer_px)%Z |}.

(** [np.memmap(mask_path, dtype=np.int16, mode='r', shape=(H, W, 360))]:
    the file is read row-major; a file that is too short is an error. *)
Definition memmap (flat : list Z) (H W : Z) : result (list (list (list Z))) :=
  if ((H <? 0) || (W <? 0))%Z then Raise ValueError
  else if (Z.of_nat (List.length flat) <? H * W * 360)%Z then Raise ValueError
  else
    let w := Z.to_nat W in
    Ok (map (fun i =>
               map (fun j => firstn 360 (skipn ((i * w + j) * 360) flat))
                   (seq 0 w))
            (seq 0 (Z.to_nat H))).

(** First and last element, [v[0]] and [v[-1]]. *)
Definition first_last (v : list Q) : result (Q * Q) :=
  y0 <~ py_index v 0 ;;
  y1 <~ py_index v (-1) ;;
  Ok (y0, y1).

(** Line 43: [full_horizon_cube[y_start:y_end, x_start:x_end, :]] *)
Definition select_roi {A} (roi : Roi) (cube : list (list A)) : list (list A) :=
  map (py_slice (x_start roi) (x_end roi))
      (py_slice (y_start roi) (y_end roi) cube).

(** Lines 47-51: coordinates of the pixel centres. *)
Definition coords_x (T : Affine.t) (roi : Roi) : list Q :=
  let col_indices :=
    map (fun i => inject_Z i + (1 # 2)) (arange (x_start roi) (x_end roi)) in
  map (fun x => fst (Affine.apply T x 0)) col_indices.

Definition coords_y (T : Affine.t) (roi : Roi) : list Q :=
  let row_indices :=
    map (fun i => inject_Z i + (1 # 2)) (arange (y_start roi) (y_end roi)) in
  map (fun y => snd (Affine.apply T 0 y)) row_indices.

(** Lines 67-73: rows are flipped when the y coordinates increase. *)
Definition enforce_decreasing_y (self : t) : result t :=
  ends <~ first_last (y_coords self) ;;
  if Qlt_le_dec (fst ends) (snd ends) then
    Ok {| meta := meta self;
          transform := transform self;
          roi_width := roi_width self;
          roi_height := roi_height self;
          horizon_roi := rev (horizon_roi self);
          x_coords := x_coords self;
          y_coords := rev (y_coords self);
          X_grid := X_grid self;
          Y_grid := Y_grid self;
          lats := rev (lats self);
          lons := rev (lons self);
          width := width self;
          height := height self |}
  else Ok self.

Section Init.

(** [rasterio.warp.transform] from the projected system to longitude and
    latitude, for one point; the reprojection is an external collaborator. *)
Variable warp : string -> Q -> Q -> Q * Q.
Variable files : Files.

(** Lines 18-65: everything up to the orientation check. *)
Definition load (meta_path mask_path : string) : result t :=
  match meta_file files meta_path with
  | None => Raise FileNotFoundError
  | Some m =>
  T <~ Affine.from_gdal (meta_transform m) ;;
  roi <~ roi_of m T ;;
  let roi_width := (x_end roi - x_start roi)%Z in
  let roi_height := (y_end roi - y_start roi)%Z in
  match mask_file files mask_path with
  | None => Raise FileNotFoundError
  | Some flat =>
  full_horizon_cube <~ memmap flat (meta_height m) (meta_width m) ;;
  let horizon_roi := select_roi roi full_horizon_cube in
  let x_coords := coords_x T roi in
  let y_coords := coords_y T roi in
  let X_grid := map (fun _ => x_coords) y_coords in
  let Y_grid := map (fun y => map (fun _ => y) x_coords) y_coords in
  let e_flat := concat X_grid in
  let n_flat := concat Y_grid in
  let lonlat :=
    map (fun p => warp (meta_crs m) (fst p) (snd p)) (combine e_flat n_flat) in
  lats <~ np_reshape2 (map snd lonlat) roi_height roi_width ;;
  lons <~ np_reshape2 (map fst lonlat) roi_height roi_width ;;
  Ok {| meta := m;
        transform := T;
        roi_width := roi_width;
        roi_height := roi_height;
        horizon_roi := horizon_roi;
        x_coords := x_coords;
        y_coords := y_coords;
        X_grid := X_grid;
        Y_grid := Y_grid;
        lats := lats;
        lons := lons;
        width := roi_width;
        height := roi_height |}
  end
  end.

(** [RealDEM.__init__(self, meta_path, mask_path)] *)
Definition init (meta_path mask_path : string) : result t :=
  self <~ load meta_path mask_path ;;
  enforce_decreasing_y self.

End Init.

Section Lookup.

Context {F : Type} {ops : FloatOps F}.

(** Lines 76-87 at one pixel with horizon profile [profile]. *)
Definition horizon_px (profile : list Z) (azimuth : F) : result F :=
  let az := np_mod azimuth (of_int 360) in
  let az_floor := floor_astype_int az in
  let az_ceil := ((az_floor + 1) mod 360)%Z in
  let fraction := fsub az (of_int az_floor) in
  v1 <~ py_index profile az_floor ;;
  v2 <~ py_index profile az_ceil ;;
  let h1 := fdiv (of_int v1) (of_int 100) in
  let h2 := fdiv (of_int v2) (of_int 100) in
  Ok (fadd h1 (fmul (fsub h2 h1) fraction)).

(** Apply a function that may raise to every element. *)
Fixpoint traverse {A B} (g : A -> result B) (l : list A) : result (list B) :=
  match l with
  | [] => Ok []
  | x :: rest =>
      y <~ g x ;;
      ys <~ traverse g rest ;;
      Ok (y :: ys)
  end.

Definition indexed {A} (l : list A) : list (nat * A) :=
  combine (seq 0 (List.length l)) l.

(** [get_horizon_elevation_vectorized]: pixel [(i, j)] of the azimuth grid
    reads [horizon_roi[i, j, :]]. *)
Definition get_horizon_elevation_vectorized
    (self : t) (azimuth_grid : list (list F)) : result (list (list F)) :=
  traverse
    (fun row : nat * list F =>
       traverse
         (fun cell : nat * F =>
            plane <~ py_index (horizon_roi self) (Z.of_nat (fst row)) ;;
            profile <~ py_index plane (Z.of_nat (fst cell)) ;;
            horizon_px profile (snd cell))
         (indexed (snd row)))
    (indexed azimuth_grid).

End Lookup.

End RealDEM.

(** ** run_mission.py: the NetCDF output *)

Module NetCDF.

(** A frame as the driver hands it to the library, and as it is stored. *)
Definition frame : Type := list (list Q).
Definition packed_frame : Type := list (list Z).

(** The dataset created by [init_netcdf]: coordinate variables, the
    unlimited [time] variable and the [illumination] variable with its
    packing attributes.  An entry [None] along the time dimension is a slot
    that was never written (it reads back as the fill value). *)
Record Dataset : Type := {
  ys : list Q;
  xs : list Q;
  times : list (option Q);
  illumination : list (option packed_frame);
  scale_factor : Q;
  add_offset : Q;
  fill_value : Z;
  valid_range : Z * Z;
  syncs : nat;                 (* calls of [ds.sync()] *)
  closes : nat;                (* calls of [ds.close()] *)
  isopen : bool
}.

Definition wrap_int8 (z : Z) : Z := ((z + 128) mod 256 - 128)%Z.

(** Modelled from the spec: the packing routine.  The source only sets the
    attributes ([scale_factor], [add_offset], [fill_value], type [i1],
    lines 190-207) and leaves the conversion to the netCDF4 library
    ("library auto-packs to int8", line 243), whose code is not part of the
    repository.  Following the spec (section 4.4) a value is
    affine-transformed with the scale/offset pair and stored as a signed
    8-bit integer; the library rounds to the nearest integer. *)
Definition pack (scale offset : Q) (v : Q) : Z :=
  wrap_int8 (round_half_even ((v - offset) / scale)).

(** Modelled from the spec: the inverse transform applied on reading. *)
Definition unpack (scale offset : Q) (p : Z) : Q :=
  inject_Z p * scale + offset.

(** Pad a variable with unwritten slots up to length [n]. *)
Definition grow {A} (n : nat) (l : list (option A)) : list (option A) :=
  l ++ repeat None (n - List.length l).

(** [var[idx] = v] along the unlimited dimension. *)
Definition put {A} (idx : nat) (v : A) (l : list (option A)) : list (option A) :=
  firstn idx (grow idx l) ++ Some v :: skipn (S idx) l.

(** The dataset as [init_netcdf] leaves it (lines 140-207). *)
Definition create (y_coords x_coords : list Q) : Dataset :=
  {| ys := y_coords;
     xs := x_coords;
     times := [];
     illumination := [];
     scale_factor := 1 / 254;
     add_offset := 1 # 2;
     fill_value := -128;
     valid_range := (-127, 127)%Z;
     syncs := 0;
     closes := 0;
     isopen := true |}.

Definition set_time (idx : nat) (v : Q) (d : Dataset) : Dataset :=
  {| ys := ys d; xs := xs d;
     times := put idx v (times d);
     illumination := grow (S idx) (illumination d);
     scale_factor := scale_factor d; add_offset := add_offset d;
     fill_value := fill_value d; valid_range := valid_range d;
     syncs := syncs d; closes := closes d; isopen := isopen d |}.

Definition set_frame (idx : nat) (fr : frame) (d : Dataset) : Dataset :=
  {| ys := ys d; xs := xs d;
     times := grow (S idx) (times d);
     illumination :=
       put idx (map (map (pack (scale_factor d) (add_offset d))) fr)
           (illumination d);
     scale_factor := scale_factor d; add_offset := add_offset d;
     fill_value := fill_value d; valid_range := valid_range d;
     syncs := syncs d; closes := closes d; isopen := isopen d |}.

Definition sync (d : Dataset) : Dataset :=
  {| ys := ys d; xs := xs d; times := times d;
     illumination := illumination d;
     scale_factor := scale_factor d; add_offset := add_offset d;
     fill_value := fill_value d; valid_range := valid_range d;
     syncs := S (syncs d); closes := closes d; isopen := isopen d |}.

Definition close (d : Dataset) : Dataset :=
  {| ys := ys d; xs := xs d; times := times d;
     illumination := illumination d;
     scale_factor := scale_factor d; add_offset := add_offset d;
     fill_value := fill_value d; valid_range := valid_range d;
     syncs := syncs d; closes := S (closes d); isopen := false |}.

End NetCDF.

(** ** run_mission.py: the driver *)

Module Mission.

(** The output file and the local name [ds] of the [__main__] block
    ([ds_bound] is false while [ds] is [None]). *)
Record State : Type := {
  sink : option NetCDF.Dataset;
  ds_bound : bool
}.

(** An operation on the open dataset; the library raises on a dataset that
    is closed. *)
Definition on_dataset (op : NetCDF.Dataset -> NetCDF.Dataset) : M State unit :=
  fun s =>
    match sink s with
    | Some d =>
        if NetCDF.isopen d
        then (Ok tt, {| sink := Some (op d); ds_bound := ds_bound s |})
        else (Raise (OtherException "RuntimeError"), s)
    | None => (Raise (OtherException "RuntimeError"), s)
    end.

Definition bind_ds (b : bool) : M State unit :=
  modify (fun s => {| sink := sink s; ds_bound := b |}).

Section Run.

(** Lines 233-238: the sun state, geometry, horizon lookup and physics of
    iteration [idx] at simulated time [t].  The ephemeris queries go to the
    SPICE kernels, so the computation of a frame is a parameter; it returns
    the frame or raises. *)
Variable compute_frame : nat -> datetime -> result NetCDF.frame.

(** What creating the output file raises, if anything. *)
Variable create_error : option exn.

(** [init_netcdf(output_path, dem, start_time, end_time)]: the file is
    created first (line 140) and needs a path string; [np.min(dem.lats)]
    (line 149) raises on an empty array. *)
Definition init_netcdf (output_path : json) (dem : RealDEM.t) : M State unit :=
  match output_path, create_error with
  | JStr _, Some e => raise e
  | JStr _, None =>
      modify (fun s =>
        {| sink := Some (NetCDF.create [] []); ds_bound := ds_bound s |}) ;;;
      match concat (RealDEM.lats dem) with
      | [] => raise ValueError
      | _ =>
          modify (fun s =>
            {| sink := Some (NetCDF.create (RealDEM.y_coords dem)
                                           (RealDEM.x_coords dem));
               ds_bound := ds_bound s |})
      end
  | _, _ => raise TypeError
  end.

(** Lines 232-251.  [fuel] bounds the number of iterations the model runs;
    the Python loop has no such bound. *)
Fixpoint simulation_loop (fuel : nat) (time_step_hours : json)
    (start end_ : datetime) (idx : nat) (current_time : datetime)
    : M State unit :=
  match fuel with
  | O => lift Running
  | S fuel' =>
      if (current_time <=? end_)%Z then
        illum_map <- lift (compute_frame idx current_time) ;;
        let hours_elapsed := hours_between current_time start in
        on_dataset (NetCDF.set_time idx hours_elapsed) ;;;
        on_dataset (NetCDF.set_frame idx illum_map) ;;;
        (if (idx mod 24 =? 0)%nat then on_dataset NetCDF.sync else ret tt) ;;;
        delta <- lift (timedelta_hours time_step_hours) ;;
        next <- lift (datetime_add current_time delta) ;;
        simulation_loop fuel' time_step_hours start end_ (S idx) next
      else ret tt
  end.

(** The [except] clauses of lines 255-259. *)
Definition handlers (e : exn) : option (M State unit) :=
  match e with
  | KeyboardInterrupt => Some (ret tt)
  | _ => if is_Exception e then Some (raise e) else None
  end.

(** The [finally] clause of lines 260-263. *)
Definition finally_close : M State unit :=
  s <- get ;;
  if ds_bound s then on_dataset NetCDF.close else ret tt.

(** Lines 223-263: the run of the driver on a constructed [dem]. *)
Definition run_driver (fuel : nat) (cfg : json) (dem : RealDEM.t)
    (start end_ : datetime) : M State unit :=
  bind_ds false ;;;
  try_except_finally
    (paths <- lift (subscript cfg "paths") ;;
     output_netcdf <- lift (subscript paths "output_netcdf") ;;
     init_netcdf output_netcdf dem ;;;
     bind_ds true ;;;
     mission <- lift (dict_get cfg "mission" (JObj [])) ;;
     time_step_hours <- lift (dict_get mission "time_step_hours" (JNum 1)) ;;
     simulation_loop fuel time_step_hours start end_ 0 start)
    handlers
    finally_close.

(** The remaining collaborators of the [__main__] block. *)
Variable warp : string -> Q -> Q -> Q * Q.
Variable files : Files.
Variable config_file : exn + json.        (* [json.load(open(CONFIG_FILE))] *)
Variable ephemeris_error : option exn.    (* [RealEphemeris("input_data")] *)
Variable fromisoformat : string -> exn + datetime.

(** The call [RealDEM(...)] with positional arguments [args]: the
    signature is [__init__(self, meta_path, mask_path)], so any other
    number of arguments is a [TypeError]; [open] wants a path string. *)
Definition RealDEM_call (args : list json) : result RealDEM.t :=
  match args with
  | [meta_path; mask_path] =>
      match meta_path, mask_path with
      | JStr p, JStr q => RealDEM.init warp files p q
      | _, _ => Raise TypeError
      end
  | _ => Raise TypeError
  end.

Definition parse_date (v : json) : result datetime :=
  match v with
  | JStr s => of_sum (fromisoformat s)
  | _ => Raise TypeError
  end.

(** Lines 211-263: the [__main__] block.  The constructor of
    [IlluminationEngine] only stores its two arguments and is left out. *)
Definition main (fuel : nat) : M State unit :=
  cfg <- lift (of_sum config_file) ;;
  paths <- lift (subscript cfg "paths") ;;
  output_meta <- lift (subscript paths "output_meta") ;;
  paths' <- lift (subscript cfg "paths") ;;
  output_horizon <- lift (subscript paths' "output_horizon") ;;
  dem <- lift (RealDEM_call [output_meta; output_horizon; cfg]) ;;
  _ <- lift (match ephemeris_error with
             | Some e => Raise e
             | None => Ok tt
             end) ;;
  mission <- lift (subscript cfg "mission") ;;
  start_date <- lift (subscript mission "start_date") ;;
  start <- lift (parse_date start_date) ;;
  mission' <- lift (subscript cfg "mission") ;;
  end_date <- lift (subscript mission' "end_date") ;;
  end_ <- lift (parse_date end_date) ;;
  run_driver fuel cfg dem start end_.

End Run.

End Mission.

(** ** Vocabulary of the statements

    Derived notions and concrete inputs that the theorems below refer to. *)

Module Spec.

Import RealDEM Mission.
Local Open Scope Q_scope.
Local Open Scope string_scope.

(** The segment fraction as a function of [t = x / r], times [pi]. *)
Definition chord_fn (t : R) : R := (acos t - t * sqrt (1 - t ^ 2))%R.

(** Entry [(i, j)] of a two-dimensional array. *)
Definition cell {A} (g : list (list A)) (i j : nat) : option A :=
  match nth_error g i with
  | Some row => nth_error row j
  | None => None
  end.

(** [self.meta.get('buffer_meters', 50000.0)] *)
Definition buffer_m_of (m : Meta) : Q :=
  match meta_buffer_meters m with Some v => v | None => 50000 end.


(** The y coordinate of the centre of full-grid row [k]. *)
Definition y_at (T : Affine.t) (k : Z) : Q :=
  snd (Affine.apply T 0 (inject_Z k + (1 # 2))).

Definition strictly_decreasing (v : list Q) : Prop :=
  forall (i j : nat) (yi yj : Q),
    (i < j)%nat -> nth_error v i = Some yi -> nth_error v j = Some yj -> yj < yi.

Definition strictly_increasing (v : list Q) : Prop :=
  forall (i j : nat) (yi yj : Q),
    (i < j)%nat -> nth_error v i = Some yi -> nth_error v j = Some yj -> yi < yj.

(** What one iteration of the loop commits (lines 240-248). *)
Definition commit_step (start : datetime) (idx : nat) (t : datetime)
    (fr : NetCDF.frame) (d : NetCDF.Dataset) : NetCDF.Dataset :=
  let d1 := NetCDF.set_time idx (hours_between t start) d in
  let d2 := NetCDF.set_frame idx fr d1 in
  if (idx mod 24 =? 0)%nat then NetCDF.sync d2 else d2.

(** The frames of iterations [idx], [idx + 1], ... committed in order. *)
Fixpoint commit_all (start : datetime) (delta : Z) (idx : nat) (t : datetime)
    (frames : list NetCDF.frame) (d : NetCDF.Dataset) : NetCDF.Dataset :=
  match frames with
  | [] => d
  | fr :: rest =>
      commit_all start delta (S idx) (t + delta)%Z rest
                 (commit_step start idx t fr d)
  end.

(** The state with the output file replaced by [d]. *)
Definition with_sink (s : State) (d : NetCDF.Dataset) : State :=
  {| sink := Some d; ds_bound := ds_bound s |}.

(** A frame as the dataset [d] stores it. *)
Definition packed (d : NetCDF.Dataset) (fr : NetCDF.frame) : NetCDF.packed_frame :=
  map (map (NetCDF.pack (NetCDF.scale_factor d) (NetCDF.add_offset d))) fr.

(** What the caller of the [try] statement sees for an outcome of the loop. *)
Definition outcome_of (r : result unit) : result unit :=
  match r with
  | Raise KeyboardInterrupt => Ok tt
  | Ok _ => Ok tt
  | other => other
  end.

(** The state right after [init_netcdf] returned and [ds] was bound. *)
Definition opened (dem : RealDEM.t) : State :=
  {| sink := Some (NetCDF.create (RealDEM.y_coords dem) (RealDEM.x_coords dem));
     ds_bound := true |}.

(** The stored value [v] in degrees: [v / 100.0] in binary64. *)
Definition hundredth (v : Z) : B64.float :=
  SFdiv B64.prec B64.emax (B64.of_int v) (B64.of_int 100).

Definition is_finite (x : B64.float) : bool :=
  match x with
  | S754_zero _ | S754_finite _ _ _ => true
  | _ => false
  end.

(** A bound that the quotients [v / 100.0] of the lookup meet: plus zero,
    or a mantissa below [2 ^ 107] at an exponent between -111 and 102. *)
Definition small (x : B64.float) : bool :=
  match x with
  | S754_zero s => negb s
  | S754_finite _ m e => ((Z.pos m <? 2 ^ 107) && (-111 <=? e) && (e <=? 102))%Z
  | _ => false
  end.

Definition float_eqb (x y : B64.float) : bool :=
  match x, y with
  | S754_zero s, S754_zero s' => Bool.eqb s s'
  | S754_infinity s, S754_infinity s' => Bool.eqb s s'
  | S754_nan, S754_nan => true
  | S754_finite s m e, S754_finite s' m' e' =>
      Bool.eqb s s' && Pos.eqb m m' && Z.eqb e e'
  | _, _ => false
  end.

(** [f] holds on the [n] integers from [lo] on. *)
Fixpoint all_from (f : Z -> bool) (lo : Z) (n : nat) : bool :=
  match n with
  | O => true
  | S n' => f lo && all_from f (lo + 1)%Z n'
  end.

(** [int16] range of the stored horizon values. *)
Definition int16 (v : Z) : Prop := (-32768 <= v <= 32767)%Z.

(** The double 359.5. *)
Definition az_359_5 : B64.float := S754_finite false 6324390882967552 (-44).

(** The double 0.5. *)
Definition one_half : B64.float := S754_finite false 4503599627370496 (-53).

(** *** Concrete inputs *)



(** A three-row, one-column raster stored South-to-North. *)
Definition files_sn : Files :=
  {| meta_file := fun _ =>
       Some {| meta_width := 1; meta_height := 3;
               meta_transform := [0; 20; 0; 0; 0; 20];
               meta_crs := "+proj=stere";
               meta_buffer_meters := Some 0 |};
     mask_file := fun _ =>
       Some (repeat 100%Z 360 ++ repeat 200%Z 360 ++ repeat 300%Z 360)%list |}.

Definition warp_id : string -> Q -> Q -> Q * Q := fun _ x y => (x, y).

(** The double nearest to [-1e-20]. *)
Definition minus_1e_20 : B64.float := S754_finite true 6646139978924579 (-119).

Definition cfg_demo : json :=
  JObj [("paths",
         JObj [("output_meta", JStr "output_data/meta.json");
               ("output_horizon", JStr "output_data/horizon.bin");
               ("output_netcdf", JStr "output_data/illumination.nc")]);
        ("mission",
         JObj [("start_date", JStr "2030-01-01T00:00:00");
               ("end_date", JStr "2030-01-01T01:00:00")])].

Definition paths_demo : json :=
  JObj [("output_meta", JStr "output_data/meta.json");
        ("output_horizon", JStr "output_data/horizon.bin");
        ("output_netcdf", JStr "output_data/illumination.nc")].

Definition mission_demo : json :=
  JObj [("start_date", JStr "2030-01-01T00:00:00");
        ("end_date", JStr "2030-01-01T01:00:00")].

(** 2030-01-01T00:00:00 *)
Definition start_demo : datetime := 64029052800000000%Z.

(** A one-pixel terrain. *)
Definition dem_demo : RealDEM.t :=
  {| RealDEM.meta :=
       {| meta_width := 1; meta_height := 1;
          meta_transform := [0; 20; 0; 0; 0; -20];
          meta_crs := "+proj=stere";
          meta_buffer_meters := Some 0 |};
     RealDEM.transform :=
       {| Affine.a := 20; Affine.b := 0; Affine.c := 0;
          Affine.d := 0; Affine.e := -20; Affine.f := 0 |};
     RealDEM.roi_width := 1;
     RealDEM.roi_height := 1;
     RealDEM.horizon_roi := [[repeat 0%Z 360]];
     RealDEM.x_coords := [10];
     RealDEM.y_coords := [-10];
     RealDEM.X_grid := [[10]];
     RealDEM.Y_grid := [[-10]];
     RealDEM.lats := [[-(89 # 1)]];
     RealDEM.lons := [[45]];
     RealDEM.width := 1;
     RealDEM.height := 1 |}.

Definition state_demo : State := {| sink := None; ds_bound := false |}.

(** Every frame is computed: the pixel is half lit. *)
Definition frames_ok : nat -> datetime -> result NetCDF.frame :=
  fun _ _ => Ok [[1 # 2]].


End Spec.

Import Spec.

(** ** run_mission.py: RealEphemeris *)

Module RealEphemeris.

(** *** Loading the kernels (lines 90-96) *)

(** [s.startswith('/')] and [s.endswith('/')] *)
Definition starts_with_sep (s : string) : bool := String.prefix "/" s.

Definition ends_with_sep (s : string) : bool :=
  String.eqb (String.substring (String.length s - 1) 1 s) "/".

(** [os.path.join(a, b)] of [posixpath]. *)
Definition os_path_join (a b : string) : string :=
  if starts_with_sep b then b
  else if (String.eqb a "" || ends_with_sep a)%bool then (a ++ b)%string
  else (a ++ "/" ++ b)%string.

(** Line 93 *)
Definition kernels : list string :=
  ["naif0012.tls"; "pck00010.tpc"; "de440.bsp";
   "moon_pa_de421_1900-2050.bpc"; "moon_080317.tf"]%string.

(** [for x in l: body(x)] *)
Fixpoint for_each {S A} (l : list A) (body : A -> M S unit) : M S unit :=
  match l with
  | [] => ret tt
  | x :: rest => body x ;;; for_each rest body
  end.

Section Init.

(** The state is the kernel pool of the SPICE library: the paths of the
    kernels loaded so far, in the order of loading. *)
Variable path_exists : string -> bool.           (* [os.path.exists] *)
Variable furnsh_error : string -> option exn.    (* what [spice.furnsh] raises *)

(** [spice.kclear()] *)
Definition kclear : M (list string) unit := modify (fun _ => []).

(** [spice.furnsh(path)] *)
Definition furnsh (path : string) : M (list string) unit :=
  match furnsh_error path with
  | Some e => raise e
  | None => modify (fun pool => pool ++ [path])
  end.

(** [RealEphemeris.__init__(self, kernel_dir)] *)
Definition init (kernel_dir : string) : M (list string) unit :=
  kclear ;;;
  for_each kernels (fun k =>
    let path := os_path_join kernel_dir k in
    if negb (path_exists path) then raise FileNotFoundError
    else furnsh path).

End Init.

(** *** Sun geometry (lines 98-137), over the real numbers *)

Local Open Scope R_scope.

Definition vec3 : Type := (R * R * R)%type.

(** [np.linalg.norm] of a three-vector. *)
Definition norm (v : vec3) : R :=
  let '(x, y, z) := v in sqrt (x ^ 2 + y ^ 2 + z ^ 2).

(** [np.degrees] *)
Definition degrees (rad : R) : R := rad * (180 / PI).

(** [np.arctan2(y, x)] on real arguments. *)
Definition arctan2 (y x : R) : R :=
  if Rlt_dec 0 x then atan (y / x)
  else if Rlt_dec x 0 then
    if Rle_dec 0 y then atan (y / x) + PI else atan (y / x) - PI
  else if Rlt_dec 0 y then PI / 2
  else if Rlt_dec y 0 then - (PI / 2)
  else 0.

(** [np.mod(a, b)] on real arguments, for a positive divisor. *)
Definition np_mod (a b : R) : R := a - IZR (Int_part (a / b)) * b.

(** Line 105 *)
Definition SUN_RADIUS_KM : R := 696340.

Section Ephemeris.

(** The position returned by
    [spice.spkpos("SUN", et, "MOON_PA", "LT+S", "MOON")] at a time. *)
Variable spkpos : datetime -> vec3.

Definition get_sun_vector_body_fixed (time : datetime) : vec3 := spkpos time.

(** Lines 103-109 *)
Definition get_apparent_sun_radius (time : datetime) : R :=
  let sun_vec := get_sun_vector_body_fixed time in
  let distance_km := norm sun_vec in
  let angular_radius_rad := asin (SUN_RADIUS_KM / distance_km) in
  degrees angular_radius_rad.

End Ephemeris.

(** Line 118: [s = sun_vec / np.linalg.norm(sun_vec)] *)
Definition unit_vector (sun_vec : vec3) : vec3 :=
  let '(x, y, z) := sun_vec in
  let n := norm sun_vec in
  (x / n, y / n, z / n).

(** Lines 112-122 at one pixel: the components of the unit sun vector along
    the local up, north and east directions. *)
Definition dot_up (s : vec3) (lat lon : R) : R :=
  let '(s0, s1, s2) := s in
  let lat_rad := IlluminationEngine.radians lat in
  let lon_rad := IlluminationEngine.radians lon in
  s0 * (cos lat_rad * cos lon_rad) + s1 * (cos lat_rad * sin lon_rad)
  + s2 * sin lat_rad.

Definition dot_north (s : vec3) (lat lon : R) : R :=
  let '(s0, s1, s2) := s in
  let lat_rad := IlluminationEngine.radians lat in
  let lon_rad := IlluminationEngine.radians lon in
  s0 * (- sin lat_rad * cos lon_rad) + s1 * (- sin lat_rad * sin lon_rad)
  + s2 * cos lat_rad.

Definition dot_east (s : vec3) (lat lon : R) : R :=
  let '(s0, s1, _) := s in
  let lon_rad := IlluminationEngine.radians lon in
  s0 * (- sin lon_rad) + s1 * cos lon_rad.

(** [calculate_grid_geometry] at one pixel of latitude [lat] and longitude
    [lon] (degrees): the azimuth in image space and the elevation. *)
Definition geometry_px (sun_vec : vec3) (lat lon : R) : R * R :=
  let s := unit_vector sun_vec in
  let elevation := degrees (asin (dot_up s lat lon)) in
  let az_north := degrees (arctan2 (dot_east s lat lon) (dot_north s lat lon)) in
  let grid_azimuth_bearing := az_north + lon in
  let math_angle := grid_azimuth_bearing - 90 in
  (np_mod math_angle 360, elevation).

(** Element-wise combination of two grids of the same shape. *)
Definition grid_map2 {A B C} (g : A -> B -> C)
    (xs : list (list A)) (ys : list (list B)) : list (list C) :=
  map (fun rows => map (fun p => g (fst p) (snd p)) (combine (fst rows) (snd rows)))
      (combine xs ys).

(** [calculate_grid_geometry(self, sun_vec, dem)] on the grids [dem.lats]
    and [dem.lons]: the azimuth grid and the elevation grid. *)
Definition calculate_grid_geometry (sun_vec : vec3) (lats lons : list (list R))
    : list (list R) * list (list R) :=
  (grid_map2 (fun lat lon => fst (geometry_px sun_vec lat lon)) lats lons,
   grid_map2 (fun lat lon => snd (geometry_px sun_vec lat lon)) lats lons).

End RealEphemeris.

(** ** illumination_engine.py: the frame generator *)

Module SimulationGenerator.

Section Generator.

Context {Frame : Type}.

(** Lines 61-72: the sun state, geometry, horizon lookup and physics at a
    time; it returns the frame or raises. *)
Variable compute_frame : datetime -> result Frame.

(** [run_simulation_generator(self, start_date, end_date)], consumed to its
    end: the items yielded in order, and how the iteration ends.  [fuel]
    bounds the number of iterations the model runs. *)
Fixpoint generate (fuel : nat) (end_date current_time : datetime)
    : list (datetime * Frame) * result unit :=
  match fuel with
  | O => ([], Running)
  | S fuel' =>
      if (current_time <=? end_date)%Z then
        match compute_frame current_time with
        | Ok illum_map =>
            match (delta <~ timedelta_hours (JNum 1) ;;
                   datetime_add current_time delta) with
            | Ok next =>
                let rest := generate fuel' end_date next in
                ((current_time, illum_map) :: fst rest, snd rest)
            | Raise e => ([(current_time, illum_map)], Raise e)
            | Running => ([(current_time, illum_map)], Running)
            end
        | Raise e => ([], Raise e)
        | Running => ([], Running)
        end
      else ([], Ok tt)
  end.

Definition run_simulation_generator (fuel : nat) (start_date end_date : datetime)
    : list (datetime * Frame) * result unit :=
  generate fuel end_date start_date.

End Generator.

End SimulationGenerator.

(** ** Further vocabulary of the statements *)

Module Terms.

Import RealDEM Mission.
Local Open Scope Q_scope.
Local Open Scope string_scope.

(** The longest prefix of [l] on which [f] holds. *)
Fixpoint take_while {A} (f : A -> bool) (l : list A) : list A :=
  match l with
  | [] => []
  | x :: rest => if f x then x :: take_while f rest else []
  end.

(** A grid has [h] rows of [w] entries. *)
Definition has_shape {A} (g : list (list A)) (h w : nat) : Prop :=
  List.length g = h /\ Forall (fun row => List.length row = w) g.

(** Two grids have the same shape. *)
Definition same_shape {A B} (g : list (list A)) (g' : list (list B)) : Prop :=
  Forall2 (fun row row' => List.length row = List.length row') g g'.

(** A double that is zero or finite: a 53-bit mantissa at an exponent of
    the binary64 range. *)
Definition finite_double (x : B64.float) : bool :=
  match x with
  | S754_zero _ => true
  | S754_finite _ m e => ((Z.pos m <? 2 ^ 53) && (-1074 <=? e) && (e <=? 971))%Z
  | _ => false
  end.

(** A double in the interval [0, 360] (the value [m * 2 ^ e] is compared
    after scaling by [2 ^ 1074]). *)
Definition at_most_360 (x : B64.float) : bool :=
  match x with
  | S754_zero _ => true
  | S754_finite false m e =>
      ((Z.pos m <? 2 ^ 53) && (-1074 <=? e) && (e <=? 971)
       && (Z.pos m * 2 ^ (e + 1074) <=? 360 * 2 ^ 1074))%Z
  | _ => false
  end.

(** *** Further concrete inputs *)

(** The mission of [mission_demo] with an explicit time step. *)
Definition mission_with_step (v : json) : json :=
  JObj [("start_date", JStr "2030-01-01T00:00:00");
        ("end_date", JStr "2030-01-01T01:00:00");
        ("time_step_hours", v)].

Definition cfg_with_step (v : json) : json :=
  JObj [("paths", paths_demo); ("mission", mission_with_step v)].

(** A terrain whose region of interest has no pixel. *)
Definition dem_no_pixels : RealDEM.t :=
  {| RealDEM.meta := RealDEM.meta dem_demo;
     RealDEM.transform := RealDEM.transform dem_demo;
     RealDEM.roi_width := 0;
     RealDEM.roi_height := 0;
     RealDEM.horizon_roi := [];
     RealDEM.x_coords := [];
     RealDEM.y_coords := [];
     RealDEM.X_grid := [];
     RealDEM.Y_grid := [];
     RealDEM.lats := [];
     RealDEM.lons := [];
     RealDEM.width := 0;
     RealDEM.height := 0 |}.

(** The raster of [files_sn] with a buffer of 50 m, more than one pixel on
    each side of its three rows. *)
Definition meta_all_buffer : Meta :=
  {| meta_width := 1; meta_height := 3;
     meta_transform := [0; 20; 0; 0; 0; 20];
     meta_crs := "+proj=stere";
     meta_buffer_meters := Some 50 |}.

Definition files_all_buffer : Files :=
  {| meta_file := fun _ => Some meta_all_buffer;
     mask_file := mask_file files_sn |}.

(** 0001-01-01T01:30:00 *)
Definition early_date : datetime := 5400000000%Z.

End Terms.

Import Terms.
(** * Properties of the physics model *)

Section Physics.

Import IlluminationEngine.
Local Open Scope R_scope.

Section SegmentGeometry.

Lemma radians_pos_scale : 0 < PI / 180.
Proof. pose proof PI_RGT_0. lra. Qed.

Lemma Rmin_scale (k a b : R) : 0 <= k -> Rmin (a * k) (b * k) = Rmin a b * k.
Proof.
  intros Hk. unfold Rmin.
  destruct (Rle_dec (a * k) (b * k)) as [H1|H1], (Rle_dec a b) as [H2|H2]; try reflexivity.
  - assert (b < a) by lra. destruct (Req_dec k 0) as [->|Hk0]; [ring|]. nra.
  - exfalso. apply H1. nra.
Qed.

Lemma sqrt_scale (k y : R) : 0 <= k -> 0 <= y -> sqrt (k ^ 2 * y) = k * sqrt y.
Proof.
  intros Hk Hy. rewrite sqrt_mult by nra.
  replace (k ^ 2) with (k * k) by ring. rewrite sqrt_square by assumption. reflexivity.
Qed.

(** The ratio computed by the engine only depends on [x / r]. *)
Lemma seg_frac_chord (h r : R) :
  0 < r -> seg_frac h r = chord_fn (Rmin (Rabs h) r / r) / PI.
Proof.
  intros Hr. unfold seg_frac, chord_fn.
  set (x := Rmin (Rabs h) r).
  assert (Hx0 : 0 <= x).
  { unfold x. apply Rmin_glb; [apply Rabs_pos | lra]. }
  assert (Hxr : x <= r) by (unfold x; apply Rmin_r).
  assert (Hsq : sqrt (r ^ 2 - x ^ 2) = r * sqrt (1 - (x / r) ^ 2)).
  { rewrite <- sqrt_scale; [f_equal; field; lra | lra |].
    assert (0 <= x / r <= 1).
    { split; [apply Rle_mult_inv_pos; lra|].
      apply (Rmult_le_reg_r r); [lra|]. unfold Rdiv. rewrite Rmult_assoc, Rinv_l; lra. }
    nra. }
  rewrite Hsq. pose proof PI_RGT_0. field. lra.
Qed.

Lemma seg_frac_radians (h r : R) :
  0 < r ->
  seg_frac (radians h) (radians r) = seg_frac h r.
Proof.
  intros Hr. pose proof radians_pos_scale as Hk.
  assert (Hrr : 0 < radians r) by (unfold radians; nra).
  rewrite !seg_frac_chord by assumption.
  do 2 f_equal. unfold radians.
  rewrite Rabs_mult, (Rabs_pos_eq (PI / 180)) by lra.
  rewrite Rmin_scale by lra. field. split; lra.
Qed.







Lemma chord_fn_0 : chord_fn 0 = PI / 2.
Proof. unfold chord_fn. rewrite acos_0. ring. Qed.


End SegmentGeometry.

Section FractionCases.
Variables s e r : R.
Hypothesis Hr : 0 < r.
Let h := e - s.

Lemma radians_lt (a b : R) : a < b <-> radians a < radians b.
Proof. unfold radians. pose proof radians_pos_scale. split; intros; nra. Qed.

Lemma radians_le (a b : R) : a <= b <-> radians a <= radians b.
Proof. unfold radians. pose proof radians_pos_scale. split; intros; nra. Qed.

Lemma radians_opp (a : R) : radians (- a) = - radians a.
Proof. unfold radians. ring. Qed.

Lemma radians_0 : radians 0 = 0.
Proof. unfold radians. ring. Qed.

Lemma mask_partial_true :
  mask_partial (radians h) (radians r) = true <-> - r < h < r.
Proof.
  unfold mask_partial. rewrite <- radians_opp.
  destruct (Rgt_dec _ _) as [H1|H1], (Rlt_dec _ _) as [H2|H2]; cbn;
    unfold Rgt in *; rewrite <- ?radians_lt in *; split; intros; try lra; try discriminate.
Qed.

Lemma fraction_px_above : h <= - r -> fraction_px s e r = 1.
Proof.
  intros Hh. unfold fraction_px. fold h.
  destruct (Rge_dec (radians h) (radians r)) as [H|H].
  - apply Rge_le in H. apply (proj2 (radians_le _ _)) in H. lra.
  - destruct (Rle_dec (radians h) (- radians r)) as [H'|H']; [reflexivity|].
    exfalso. apply H'. rewrite <- radians_opp. apply (proj1 (radians_le _ _)). assumption.
Qed.

Lemma fraction_px_below : r <= h -> fraction_px s e r = 0.
Proof.
  intros Hh. unfold fraction_px. fold h.
  destruct (Rge_dec (radians h) (radians r)) as [H|H]; [reflexivity|].
  exfalso. apply H, Rle_ge, (proj1 (radians_le _ _)). assumption.
Qed.

Lemma fraction_px_partial :
  - r < h < r -> fraction_px s e r = vals (radians h) (radians r).
Proof.
  intros Hh. unfold fraction_px. fold h.
  destruct (Rge_dec (radians h) (radians r)) as [H|H].
  { apply Rge_le in H. apply (proj2 (radians_le _ _)) in H. lra. }
  destruct (Rle_dec (radians h) (- radians r)) as [H'|H'].
  { rewrite <- radians_opp in H'. apply (proj2 (radians_le _ _)) in H'. lra. }
  apply mask_partial_true in Hh. rewrite Hh. reflexivity.
Qed.

Lemma vals_nonneg : 0 <= h -> vals (radians h) (radians r) = seg_frac h r.
Proof.
  intros Hh. unfold vals.
  assert (0 <= radians h) by (rewrite <- radians_0; apply (proj1 (radians_le _ _)); assumption).
  destruct (Rlt_dec (radians h) 0); [lra|].
  destruct (Rge_dec (radians h) 0); [|lra].
  apply seg_frac_radians; assumption.
Qed.

Lemma vals_neg : h < 0 -> vals (radians h) (radians r) = 1 - seg_frac h r.
Proof.
  intros Hh. unfold vals.
  assert (radians h < 0) by (rewrite <- radians_0; apply (proj1 (radians_lt _ _)); assumption).
  destruct (Rlt_dec (radians h) 0); [|lra].
  f_equal. apply seg_frac_radians; assumption.
Qed.

End FractionCases.

(** C1.  For a sun radius [r > 0] and [h = e - s] (degrees), the engine
    returns 1 when [h <= -r], 0 when [h >= r], and in the partial band the
    circular-segment fraction computed from [x = min(|h|, r)] when [h >= 0]
    and its complement when [h < 0]; the value is 1 at [h = -r], 0 at
    [h = r] and one half at [h = 0]. *)
Theorem segment_area_cases (s e r : R) :
  0 < r ->
  let h := e - s in
  let x := Rmin (Rabs h) r in
  let segment_fraction :=
    (r ^ 2 * acos (x / r) - x * sqrt (r ^ 2 - x ^ 2)) / (PI * r ^ 2) in
  (h <= - r -> fraction_px s e r = 1) /\
  (r <= h -> fraction_px s e r = 0) /\
  (- r < h < r ->
     (0 <= h -> fraction_px s e r = segment_fraction) /\
     (h < 0 -> fraction_px s e r = 1 - segment_fraction)) /\
  fraction_px s (s - r) r = 1 /\
  fraction_px s (s + r) r = 0 /\
  fraction_px s s r = 1 / 2.
Proof.
  intros Hr h x sf. repeat split.
  - apply fraction_px_above; assumption.
  - apply fraction_px_below; assumption.
  - intros Hh. rewrite fraction_px_partial, vals_nonneg by assumption. reflexivity.
  - intros Hh. rewrite fraction_px_partial, vals_neg by assumption. reflexivity.
  - apply fraction_px_above; lra.
  - apply fraction_px_below; lra.
  - rewrite fraction_px_partial, vals_nonneg by lra.
    rewrite seg_frac_chord by assumption.
    replace (s - s) with 0 by ring. rewrite Rabs_R0, Rmin_left by lra.
    replace (0 / r) with 0 by (field; lra). rewrite chord_fn_0.
    pose proof PI_RGT_0. field. lra.
Qed.

Lemma segment_area_cases_witness :
  0 < 1 / 4 /\ fraction_px 0 0 (1 / 4) = 1 / 2.
Proof.
  assert (Hr : 0 < 1 / 4) by lra.
  split; [exact Hr | apply (segment_area_cases 0 0 (1 / 4) Hr)].
Defined.





(** The vectorised function applies [fraction_px] at every pixel. *)
Lemma calculate_circular_segment_area_px elev r i j p row :
  nth_error elev i = Some row -> nth_error row j = Some p ->
  exists out,
    nth_error (calculate_circular_segment_area elev r) i = Some out /\
    nth_error out j = Some (fraction_px (fst p) (snd p) r).
Proof.
  intros Hi Hj. unfold calculate_circular_segment_area.
  eexists. split.
  - rewrite nth_error_map, Hi. reflexivity.
  - rewrite nth_error_map, Hj. reflexivity.
Qed.

End Physics.

(** * Properties of the terrain model *)

Section PrimFacts.

Lemma py_int_nonneg (q : Q) : 0 <= q -> py_int q = Qfloor q.
Proof.
  destruct q as [n d]. unfold Qle, py_int, Qfloor. cbn. intros Hn.
  apply Z.quot_div_nonneg; lia.
Qed.


Lemma arange_length (lo hi : Z) : List.length (arange lo hi) = Z.to_nat (hi - lo).
Proof. unfold arange. rewrite length_map, length_seq. reflexivity. Qed.

Lemma arange_nth (lo hi : Z) (i : nat) :
  (i < Z.to_nat (hi - lo))%nat ->
  nth_error (arange lo hi) i = Some (lo + Z.of_nat i)%Z.
Proof.
  intros Hi. unfold arange.
  rewrite nth_error_map, nth_error_seq.
  destruct (Nat.ltb_spec i (Z.to_nat (hi - lo))); [reflexivity | lia].
Qed.

Lemma py_slice_interior {A} (l : list A) (b : Z) :
  (0 <= b)%Z ->
  let n := Z.of_nat (List.length l) in
  List.length (py_slice b (n - b) l) = Z.to_nat (n - 2 * b) /\
  forall i : nat, (Z.of_nat i < n - 2 * b)%Z ->
    nth_error (py_slice b (n - b) l) i = nth_error l (Z.to_nat b + i).
Proof.
  intros Hb n. unfold py_slice, slice_bound. fold n.
  assert (Hn : (0 <= n)%Z) by (unfold n; lia).
  destruct (Z.ltb_spec b 0) as [?|_]; [lia|].
  destruct (Z.ltb_spec (n - b) 0) as [Hneg|Hpos].
  - replace (Z.to_nat (Z.max (n - b + n) 0 - Z.min b n)) with 0%nat by lia.
    rewrite firstn_O. split; [cbn [List.length]; lia | intros i Hi; lia].
  - replace (Z.min (n - b) n) with (n - b)%Z by lia.
    replace (Z.min b n) with b by lia.
    replace (n - b - b)%Z with (n - 2 * b)%Z by lia.
    split.
    + rewrite length_firstn, length_skipn. lia.
    + intros i Hi. rewrite nth_error_firstn.
      destruct (Nat.ltb_spec i (Z.to_nat (n - 2 * b))); [|lia].
      apply nth_error_skipn.
Qed.

Lemma py_index_inv {A} (l : list A) (i : Z) (a : A) :
  py_index l i = Ok a ->
  exists j : Z,
    j = (if (i <? 0)%Z then (i + Z.of_nat (List.length l))%Z else i) /\
    (0 <= j < Z.of_nat (List.length l))%Z /\
    nth_error l (Z.to_nat j) = Some a.
Proof.
  unfold py_index. intros Hidx.
  set (n := Z.of_nat (List.length l)) in *.
  set (j := if (i <? 0)%Z then (i + n)%Z else i) in *.
  exists j. split; [reflexivity|].
  destruct ((0 <=? j)%Z && (j <? n)%Z) eqn:E; [|discriminate].
  apply andb_true_iff in E as [E1 E2].
  apply Z.leb_le in E1. apply Z.ltb_lt in E2.
  destruct (nth_error l (Z.to_nat j)) as [x|]; [|discriminate].
  inversion Hidx; subst. split; [lia | reflexivity].
Qed.

Lemma py_index_in_range {A} (l : list A) (i : Z) :
  (0 <= i < Z.of_nat (List.length l))%Z ->
  exists a, nth_error l (Z.to_nat i) = Some a /\ py_index l i = Ok a.
Proof.
  intros Hi. unfold py_index.
  destruct (Z.ltb_spec i 0) as [?|_]; [lia|].
  destruct (nth_error l (Z.to_nat i)) as [a|] eqn:E.
  - exists a. split; [reflexivity|].
    replace ((0 <=? i)%Z && (i <? Z.of_nat (List.length l))%Z) with true;
      [reflexivity|].
    symmetry. apply andb_true_iff. split; [apply Z.leb_le | apply Z.ltb_lt]; lia.
  - apply nth_error_None in E. lia.
Qed.

Lemma py_index_last {A} (l : list A) :
  l <> [] ->
  exists a, nth_error l (List.length l - 1) = Some a /\ py_index l (-1) = Ok a.
Proof.
  intros Hl.
  assert (Hlen : (0 < List.length l)%nat) by (destruct l; [contradiction | cbn; lia]).
  unfold py_index. cbn [Z.ltb Z.compare].
  replace (Z.to_nat (-1 + Z.of_nat (List.length l)))
    with (List.length l - 1)%nat by lia.
  destruct (nth_error l (List.length l - 1)) as [a|] eqn:E.
  - exists a. split; [reflexivity|].
    replace ((0 <=? -1 + Z.of_nat (List.length l))%Z
             && (-1 + Z.of_nat (List.length l) <? Z.of_nat (List.length l))%Z)
      with true; [reflexivity|].
    symmetry. apply andb_true_iff. split; [apply Z.leb_le | apply Z.ltb_lt]; lia.
  - apply nth_error_None in E. lia.
Qed.

Lemma py_index_out_of_range {A} (l : list A) (i : Z) :
  (Z.of_nat (List.length l) <= i)%Z -> py_index l i = Raise IndexError.
Proof.
  intros Hi. unfold py_index.
  destruct (Z.ltb_spec i 0) as [?|_]; [lia|].
  replace (i <? Z.of_nat (List.length l))%Z with false
    by (symmetry; apply Z.ltb_ge; lia).
  rewrite andb_false_r. reflexivity.
Qed.

Lemma In_py_slice {A} (lo hi : Z) (l : list A) (x : A) :
  In x (py_slice lo hi l) -> In x l.
Proof.
  unfold py_slice. intros Hin.
  set (n := Z.of_nat (List.length l)) in *.
  rewrite <- (firstn_skipn (Z.to_nat (slice_bound n lo)) l).
  apply in_or_app. right.
  rewrite <- (firstn_skipn (Z.to_nat (slice_bound n hi - slice_bound n lo))
                (skipn (Z.to_nat (slice_bound n lo)) l)).
  apply in_or_app. left. exact Hin.
Qed.

End PrimFacts.

Section RoiFacts.

Import RealDEM.

Lemma roi_of_ok (m : Meta) (T : Affine.t) :
  ~ Affine.a T == 0 ->
  roi_of m T =
  Ok {| buffer_px := py_int (buffer_m_of m / Affine.a T);
        x_start := py_int (buffer_m_of m / Affine.a T);
        x_end := (meta_width m - py_int (buffer_m_of m / Affine.a T))%Z;
        y_start := py_int (buffer_m_of m / Affine.a T);
        y_end := (meta_height m - py_int (buffer_m_of m / Affine.a T))%Z |}.
Proof.
  intros Ha. unfold roi_of.
  destruct (Qeq_bool (Affine.a T) 0) eqn:E.
  - apply Qeq_bool_eq in E. contradiction.
  - reflexivity.
Qed.

Lemma select_roi_interior {A} (roi : Roi) (cube : list (list A)) (H W : Z) :
  (0 <= buffer_px roi)%Z ->
  x_start roi = buffer_px roi -> x_end roi = (W - buffer_px roi)%Z ->
  y_start roi = buffer_px roi -> y_end roi = (H - buffer_px roi)%Z ->
  Z.of_nat (List.length cube) = H ->
  (forall row, In row cube -> Z.of_nat (List.length row) = W) ->
  List.length (select_roi roi cube) = Z.to_nat (H - 2 * buffer_px roi) /\
  (forall row, In row (select_roi roi cube) ->
     List.length row = Z.to_nat (W - 2 * buffer_px roi)) /\
  (forall i j : nat,
     (Z.of_nat i < H - 2 * buffer_px roi)%Z ->
     (Z.of_nat j < W - 2 * buffer_px roi)%Z ->
     cell (select_roi roi cube) i j =
     cell cube (Z.to_nat (buffer_px roi) + i) (Z.to_nat (buffer_px roi) + j)).
Proof.
  intros Hb Hxs Hxe Hys Hye HH HW. unfold select_roi.
  rewrite Hxs, Hxe, Hys, Hye. subst H.
  destruct (py_slice_interior cube (buffer_px roi) Hb) as [Hlen Hnth].
  cbv zeta in Hlen, Hnth.
  assert (Hrows : forall row,
            In row (py_slice (buffer_px roi)
                      (Z.of_nat (List.length cube) - buffer_px roi) cube) ->
            In row cube).
  { intros row Hin. apply In_py_slice in Hin. exact Hin. }
  split; [rewrite length_map; exact Hlen|]. split.
  - intros row Hin. apply in_map_iff in Hin as (row0 & <- & Hin0).
    apply Hrows, HW in Hin0. subst W.
    apply (py_slice_interior row0 (buffer_px roi) Hb).
  - intros i j Hi Hj. unfold cell.
    rewrite nth_error_map, (Hnth i Hi).
    destruct (nth_error cube (Z.to_nat (buffer_px roi) + i)) as [row0|] eqn:E;
      [|reflexivity].
    cbn. apply nth_error_In, HW in E. subst W.
    apply (py_slice_interior row0 (buffer_px roi) Hb). exact Hj.
Qed.




End RoiFacts.

Section OrientationFacts.

Import RealDEM.

Lemma coords_y_length T roi :
  List.length (coords_y T roi) = Z.to_nat (y_end roi - y_start roi).
Proof. unfold coords_y. rewrite !length_map. apply arange_length. Qed.

Lemma coords_y_nth T roi (i : nat) :
  (i < Z.to_nat (y_end roi - y_start roi))%nat ->
  nth_error (coords_y T roi) i = Some (y_at T (y_start roi + Z.of_nat i)).
Proof.
  intros Hi. unfold coords_y. rewrite !nth_error_map, arange_nth by assumption.
  reflexivity.
Qed.

Lemma coords_y_nth_inv T roi (i : nat) (y : Q) :
  nth_error (coords_y T roi) i = Some y ->
  (i < Z.to_nat (y_end roi - y_start roi))%nat /\
  y = y_at T (y_start roi + Z.of_nat i).
Proof.
  intros Hy.
  assert (Hi : (i < Z.to_nat (y_end roi - y_start roi))%nat).
  { rewrite <- (coords_y_length T). apply nth_error_Some. congruence. }
  split; [exact Hi|]. rewrite coords_y_nth in Hy by assumption. congruence.
Qed.

Lemma y_at_step (T : Affine.t) (k1 k2 : Z) :
  y_at T k2 - y_at T k1 == Affine.e T * inject_Z (k2 - k1).
Proof.
  unfold y_at, Affine.apply. cbn [snd].
  unfold Zminus. rewrite inject_Z_plus, inject_Z_opp. ring.
Qed.

Lemma coords_y_decreasing T roi :
  Affine.e T < 0 -> strictly_decreasing (coords_y T roi).
Proof.
  intros He i j yi yj Hij Hi Hj.
  apply coords_y_nth_inv in Hi as [_ ->]. apply coords_y_nth_inv in Hj as [_ ->].
  pose proof (y_at_step T (y_start roi + Z.of_nat i) (y_start roi + Z.of_nat j)) as Hs.
  assert (Hk : 0 < inject_Z (y_start roi + Z.of_nat j - (y_start roi + Z.of_nat i))).
  { rewrite <- (Zlt_Qlt 0). lia. }
  nra.
Qed.

Lemma coords_y_increasing T roi :
  0 < Affine.e T -> strictly_increasing (coords_y T roi).
Proof.
  intros He i j yi yj Hij Hi Hj.
  apply coords_y_nth_inv in Hi as [_ ->]. apply coords_y_nth_inv in Hj as [_ ->].
  pose proof (y_at_step T (y_start roi + Z.of_nat i) (y_start roi + Z.of_nat j)) as Hs.
  assert (Hk : 0 < inject_Z (y_start roi + Z.of_nat j - (y_start roi + Z.of_nat i))).
  { rewrite <- (Zlt_Qlt 0). lia. }
  nra.
Qed.

Lemma rev_increasing (v : list Q) :
  strictly_increasing v -> strictly_decreasing (rev v).
Proof.
  intros Hinc i j yi yj Hij Hi Hj.
  rewrite nth_error_rev in Hi, Hj.
  destruct (Nat.ltb_spec i (List.length v)); [|discriminate].
  destruct (Nat.ltb_spec j (List.length v)); [|discriminate].
  apply (Hinc (List.length v - S j)%nat (List.length v - S i)%nat); auto. lia.
Qed.

Lemma first_last_nth (v : list Q) (y0 y1 : Q) :
  first_last v = Ok (y0, y1) ->
  v <> [] /\ nth_error v 0 = Some y0 /\
  nth_error v (List.length v - 1) = Some y1.
Proof.
  unfold first_last. intros Hfl.
  destruct (py_index v 0) as [a0| |] eqn:E0; try discriminate.
  cbn [rbind] in Hfl.
  destruct (py_index v (-1)) as [a1| |] eqn:E1; try discriminate.
  cbn [rbind] in Hfl. inversion Hfl; subst.
  apply py_index_inv in E0 as (j0 & -> & Hr0 & Hn0).
  apply py_index_inv in E1 as (j1 & -> & Hr1 & Hn1).
  cbn [Z.ltb Z.compare] in *.
  replace (Z.to_nat (-1 + Z.of_nat (List.length v)))
    with (List.length v - 1)%nat in Hn1 by lia.
  split; [|split; assumption].
  intros ->. cbn in Hr0. lia.
Qed.

Lemma load_y_coords warp files p q raw :
  load warp files p q = Ok raw ->
  exists roi, y_coords raw = coords_y (transform raw) roi.
Proof.
  unfold load. intros Hload.
  destruct (meta_file files p) as [m|]; [|discriminate].
  destruct (Affine.from_gdal (meta_transform m)) as [T| |]; try discriminate.
  cbn [rbind] in Hload.
  destruct (roi_of m T) as [roi| |]; try discriminate. cbn [rbind] in Hload.
  destruct (mask_file files q) as [flat|]; [|discriminate].
  destruct (memmap flat (meta_height m) (meta_width m)) as [cube| |];
    try discriminate.
  cbn [rbind] in Hload.
  destruct (np_reshape2 _ _ _) as [la| |]; try discriminate. cbn [rbind] in Hload.
  destruct (np_reshape2 _ _ _) as [lo| |]; try discriminate. cbn [rbind] in Hload.
  inversion Hload; subst. cbn. exists roi. reflexivity.
Qed.

Lemma enforce_decreasing_y_cases (raw dem : t) :
  enforce_decreasing_y raw = Ok dem ->
  exists y0 y1, first_last (y_coords raw) = Ok (y0, y1) /\
    ((y0 < y1 /\
      transform dem = transform raw /\
      y_coords dem = rev (y_coords raw) /\
      horizon_roi dem = rev (horizon_roi raw) /\
      lats dem = rev (lats raw) /\
      lons dem = rev (lons raw)) \/
     (y1 <= y0 /\ dem = raw)).
Proof.
  unfold enforce_decreasing_y. intros Hen.
  destruct (first_last (y_coords raw)) as [[y0 y1]| |]; try discriminate.
  cbn [rbind fst snd] in Hen. exists y0, y1. split; [reflexivity|].
  destruct (Qlt_le_dec y0 y1) as [Hlt|Hle]; inversion Hen; subst.
  - left. cbn. repeat split; auto.
  - right. auto.
Qed.

(** C6.  After construction the exposed y coordinates are strictly
    decreasing whatever the sign of the row spacing [e] of the raster; when
    the rows come South-to-North (first y below last y) the y vector, the
    horizon profile, the latitudes and the longitudes are the row-reversed
    arrays, otherwise they are exposed unchanged. *)
Theorem y_decreasing_after_init warp files (p q : string) (dem : t) :
  init warp files p q = Ok dem ->
  ~ Affine.e (transform dem) == 0 ->
  strictly_decreasing (y_coords dem) /\
  exists raw y0 y1,
    load warp files p q = Ok raw /\
    first_last (y_coords raw) = Ok (y0, y1) /\
    (y0 < y1 ->
       y_coords dem = rev (y_coords raw) /\
       horizon_roi dem = rev (horizon_roi raw) /\
       lats dem = rev (lats raw) /\
       lons dem = rev (lons raw)) /\
    (y1 <= y0 -> dem = raw).
Proof.
  unfold init. intros Hinit He.
  destruct (load warp files p q) as [raw| |] eqn:Hload; try discriminate.
  cbn [rbind] in Hinit.
  destruct (load_y_coords _ _ _ _ _ Hload) as [roi Hy].
  destruct (enforce_decreasing_y_cases _ _ Hinit) as (y0 & y1 & Hfl & Hcases).
  destruct (first_last_nth _ _ _ Hfl) as (Hne & H0 & H1).
  assert (HT : transform dem = transform raw)
    by (destruct Hcases as [(_ & HT & _)|[_ ->]]; [exact HT | reflexivity]).
  rewrite HT in He.
  split.
  - destruct (Qlt_le_dec (Affine.e (transform raw)) 0) as [Hneg|Hnn].
    + (* North-to-South source: already decreasing, never flipped *)
      pose proof (coords_y_decreasing (transform raw) roi Hneg) as Hdec.
      rewrite <- Hy in Hdec.
      destruct Hcases as [(Hlt & _)|[_ ->]]; [|exact Hdec].
      exfalso.
      destruct (Nat.eq_dec (List.length (y_coords raw) - 1) 0) as [E|E].
      * rewrite E in H1. rewrite H0 in H1. inversion H1; subst.
        apply (Qlt_irrefl y1). exact Hlt.
      * assert (Hlt' : y1 < y0)
          by (apply (Hdec 0%nat (List.length (y_coords raw) - 1)%nat); auto; lia).
        apply (Qlt_irrefl y0). apply (Qlt_trans _ y1); assumption.
    + assert (Hpos : 0 < Affine.e (transform raw)).
      { destruct (Qlt_le_dec 0 (Affine.e (transform raw))) as [?|Hle]; [assumption|].
        exfalso. apply He. apply Qle_antisym; assumption. }
      pose proof (coords_y_increasing (transform raw) roi Hpos) as Hinc.
      rewrite <- Hy in Hinc.
      destruct Hcases as [(Hlt & _ & Hyd & _)|[Hle ->]].
      * rewrite Hyd. apply rev_increasing. exact Hinc.
      * (* a single row: nothing to order *)
        destruct (Nat.eq_dec (List.length (y_coords raw) - 1) 0) as [E|E].
        -- intros i j yi yj Hij Hi Hj.
           assert (j < List.length (y_coords raw))%nat
             by (apply nth_error_Some; congruence).
           lia.
        -- exfalso.
           assert (Hlt' : y0 < y1)
             by (apply (Hinc 0%nat (List.length (y_coords raw) - 1)%nat); auto; lia).
           apply (Qlt_irrefl y0). apply (Qlt_le_trans _ y1); assumption.
  - exists raw, y0, y1. split; [reflexivity|]. split; [exact Hfl|]. split.
    + intros Hlt. destruct Hcases as [(_ & _ & H2 & H3 & H4 & H5)|[Hle _]];
        [auto|].
      exfalso. apply (Qlt_irrefl y0). apply (Qlt_le_trans _ y1); assumption.
    + intros Hle. destruct Hcases as [(Hlt & _)|[_ E]]; [|exact E].
      exfalso. apply (Qlt_irrefl y0). apply (Qlt_le_trans _ y1); assumption.
Qed.

End OrientationFacts.

Section OrientationWitness.

Import RealDEM.

Lemma init_files_sn :
  exists dem,
    init warp_id files_sn "meta.json" "horizon.bin" = Ok dem /\
    Affine.e (transform dem) = 20 /\
    map Qred (y_coords dem) = [50; 30; 10] /\
    map (map (hd 0%Z)) (horizon_roi dem) = [[300]; [200]; [100]]%Z.
Proof.
  vm_compute. eexists. split; [reflexivity|]. vm_compute. repeat split.
Qed.

Lemma y_decreasing_after_init_witness :
  exists dem,
    init warp_id files_sn "meta.json" "horizon.bin" = Ok dem /\
    strictly_decreasing (y_coords dem).
Proof.
  destruct init_files_sn as (dem & Hinit & He & _).
  exists dem. split; [exact Hinit|].
  apply (y_decreasing_after_init warp_id files_sn "meta.json" "horizon.bin" dem Hinit).
  rewrite He. discriminate.
Defined.

End OrientationWitness.

(** * Binary64 arithmetic of the lookup *)

Section Binary64Facts.

Local Open Scope Z_scope.

Lemma digits2_pos_size (p : positive) : digits2_pos p = Pos.size p.
Proof. induction p; cbn; congruence. Qed.

Lemma Zdigits2_log2 (p : positive) :
  Zdigits2 (Z.pos p) = Z.succ (Z.log2 (Z.pos p)).
Proof.
  destruct p; cbn [Zdigits2 digits2_pos Z.log2];
    rewrite ?digits2_pos_size; lia.
Qed.

Lemma Zdigits2_nonneg (m : Z) : 0 <= Zdigits2 m.
Proof. destruct m; cbn; lia. Qed.

Lemma Zdigits2_le (m n : Z) : 0 <= n -> 0 <= m < 2 ^ n -> Zdigits2 m <= n.
Proof.
  intros Hn [H0 Hm]. destruct m as [|p|p]; [cbn; lia| |lia].
  rewrite Zdigits2_log2.
  apply (Z.log2_lt_pow2 (Z.pos p) n) in Hm; lia.
Qed.

Lemma Zdigits2_gt (p : positive) : Z.pos p < 2 ^ Zdigits2 (Z.pos p).
Proof. rewrite Zdigits2_log2. apply Z.log2_spec. lia. Qed.

Lemma iter_pos_invariant {A} (f : A -> A) (Inv : A -> Prop) :
  (forall x, Inv x -> Inv (f x)) ->
  forall p x, Inv x -> Inv (iter_pos f p x).
Proof.
  intros Hf. induction p as [p IH|p IH|]; intros x Hx; cbn [iter_pos]; auto.
Qed.

Lemma shr_1_bounds (mrs : shr_record) (B : Z) :
  0 <= shr_m mrs <= B -> 0 <= shr_m (shr_1 mrs) <= B.
Proof.
  destruct mrs as [m r s]. cbn [shr_m]. intros Hm.
  destruct m as [|[p|p|]|[p|p|]]; cbn [shr_1 shr_m]; lia.
Qed.

Lemma shr_record_of_loc_m (m : Z) (l : location) :
  shr_m (shr_record_of_loc m l) = m.
Proof. destruct l as [|[| |]]; reflexivity. Qed.

Lemma shr_fexp_bounds (m e : Z) (l : location) :
  0 <= m ->
  0 <= shr_m (fst (shr_fexp B64.prec B64.emax m e l)) <= m /\
  snd (shr_fexp B64.prec B64.emax m e l)
    = Z.max e (fexp B64.prec B64.emax (Zdigits2 m + e)).
Proof.
  intros Hm. unfold shr_fexp, shr.
  destruct (fexp B64.prec B64.emax (Zdigits2 m + e) - e) as [|p|p] eqn:E;
    cbn [fst snd].
  - rewrite shr_record_of_loc_m. lia.
  - split; [|lia].
    apply (iter_pos_invariant shr_1 (fun mrs => 0 <= shr_m mrs <= m)).
    + intros x. apply shr_1_bounds.
    + rewrite shr_record_of_loc_m. lia.
  - rewrite shr_record_of_loc_m. lia.
Qed.

Lemma round_nearest_even_bounds (m : Z) (l : location) :
  m <= round_nearest_even m l <= m + 1.
Proof.
  destruct l as [|[| |]]; cbn [round_nearest_even]; try lia.
  destruct (Z.even m); lia.
Qed.

Lemma fexp_le (x : Z) :
  fexp B64.prec B64.emax x = Z.max (x - 53) (-1074).
Proof. reflexivity. Qed.

(** Rounding a mantissa below [2 ^ N] at a small exponent cannot
    overflow. *)
Lemma binary_round_aux_finite (sx : bool) (mx ex : Z) (lx : location) (N : Z) :
  0 <= N <= 330 -> 0 <= mx < 2 ^ N -> ex <= 110 ->
  is_finite (binary_round_aux B64.prec B64.emax sx mx ex lx) = true.
Proof.
  intros HN Hmx Hex. unfold binary_round_aux.
  pose proof (shr_fexp_bounds mx ex lx ltac:(lia)) as [Hm1 He1].
  destruct (shr_fexp B64.prec B64.emax mx ex lx) as [mrs1 e1].
  cbn [fst snd] in Hm1, He1.
  set (m1' := round_nearest_even (shr_m mrs1) (loc_of_shr_record mrs1)).
  pose proof (round_nearest_even_bounds (shr_m mrs1) (loc_of_shr_record mrs1)) as Hr.
  fold m1' in Hr.
  pose proof (shr_fexp_bounds m1' e1 loc_Exact ltac:(lia)) as [Hm2 He2].
  destruct (shr_fexp B64.prec B64.emax m1' e1 loc_Exact) as [mrs2 e2].
  cbn [fst snd] in Hm2, He2.
  assert (Hd0 : Zdigits2 mx <= N) by (apply Zdigits2_le; lia).
  assert (Hpow : 2 ^ N < 2 ^ (N + 1)) by (apply Z.pow_lt_mono_r; lia).
  assert (Hd1 : Zdigits2 m1' <= N + 1) by (apply Zdigits2_le; lia).
  pose proof (Zdigits2_nonneg mx). pose proof (Zdigits2_nonneg m1').
  rewrite fexp_le in He1, He2.
  destruct (shr_m mrs2) as [|p|p]; [reflexivity| |lia].
  replace (e2 <=? B64.emax - B64.prec) with true; [reflexivity|].
  symmetry. apply Z.leb_le. unfold B64.emax, B64.prec. lia.
Qed.

Lemma shl_align_spec (mx : positive) (ex ex' : Z) :
  snd (shl_align mx ex ex') = Z.min ex ex' /\
  Z.pos (fst (shl_align mx ex ex'))
    = Z.pos mx * 2 ^ (ex - snd (shl_align mx ex ex')).
Proof.
  unfold shl_align. destruct (ex' - ex) as [|d|d] eqn:E; cbn [fst snd].
  - split; [lia|]. rewrite Z.sub_diag. cbn. lia.
  - split; [lia|]. rewrite Z.sub_diag. cbn. lia.
  - split; [lia|].
    replace (ex - ex') with (Z.pos d) by lia. clear E.
    induction d using Pos.peano_ind.
    + cbn. lia.
    + rewrite Pos.iter_succ, Pos2Z.inj_succ, Z.pow_succ_r by lia.
      rewrite Pos2Z.inj_xO, IHd. lia.
Qed.

Lemma binary_round_finite (sx : bool) (mx : positive) (ex N : Z) :
  53 <= N <= 330 -> Z.pos mx < 2 ^ N -> ex <= 110 ->
  is_finite (binary_round B64.prec B64.emax sx mx ex) = true.
Proof.
  intros HN Hmx Hex. unfold binary_round.
  pose proof (shl_align_spec mx ex
                (fexp B64.prec B64.emax (Z.pos (digits2_pos mx) + ex)))
    as [He Hm].
  destruct (shl_align mx ex
              (fexp B64.prec B64.emax (Z.pos (digits2_pos mx) + ex)))
    as [mz ez].
  cbn [fst snd] in He, Hm.
  apply (binary_round_aux_finite sx (Z.pos mz) ez loc_Exact N); [lia | | lia].
  split; [lia|]. rewrite Hm.
  change (Z.pos (digits2_pos mx)) with (Zdigits2 (Z.pos mx)) in He.
  rewrite fexp_le in He.
  pose proof (Zdigits2_gt mx) as Hd.
  pose proof (Zdigits2_nonneg (Z.pos mx)) as Hd0.
  set (dg := Zdigits2 (Z.pos mx)) in *.
  destruct (Z.le_gt_cases ex ez) as [Hle|Hgt].
  - replace (ex - ez) with 0 by lia. cbn. lia.
  - (* the mantissa is shifted up to at most 53 digits *)
    assert (Hsh : 0 < ex - ez <= 53 - dg) by lia.
    assert (Hp : 2 ^ (ex - ez) <= 2 ^ (53 - dg))
      by (apply Z.pow_le_mono_r; lia).
    assert (H53 : 2 ^ dg * 2 ^ (53 - dg) = 2 ^ 53)
      by (rewrite <- Z.pow_add_r by lia; f_equal; lia).
    assert (Hpos : 0 < 2 ^ (ex - ez)) by (apply Z.pow_pos_nonneg; lia).
    assert (HN53 : 2 ^ 53 <= 2 ^ N) by (apply Z.pow_le_mono_r; lia).
    nia.
Qed.

Lemma binary_normalize_finite (m e N : Z) :
  53 <= N <= 330 -> Z.abs m < 2 ^ N -> e <= 110 ->
  is_finite (binary_normalize B64.prec B64.emax m e false) = true.
Proof.
  intros HN Hm He. destruct m as [|p|p]; cbn [binary_normalize].
  - reflexivity.
  - apply (binary_round_finite false p e N); auto.
  - apply (binary_round_finite true p e N); auto.
Qed.

Lemma SFsub_small_finite (x y : B64.float) :
  small x = true -> small y = true ->
  is_finite (SFsub B64.prec B64.emax x y) = true.
Proof.
  destruct x as [sx| | |sx mx ex], y as [sy| | |sy my ey];
    cbn [small]; try discriminate; intros Hx Hy.
  - destruct sx, sy; reflexivity.
  - reflexivity.
  - reflexivity.
  - apply andb_true_iff in Hx as [Hx Hx3]. apply andb_true_iff in Hx as [Hx1 Hx2].
    apply andb_true_iff in Hy as [Hy Hy3]. apply andb_true_iff in Hy as [Hy1 Hy2].
    apply Z.ltb_lt in Hx1, Hy1. apply Z.leb_le in Hx2, Hx3, Hy2, Hy3.
    cbn [SFsub].
    pose proof (shl_align_spec mx ex (Z.min ex ey)) as [Hex Hmx].
    pose proof (shl_align_spec my ey (Z.min ex ey)) as [Hey Hmy].
    set (ax := Z.pos (fst (shl_align mx ex (Z.min ex ey)))) in *.
    set (ay := Z.pos (fst (shl_align my ey (Z.min ex ey)))) in *.
    assert (Hax : 0 < ax < 2 ^ 320).
    { split; [unfold ax; lia|]. rewrite Hmx, Hex.
      assert (2 ^ (ex - Z.min ex (Z.min ex ey)) <= 2 ^ 213)
        by (apply Z.pow_le_mono_r; lia).
      assert (0 < 2 ^ (ex - Z.min ex (Z.min ex ey)))
        by (apply Z.pow_pos_nonneg; lia).
      change (2 ^ 320) with (2 ^ 107 * 2 ^ 213). nia. }
    assert (Hay : 0 < ay < 2 ^ 320).
    { split; [unfold ay; lia|]. rewrite Hmy, Hey.
      assert (2 ^ (ey - Z.min ey (Z.min ex ey)) <= 2 ^ 213)
        by (apply Z.pow_le_mono_r; lia).
      assert (0 < 2 ^ (ey - Z.min ey (Z.min ex ey)))
        by (apply Z.pow_pos_nonneg; lia).
      change (2 ^ 320) with (2 ^ 107 * 2 ^ 213). nia. }
    apply (binary_normalize_finite _ _ 321); [lia | | lia].
    change (2 ^ 321) with (2 ^ 320 + 2 ^ 320).
    destruct sx, sy; cbn [cond_Zopp]; lia.
Qed.

Lemma float_eqb_eq (x y : B64.float) : float_eqb x y = true -> x = y.
Proof.
  destruct x as [s| s| |s m e], y as [s'| s'| |s' m' e'];
    cbn [float_eqb]; try discriminate; intros H.
  - apply Bool.eqb_prop in H. congruence.
  - apply Bool.eqb_prop in H. congruence.
  - reflexivity.
  - apply andb_true_iff in H as [H He]. apply andb_true_iff in H as [Hs Hm].
    apply Bool.eqb_prop in Hs. apply Pos.eqb_eq in Hm. apply Z.eqb_eq in He.
    congruence.
Qed.

Lemma all_from_spec (f : Z -> bool) (n : nat) :
  forall lo, all_from f lo n = true ->
  forall v, lo <= v < lo + Z.of_nat n -> f v = true.
Proof.
  induction n as [|n IH]; intros lo Hall v Hv; [lia|].
  cbn [all_from] in Hall. apply andb_true_iff in Hall as [Hlo Hrest].
  destruct (Z.eq_dec v lo) as [->|Hne]; [exact Hlo|].
  apply (IH (lo + 1) Hrest). lia.
Qed.

(** *** The shape of rounded results *)

Lemma Zdigits2_lower (p : positive) : 2 ^ (Zdigits2 (Z.pos p) - 1) <= Z.pos p.
Proof.
  rewrite Zdigits2_log2. replace (Z.succ (Z.log2 (Z.pos p)) - 1)
    with (Z.log2 (Z.pos p)) by lia.
  apply Z.log2_spec. lia.
Qed.

Lemma shr_1_half (mrs : shr_record) :
  0 <= shr_m mrs -> shr_m (shr_1 mrs) = shr_m mrs / 2.
Proof.
  destruct mrs as [m r s]. cbn [shr_m]. intros Hm.
  destruct m as [|[p|p|]|p]; cbn [shr_1 shr_m]; try lia; try reflexivity.
  - apply (Z.div_unique (Z.pos p~1) 2 (Z.pos p) 1); lia.
  - apply (Z.div_unique (Z.pos p~0) 2 (Z.pos p) 0); lia.
Qed.

Lemma iter_shr_1 (p : positive) :
  forall mrs, 0 <= shr_m mrs ->
    shr_m (iter_pos shr_1 p mrs) = shr_m mrs / 2 ^ Z.pos p.
Proof.
  induction p as [p IH|p IH|]; intros mrs Hm; cbn [iter_pos].
  - assert (H1 : 0 <= shr_m (shr_1 mrs))
      by (rewrite shr_1_half by assumption; apply Z.div_pos; lia).
    assert (H2 : 0 <= shr_m (iter_pos shr_1 p (shr_1 mrs)))
      by (rewrite IH by assumption; apply Z.div_pos; [|apply Z.pow_pos_nonneg]; lia).
    rewrite (IH _ H2), (IH _ H1), shr_1_half by assumption.
    assert (Hp : 0 < 2 ^ Z.pos p) by (apply Z.pow_pos_nonneg; lia).
    rewrite !Z.div_div by lia.
    f_equal. replace (Z.pos p~1) with (1 + Z.pos p + Z.pos p) by lia.
    rewrite !Z.pow_add_r by lia. change (2 ^ 1) with 2. ring.
  - assert (H1 : 0 <= shr_m (iter_pos shr_1 p mrs))
      by (rewrite IH by assumption; apply Z.div_pos; [|apply Z.pow_pos_nonneg]; lia).
    rewrite (IH _ H1), (IH _ Hm).
    assert (Hp : 0 < 2 ^ Z.pos p) by (apply Z.pow_pos_nonneg; lia).
    rewrite Z.div_div by lia.
    f_equal. replace (Z.pos p~0) with (Z.pos p + Z.pos p) by lia.
    rewrite Z.pow_add_r by lia. ring.
  - rewrite shr_1_half by assumption. reflexivity.
Qed.

(** Above the smallest exponent, shifting to the target exponent keeps a
    positive mantissa positive. *)
Lemma shr_fexp_pos (m e : Z) (l : location) :
  0 < m -> -1074 <= e ->
  0 < shr_m (fst (shr_fexp B64.prec B64.emax m e l)) <= m /\
  snd (shr_fexp B64.prec B64.emax m e l)
    = Z.max e (fexp B64.prec B64.emax (Zdigits2 m + e)).
Proof.
  intros Hm He.
  destruct (shr_fexp_bounds m e l ltac:(lia)) as [Hb Hs].
  split; [|exact Hs]. split; [|lia]. clear Hb Hs.
  unfold shr_fexp, shr. rewrite fexp_le.
  destruct m as [|q|q]; try lia.
  pose proof (Zdigits2_lower q) as Hlo.
  pose proof (Zdigits2_nonneg (Z.pos q)) as Hd.
  set (dg := Zdigits2 (Z.pos q)) in *.
  destruct (Z.max (dg + e - 53) (-1074) - e) as [|p|p] eqn:E; cbn [fst].
  - rewrite shr_record_of_loc_m. lia.
  - rewrite iter_shr_1 by (rewrite shr_record_of_loc_m; lia).
    rewrite shr_record_of_loc_m.
    apply Z.div_str_pos. split; [apply Z.pow_pos_nonneg; lia|].
    assert (Z.pos p <= dg - 1) by lia.
    assert (2 ^ Z.pos p <= 2 ^ (dg - 1)) by (apply Z.pow_le_mono_r; lia).
    lia.
  - rewrite shr_record_of_loc_m. lia.
Qed.

Lemma binary_round_aux_shape (sx : bool) (mx ex : Z) (lx : location) (N : Z) :
  0 <= N <= 330 -> 0 < mx < 2 ^ N -> -1074 <= ex <= 110 ->
  exists m e,
    binary_round_aux B64.prec B64.emax sx mx ex lx = S754_finite sx m e /\
    Z.pos m <= mx + 1 /\
    ex <= e <= Z.max ex (N + ex - 53) + Z.max 0 (N - 52).
Proof.
  intros HN Hmx Hex. unfold binary_round_aux.
  pose proof (shr_fexp_pos mx ex lx ltac:(lia) ltac:(lia)) as [Hm1 He1].
  destruct (shr_fexp B64.prec B64.emax mx ex lx) as [mrs1 e1].
  cbn [fst snd] in Hm1, He1.
  set (m1' := round_nearest_even (shr_m mrs1) (loc_of_shr_record mrs1)).
  pose proof (round_nearest_even_bounds (shr_m mrs1) (loc_of_shr_record mrs1)) as Hr.
  fold m1' in Hr.
  assert (Hd0 : Zdigits2 mx <= N) by (apply Zdigits2_le; lia).
  pose proof (Zdigits2_nonneg mx) as Hd0'.
  rewrite fexp_le in He1.
  pose proof (shr_fexp_pos m1' e1 loc_Exact ltac:(lia) ltac:(lia)) as [Hm2 He2].
  destruct (shr_fexp B64.prec B64.emax m1' e1 loc_Exact) as [mrs2 e2].
  cbn [fst snd] in Hm2, He2.
  assert (Hpow : 2 ^ N < 2 ^ (N + 1)) by (apply Z.pow_lt_mono_r; lia).
  assert (Hd1 : Zdigits2 m1' <= N + 1) by (apply Zdigits2_le; lia).
  pose proof (Zdigits2_nonneg m1') as Hd1'.
  rewrite fexp_le in He2.
  destruct (shr_m mrs2) as [|p|p]; try lia.
  replace (e2 <=? B64.emax - B64.prec) with true
    by (symmetry; apply Z.leb_le; unfold B64.emax, B64.prec; lia).
  exists p, e2. split; [reflexivity|]. lia.
Qed.

Lemma binary_round_shape (sx : bool) (mx : positive) (ex N : Z) :
  53 <= N <= 330 -> Z.pos mx < 2 ^ N -> -1000 <= ex <= 110 ->
  exists m e,
    binary_round B64.prec B64.emax sx mx ex = S754_finite sx m e /\
    Z.pos m <= 2 ^ N /\
    ex - 52 <= e <= 2 * N + ex - 105.
Proof.
  intros HN Hmx Hex. unfold binary_round.
  pose proof (shl_align_spec mx ex
                (fexp B64.prec B64.emax (Z.pos (digits2_pos mx) + ex)))
    as [He Hm].
  destruct (shl_align mx ex
              (fexp B64.prec B64.emax (Z.pos (digits2_pos mx) + ex)))
    as [mz ez].
  cbn [fst snd] in He, Hm.
  change (Z.pos (digits2_pos mx)) with (Zdigits2 (Z.pos mx)) in He.
  rewrite fexp_le in He.
  pose proof (Zdigits2_gt mx) as Hd.
  pose proof (Zdigits2_lower mx) as Hdl.
  assert (Hd1 : 1 <= Zdigits2 (Z.pos mx)) by (cbn; lia).
  set (dg := Zdigits2 (Z.pos mx)) in *.
  assert (Hmz : Z.pos mz < 2 ^ N).
  { rewrite Hm. destruct (Z.le_gt_cases ex ez) as [Hle|Hgt].
    - replace (ex - ez) with 0 by lia. cbn. lia.
    - assert (Hsh : 0 < ex - ez <= 53 - dg) by lia.
      assert (Hp : 2 ^ (ex - ez) <= 2 ^ (53 - dg))
        by (apply Z.pow_le_mono_r; lia).
      assert (H53 : 2 ^ dg * 2 ^ (53 - dg) = 2 ^ 53)
        by (rewrite <- Z.pow_add_r by lia; f_equal; lia).
      assert (Hpos : 0 < 2 ^ (ex - ez)) by (apply Z.pow_pos_nonneg; lia).
      assert (HN53 : 2 ^ 53 <= 2 ^ N) by (apply Z.pow_le_mono_r; lia).
      nia. }
  destruct (binary_round_aux_shape sx (Z.pos mz) ez loc_Exact N)
    as (m & e & Hres & Hmle & Hele); [lia | lia | lia |].
  exists m, e. split; [exact Hres|]. lia.
Qed.

Lemma of_int_shape (v : Z) :
  v <> 0 -> Z.abs v < 2 ^ 16 ->
  exists s m e,
    B64.of_int v = S754_finite s m e /\ Z.pos m <= 2 ^ 53 /\ -52 <= e <= 1.
Proof.
  intros Hv Habs. unfold B64.of_int.
  assert (H16 : 2 ^ 16 < 2 ^ 53) by (apply Z.pow_lt_mono_r; lia).
  destruct v as [|p|p]; [contradiction| |]; cbn [binary_normalize].
  - destruct (binary_round_shape false p 0 53) as (m & e & H & Hm & He);
      [lia | lia | lia |].
    exists false, m, e. split; [exact H|]. lia.
  - destruct (binary_round_shape true p 0 53) as (m & e & H & Hm & He);
      [lia | lia | lia |].
    exists true, m, e. split; [exact H|]. lia.
Qed.

Lemma of_int_100 :
  B64.of_int 100 = S754_finite false 7036874417766400 (-46).
Proof. reflexivity. Qed.

(** A non-zero stored value divided by 100.0 is a non-zero finite double. *)
Lemma hundredth_shape (v : Z) :
  int16 v -> v <> 0 ->
  exists s m e,
    hundredth v = S754_finite s m e /\ Z.pos m < 2 ^ 107 /\ -111 <= e <= 102.
Proof.
  intros Hv Hnz. unfold int16 in Hv.
  destruct (of_int_shape v Hnz) as (sx & mx & ex & Hx & Hmx & Hex);
    [change (2 ^ 16) with 65536; lia|].
  unfold hundredth. rewrite Hx, of_int_100. cbn [SFdiv].
  unfold SFdiv_core_binary.
  change (Zdigits2 (Z.pos 7036874417766400)) with 53.
  pose proof (Zdigits2_gt mx) as Hd. pose proof (Zdigits2_lower mx) as Hdl.
  assert (Hd1 : 1 <= Zdigits2 (Z.pos mx)) by (cbn; lia).
  assert (Hd54 : Zdigits2 (Z.pos mx) <= 54).
  { apply Zdigits2_le; [lia|]. split; [lia|].
    change (2 ^ 54) with (2 ^ 53 + 2 ^ 53). lia. }
  set (dg := Zdigits2 (Z.pos mx)) in *.
  rewrite fexp_le.
  replace (Z.min (Z.max (dg + ex - (53 + -46) - 53) (-1074)) (ex - -46))
    with (dg + ex - 60) by lia.
  replace (ex - -46 - (dg + ex - 60)) with (106 - dg) by lia.
  destruct (106 - dg) as [|sh|sh] eqn:Esh; try lia.
  rewrite Z.shiftl_mul_pow2 by lia.
  set (m' := Z.pos mx * 2 ^ Z.pos sh).
  assert (Hm'lo : 2 ^ 105 <= m').
  { unfold m'. replace 105 with ((dg - 1) + Z.pos sh) by lia.
    rewrite Z.pow_add_r by lia.
    apply Z.mul_le_mono_nonneg_r; [apply Z.pow_nonneg; lia | exact Hdl]. }
  assert (Hm'hi : m' < 2 ^ 106).
  { unfold m'. replace 106 with (dg + Z.pos sh) by lia.
    rewrite Z.pow_add_r by lia.
    apply Z.mul_lt_mono_pos_r; [apply Z.pow_pos_nonneg; lia | exact Hd]. }
  pose proof (Z.div_eucl_eq m' 7036874417766400 ltac:(lia)) as Hdiv.
  pose proof (Z.mod_pos_bound m' 7036874417766400 ltac:(lia)) as Hmod.
  unfold Z.modulo in Hmod.
  destruct (Z.div_eucl m' 7036874417766400) as [q r].
  assert (H105 : 2 ^ 105 = 2 ^ 53 * 2 ^ 52) by reflexivity.
  assert (H53 : 7036874417766400 < 2 ^ 53) by reflexivity.
  assert (H52 : 0 < 2 ^ 52) by reflexivity.
  assert (Hq : 0 < q < 2 ^ 106) by nia.
  destruct (binary_round_aux_shape (xorb sx false) q (dg + ex - 60)
              (new_location 7036874417766400 r) 106)
    as (m & e & Hres & Hmle & Hele); [lia | lia | lia |].
  exists (xorb sx false), m, e. split; [exact Hres|].
  change (2 ^ 107) with (2 ^ 106 + 2 ^ 106). lia.
Qed.

Lemma hundredth_small (v : Z) : int16 v -> small (hundredth v) = true.
Proof.
  intros Hv. destruct (Z.eq_dec v 0) as [->|Hnz]; [reflexivity|].
  destruct (hundredth_shape v Hv Hnz) as (s & m & e & -> & Hm & He).
  cbn [small]. apply andb_true_iff. split; [apply andb_true_iff; split|].
  - apply Z.ltb_lt. exact Hm.
  - apply Z.leb_le. lia.
  - apply Z.leb_le. lia.
Qed.

(** Checked on each of the 360 integer degrees: the wrapped azimuth is the
    azimuth itself, its floor is exact and the fraction is zero. *)
Lemma integer_degrees_exact :
  all_from (fun k =>
              let az := B64.np_mod (B64.of_int k) (B64.of_int 360) in
              float_eqb az (B64.of_int k)
              && (B64.floor_astype_int az =? k)
              && float_eqb (SFsub B64.prec B64.emax az (B64.of_int k))
                           (S754_zero false))
           0 360 = true.
Proof. vm_compute. reflexivity. Qed.

Lemma integer_degree_exact (k : Z) :
  0 <= k <= 359 ->
  B64.np_mod (B64.of_int k) (B64.of_int 360) = B64.of_int k /\
  B64.floor_astype_int (B64.of_int k) = k /\
  SFsub B64.prec B64.emax (B64.of_int k) (B64.of_int k) = S754_zero false.
Proof.
  intros Hk.
  pose proof (all_from_spec _ _ _ integer_degrees_exact k ltac:(lia)) as H.
  cbv zeta in H. apply andb_true_iff in H as [H H3].
  apply andb_true_iff in H as [H1 H2].
  apply float_eqb_eq in H1, H3. apply Z.eqb_eq in H2.
  rewrite H1 in H2, H3. auto.
Qed.

(** Interpolating with fraction zero returns the first value. *)
Lemma interpolate_at_zero (h1 h2 : B64.float) :
  small h1 = true -> small h2 = true ->
  SFadd B64.prec B64.emax h1
    (SFmul B64.prec B64.emax (SFsub B64.prec B64.emax h2 h1) (S754_zero false))
  = h1.
Proof.
  intros H1 H2. pose proof (SFsub_small_finite h2 h1 H2 H1) as Hf.
  destruct (SFsub B64.prec B64.emax h2 h1) as [s| | |s m e];
    try discriminate; cbn [SFmul];
    destruct h1 as [s1| | |s1 m1 e1]; try discriminate;
    cbn [small negb] in H1; cbn [SFadd];
    try reflexivity; destruct s1; try discriminate; destruct s; reflexivity.
Qed.

End Binary64Facts.

(** * Properties of the horizon lookup *)

Section LookupFacts.

Import RealDEM.

(** The wrapped azimuth of exact arithmetic lies in [0, 360). *)
Lemma exact_np_mod_range (az : Q) :
  0 <= Exact.np_mod az 360 /\ Exact.np_mod az 360 < 360.
Proof.
  unfold Exact.np_mod.
  pose proof (Qfloor_le (az / 360)) as Hlo.
  pose proof (Qlt_floor (az / 360)) as Hhi.
  rewrite inject_Z_plus in Hhi.
  set (n := inject_Z (Qfloor (az / 360))) in *.
  assert (Haz : az == az / 360 * 360) by (field; discriminate).
  split.
  - assert (n * 360 <= az / 360 * 360) by (apply Qmult_le_compat_r; [exact Hlo | discriminate]).
    lra.
  - assert (az / 360 * 360 < (n + inject_Z 1) * 360)
      by (apply Qmult_lt_compat_r; [reflexivity | exact Hhi]).
    change (inject_Z 1) with 1 in *. lra.
Qed.

Lemma exact_floor_range (az : Q) :
  (0 <= Qfloor (Exact.np_mod az 360) < 360)%Z.
Proof.
  destruct (exact_np_mod_range az) as [Hlo Hhi]. split.
  - change 0%Z with (Qfloor 0). apply Qfloor_resp_le. exact Hlo.
  - pose proof (Qfloor_le (Exact.np_mod az 360)) as Hf.
    rewrite Zlt_Qlt. apply (Qle_lt_trans _ _ _ Hf). exact Hhi.
Qed.

Lemma exact_np_mod_int (k : Z) :
  Exact.np_mod (inject_Z k) 360 == inject_Z (k mod 360).
Proof.
  unfold Exact.np_mod.
  change 360 with (inject_Z 360). rewrite <- Zdiv_Qdiv.
  rewrite <- inject_Z_mult. unfold Qminus. rewrite <- inject_Z_opp, <- inject_Z_plus.
  rewrite Zmod_eq_full by discriminate. reflexivity.
Qed.

(** In exact arithmetic both bucket indices are in range for every azimuth
    and the lookup returns a value. *)
Lemma exact_lookup_defined (profile : list Z) (az : Q) :
  List.length profile = 360%nat ->
  let az_floor := Qfloor (Exact.np_mod az 360) in
  let az_ceil := ((az_floor + 1) mod 360)%Z in
  (0 <= az_floor <= 359)%Z /\ (0 <= az_ceil <= 359)%Z /\
  exists r, horizon_px (ops := Exact.ops) profile az = Ok r.
Proof.
  intros Hlen az_floor az_ceil.
  pose proof (exact_floor_range az) as Hf. fold az_floor in Hf.
  assert (Hc : (0 <= az_ceil < 360)%Z) by (apply Z.mod_pos_bound; lia).
  split; [lia|]. split; [lia|].
  destruct (py_index_in_range profile az_floor) as (v1 & _ & H1);
    [rewrite Hlen; lia|].
  destruct (py_index_in_range profile az_ceil) as (v2 & _ & H2);
    [rewrite Hlen; lia|].
  unfold horizon_px. cbn [np_mod floor_astype_int Exact.ops of_int].
  change (inject_Z 360) with 360%Q. fold az_floor. fold az_ceil.
  rewrite H1. cbn [rbind]. rewrite H2. cbn [rbind]. eexists. reflexivity.
Qed.

(** In exact arithmetic, a lookup at an integer-degree azimuth [k] returns
    the stored value of bucket [k mod 360] divided by 100, and a lookup at
    azimuth 359.5 returns the mean of the values of bucket 359 and bucket
    0, both divided by 100. *)
Lemma exact_lookup_integer_and_wrap (profile : list Z) :
  List.length profile = 360%nat ->
  (forall k : Z,
     exists v r,
       nth_error profile (Z.to_nat (k mod 360)) = Some v /\
       horizon_px (ops := Exact.ops) profile (inject_Z k) = Ok r /\
       r == inject_Z v / 100) /\
  (exists v359 v0 r,
     nth_error profile 359 = Some v359 /\
     nth_error profile 0 = Some v0 /\
     horizon_px (ops := Exact.ops) profile (719 # 2) = Ok r /\
     r == (inject_Z v359 / 100 + inject_Z v0 / 100) / 2).
Proof.
  intros Hlen. split.
  - intros k.
    assert (Hk : (0 <= k mod 360 < 360)%Z) by (apply Z.mod_pos_bound; lia).
    assert (Hfl : Qfloor (Exact.np_mod (inject_Z k) 360) = (k mod 360)%Z).
    { rewrite (Qfloor_comp _ _ (exact_np_mod_int k)). apply Qfloor_Z. }
    destruct (py_index_in_range profile (k mod 360)) as (v1 & Hn1 & H1);
      [rewrite Hlen; lia|].
    destruct (py_index_in_range profile ((k mod 360 + 1) mod 360)) as (v2 & _ & H2).
    { rewrite Hlen. pose proof (Z.mod_pos_bound (k mod 360 + 1) 360). lia. }
    exists v1. eexists. split; [exact Hn1|].
    unfold horizon_px. cbn [np_mod floor_astype_int Exact.ops of_int fadd fsub fmul fdiv].
    change (inject_Z 360) with 360%Q. rewrite Hfl, H1. cbn [rbind]. rewrite H2.
    cbn [rbind]. split; [reflexivity|].
    rewrite (exact_np_mod_int k). change (inject_Z 100) with 100%Q. ring.
  - destruct (py_index_in_range profile 359) as (v359 & Hn359 & H359);
      [rewrite Hlen; lia|].
    destruct (py_index_in_range profile 0) as (v0 & Hn0 & H0);
      [rewrite Hlen; lia|].
    exists v359, v0. eexists. split; [exact Hn359|]. split; [exact Hn0|].
    unfold horizon_px. cbn [np_mod floor_astype_int Exact.ops of_int fadd fsub fmul fdiv].
    change (Qfloor (Exact.np_mod (719 # 2) (inject_Z 360))) with 359%Z.
    change ((359 + 1) mod 360)%Z with 0%Z.
    rewrite H359. cbn [rbind]. rewrite H0. cbn [rbind]. split; [reflexivity|].
    change (inject_Z 100) with 100%Q.
    assert (Hfr : Exact.np_mod (719 # 2) (inject_Z 360) - inject_Z 359 == 1 # 2)
      by reflexivity.
    rewrite Hfr. field.
Qed.

(** In binary64 arithmetic, a lookup at an integer degree [k] of
    [0 .. 359] returns the double [v / 100.0] of bucket [k], and a lookup
    at 359.5 interpolates bucket 359 and bucket 0 with weight one half. *)
Lemma b64_lookup_integer_and_wrap (profile : list Z) :
  List.length profile = 360%nat ->
  (Forall int16 profile ->
   forall k : Z, (0 <= k <= 359)%Z ->
     exists v,
       nth_error profile (Z.to_nat k) = Some v /\
       horizon_px (ops := B64.ops) profile (B64.of_int k) = Ok (hundredth v)) /\
  (exists v359 v0,
     nth_error profile 359 = Some v359 /\
     nth_error profile 0 = Some v0 /\
     horizon_px (ops := B64.ops) profile az_359_5
     = Ok (SFadd B64.prec B64.emax (hundredth v359)
             (SFmul B64.prec B64.emax
                (SFsub B64.prec B64.emax (hundredth v0) (hundredth v359))
                one_half))).
Proof.
  intros Hlen. split.
  - intros Hint k Hk.
    destruct (integer_degree_exact k Hk) as (Hmod & Hfloor & Hfrac).
    destruct (py_index_in_range profile k) as (v1 & Hn1 & H1);
      [rewrite Hlen; lia|].
    destruct (py_index_in_range profile ((k + 1) mod 360)) as (v2 & Hn2 & H2).
    { rewrite Hlen. pose proof (Z.mod_pos_bound (k + 1) 360). lia. }
    exists v1. split; [exact Hn1|].
    unfold horizon_px.
    cbn [np_mod floor_astype_int B64.ops of_int fadd fsub fmul fdiv].
    rewrite Hmod, Hfloor, H1. cbn [rbind]. rewrite H2. cbn [rbind].
    rewrite Hfrac. f_equal.
    rewrite Forall_forall in Hint.
    apply interpolate_at_zero; apply hundredth_small; apply Hint.
    + apply nth_error_In in Hn1. exact Hn1.
    + apply nth_error_In in Hn2. exact Hn2.
  - destruct (py_index_in_range profile 359) as (v359 & Hn359 & H359);
      [rewrite Hlen; lia|].
    destruct (py_index_in_range profile 0) as (v0 & Hn0 & H0);
      [rewrite Hlen; lia|].
    exists v359, v0. split; [exact Hn359|]. split; [exact Hn0|].
    unfold horizon_px.
    cbn [np_mod floor_astype_int B64.ops of_int fadd fsub fmul fdiv].
    change (B64.np_mod az_359_5 (B64.of_int 360)) with az_359_5.
    change (B64.floor_astype_int az_359_5) with 359%Z.
    change ((359 + 1) mod 360)%Z with 0%Z.
    rewrite H359. cbn [rbind]. rewrite H0. cbn [rbind].
    change (SFsub B64.prec B64.emax az_359_5 (B64.of_int 359)) with one_half.
    reflexivity.
Qed.

(** C4.  A lookup at an integer-degree azimuth returns the stored value of
    its bucket divided by 100, with no interpolation error: in exact
    arithmetic for every integer [k] (bucket [k mod 360]), and in binary64
    arithmetic for the degrees 0 to 359 of an [int16] profile, where the
    result is the double [v / 100.0].  A lookup at 359.5 interpolates
    bucket 359 and bucket 0 with weight one half: in exact arithmetic the
    result is their mean. *)
Theorem lookup_integer_and_wrap (profile : list Z) :
  List.length profile = 360%nat ->
  (forall k : Z,
     exists v r,
       nth_error profile (Z.to_nat (k mod 360)) = Some v /\
       horizon_px (ops := Exact.ops) profile (inject_Z k) = Ok r /\
       r == inject_Z v / 100) /\
  (exists v359 v0 r,
     nth_error profile 359 = Some v359 /\
     nth_error profile 0 = Some v0 /\
     horizon_px (ops := Exact.ops) profile (719 # 2) = Ok r /\
     r == (inject_Z v359 / 100 + inject_Z v0 / 100) / 2) /\
  (Forall int16 profile ->
   forall k : Z, (0 <= k <= 359)%Z ->
     exists v,
       nth_error profile (Z.to_nat k) = Some v /\
       horizon_px (ops := B64.ops) profile (B64.of_int k) = Ok (hundredth v)) /\
  (exists v359 v0,
     nth_error profile 359 = Some v359 /\
     nth_error profile 0 = Some v0 /\
     horizon_px (ops := B64.ops) profile az_359_5
     = Ok (SFadd B64.prec B64.emax (hundredth v359)
             (SFmul B64.prec B64.emax
                (SFsub B64.prec B64.emax (hundredth v0) (hundredth v359))
                one_half))).
Proof.
  intros Hlen.
  destruct (exact_lookup_integer_and_wrap profile Hlen) as [E1 E2].
  destruct (b64_lookup_integer_and_wrap profile Hlen) as [B1 B2].
  auto.
Qed.

Lemma lookup_integer_and_wrap_witness :
  List.length (repeat 1234%Z 360) = 360%nat /\
  Forall int16 (repeat 1234%Z 360) /\
  (0 <= 90 <= 359)%Z /\
  (exists r,
     horizon_px (ops := Exact.ops) (repeat 1234%Z 360) (inject_Z 90) = Ok r /\
     r == 1234 / 100) /\
  horizon_px (ops := B64.ops) (repeat 1234%Z 360) (B64.of_int 90)
  = Ok (hundredth 1234).
Proof.
  assert (Hlen : List.length (repeat 1234%Z 360) = 360%nat) by reflexivity.
  assert (Hint : Forall int16 (repeat 1234%Z 360)).
  { apply Forall_forall. intros x Hx. apply repeat_spec in Hx. subst x.
    unfold int16. lia. }
  assert (Hk : (0 <= 90 <= 359)%Z) by lia.
  split; [exact Hlen|]. split; [exact Hint|]. split; [exact Hk|].
  destruct (lookup_integer_and_wrap (repeat 1234%Z 360) Hlen)
    as (E1 & _ & B1 & _).
  split.
  - destruct (E1 90%Z) as (v & r & Hv & Hr & Heq).
    exists r. split; [exact Hr|].
    change (nth_error (repeat 1234%Z 360) (Z.to_nat (90 mod 360)))
      with (Some 1234%Z) in Hv.
    inversion Hv; subst v. exact Heq.
  - destruct (B1 Hint 90%Z Hk) as (v & Hv & Hr).
    change (nth_error (repeat 1234%Z 360) (Z.to_nat 90))
      with (Some 1234%Z) in Hv.
    inversion Hv; subst v. exact Hr.
Defined.

End LookupFacts.

Section Binary64Lookup.

Import RealDEM.

Lemma minus_1e_20_quotient :
  SFdiv B64.prec B64.emax (B64.of_int (-1)) (B64.of_int (10 ^ 20)) = minus_1e_20.
Proof. vm_compute. reflexivity. Qed.

(** Adding 360 to the remainder [-1e-20] rounds to 360. *)
Lemma b64_np_mod_tiny_negative :
  B64.np_mod minus_1e_20 (B64.of_int 360) = B64.of_int 360 /\
  B64.floor_astype_int (B64.np_mod minus_1e_20 (B64.of_int 360)) = 360%Z.
Proof. vm_compute. split; reflexivity. Qed.

(** C5 (the code at the failing input).  In binary64 arithmetic the lookup
    at azimuth [-1e-20] computes the floor bucket 360 and raises
    [IndexError], for every 360-bucket profile, at one pixel and through
    the vectorised function. *)
Theorem b64_lookup_index_out_of_range (profile : list Z) :
  List.length profile = 360%nat ->
  horizon_px (ops := B64.ops) profile minus_1e_20 = Raise IndexError /\
  forall self : RealDEM.t,
    horizon_roi self = [[profile]] ->
    get_horizon_elevation_vectorized (ops := B64.ops) self [[minus_1e_20]]
    = Raise IndexError.
Proof.
  intros Hlen.
  assert (Hpx : horizon_px (ops := B64.ops) profile minus_1e_20 = Raise IndexError).
  { unfold horizon_px.
    cbn [np_mod floor_astype_int B64.ops of_int fadd fsub fmul fdiv].
    rewrite (proj2 b64_np_mod_tiny_negative).
    rewrite py_index_out_of_range by (rewrite Hlen; lia). reflexivity. }
  split; [exact Hpx|].
  intros self Hroi. unfold get_horizon_elevation_vectorized, indexed.
  cbn [List.length seq combine traverse fst snd rbind Z.of_nat].
  rewrite Hroi. cbn [py_index List.length Z.of_nat Z.ltb Z.compare Z.leb andb
                       Z.to_nat nth_error rbind Pos.of_succ_nat].
  cbn. rewrite Hpx. reflexivity.
Qed.

Lemma b64_lookup_index_out_of_range_witness :
  List.length (repeat 1234%Z 360) = 360%nat /\
  horizon_px (ops := B64.ops) (repeat 1234%Z 360) minus_1e_20 = Raise IndexError.
Proof.
  assert (Hlen : List.length (repeat 1234%Z 360) = 360%nat) by reflexivity.
  split; [exact Hlen|].
  exact (proj1 (b64_lookup_index_out_of_range (repeat 1234%Z 360) Hlen)).
Defined.

End Binary64Lookup.

(** * Properties of the packed output *)

Section PackingFacts.

Lemma round_half_even_near (q : Q) :
  - (1 # 2) <= inject_Z (round_half_even q) - q /\
  inject_Z (round_half_even q) - q <= 1 # 2.
Proof.
  unfold round_half_even.
  pose proof (Qfloor_le q) as Hlo. pose proof (Qlt_floor q) as Hhi.
  rewrite inject_Z_plus in Hhi. change (inject_Z 1) with 1 in Hhi.
  destruct (Qcompare (q - inject_Z (Qfloor q)) (1 # 2)) eqn:E.
  - apply Qeq_alt in E.
    destruct (Z.even (Qfloor q));
      rewrite ?inject_Z_plus; change (inject_Z 1) with 1; lra.
  - apply Qlt_alt in E. lra.
  - apply Qgt_alt in E. rewrite inject_Z_plus. change (inject_Z 1) with 1. lra.
Qed.

Lemma round_half_even_int_bounds (q : Q) (lo hi : Z) :
  inject_Z lo <= q -> q <= inject_Z hi ->
  (lo <= round_half_even q <= hi)%Z.
Proof.
  intros Hlo Hhi. destruct (round_half_even_near q) as [H1 H2].
  split.
  - assert (H : inject_Z (lo - 1) < inject_Z (round_half_even q)).
    { unfold Zminus. rewrite inject_Z_plus, inject_Z_opp. change (inject_Z 1) with 1. lra. }
    rewrite <- Zlt_Qlt in H. lia.
  - assert (H : inject_Z (round_half_even q) < inject_Z (hi + 1)).
    { rewrite inject_Z_plus. change (inject_Z 1) with 1. lra. }
    rewrite <- Zlt_Qlt in H. lia.
Qed.

Lemma wrap_int8_id (z : Z) : (-128 <= z <= 127)%Z -> NetCDF.wrap_int8 z = z.
Proof.
  intros Hz. unfold NetCDF.wrap_int8.
  rewrite Z.mod_small by lia. lia.
Qed.

(** C7.  With the attributes that [init_netcdf] sets (scale 1/254, offset
    0.5, fill value -128), packing maps 0 to -127 and 1 to 127; for every
    [v] in [0, 1] the unpacked value is within half a packing step, 1/508,
    of [v], and the packed value lies in [-127, 127], so it is never the
    fill value. *)
Theorem packing_roundtrip (y_coords x_coords : list Q) :
  let d := NetCDF.create y_coords x_coords in
  let pack := NetCDF.pack (NetCDF.scale_factor d) (NetCDF.add_offset d) in
  let unpack := NetCDF.unpack (NetCDF.scale_factor d) (NetCDF.add_offset d) in
  NetCDF.scale_factor d == 1 / 254 /\
  NetCDF.add_offset d == 1 / 2 /\
  NetCDF.fill_value d = (-128)%Z /\
  pack 0 = (-127)%Z /\
  pack 1 = 127%Z /\
  forall v : Q, 0 <= v -> v <= 1 ->
    - (1 # 508) <= unpack (pack v) - v /\
    unpack (pack v) - v <= 1 # 508 /\
    (-127 <= pack v <= 127)%Z /\
    pack v <> NetCDF.fill_value d.
Proof.
  intros d pack unpack.
  split; [reflexivity|]. split; [reflexivity|]. split; [reflexivity|].
  split; [reflexivity|]. split; [reflexivity|].
  intros v Hv0 Hv1. subst pack unpack d. cbn [NetCDF.create NetCDF.scale_factor
    NetCDF.add_offset NetCDF.fill_value].
  unfold NetCDF.pack, NetCDF.unpack.
  set (q := (v - (1 # 2)) / (1 / 254)).
  assert (Hq : q == 254 * v - 127) by (unfold q; field).
  clearbody q.
  assert (Hr : (-127 <= round_half_even q <= 127)%Z).
  { apply round_half_even_int_bounds;
      [change (inject_Z (-127)) with (-127 # 1) | change (inject_Z 127) with (127 # 1)];
      lra. }
  rewrite wrap_int8_id by lia.
  destruct (round_half_even_near q) as [H1 H2].
  set (p := inject_Z (round_half_even q)) in *. clearbody p.
  assert (Hu : p * (1 / 254) + (1 # 2) - v == (p - q) / 254)
    by (rewrite Hq; field).
  repeat split; try lia.
  - rewrite Hu. apply Qle_shift_div_l; [reflexivity|]. lra.
  - rewrite Hu. apply Qle_shift_div_r; [reflexivity|]. lra.
Qed.

End PackingFacts.

(** * Properties of the driver *)

Section DriverFacts.

Import Mission.

Variable compute_frame : nat -> datetime -> result NetCDF.frame.

Lemma on_dataset_open (op : NetCDF.Dataset -> NetCDF.Dataset) s d :
  sink s = Some d -> NetCDF.isopen d = true ->
  on_dataset op s = (Ok tt, with_sink s (op d)).
Proof. intros Hs Ho. unfold on_dataset. rewrite Hs, Ho. reflexivity. Qed.

Lemma commit_step_isopen start idx t fr d :
  NetCDF.isopen (commit_step start idx t fr d) = NetCDF.isopen d.
Proof. unfold commit_step. destruct (idx mod 24 =? 0)%nat; reflexivity. Qed.

Lemma commit_step_closes start idx t fr d :
  NetCDF.closes (commit_step start idx t fr d) = NetCDF.closes d.
Proof. unfold commit_step. destruct (idx mod 24 =? 0)%nat; reflexivity. Qed.

(** One iteration of the loop whose frame is computed. *)
Lemma loop_step_gen fuel tsh start end_ idx t s d fr :
  sink s = Some d -> NetCDF.isopen d = true ->
  (t <= end_)%Z ->
  compute_frame idx t = Ok fr ->
  simulation_loop compute_frame (S fuel) tsh start end_ idx t s =
  let s' := with_sink s (commit_step start idx t fr d) in
  match timedelta_hours tsh with
  | Ok delta =>
      match datetime_add t delta with
      | Ok t' => simulation_loop compute_frame fuel tsh start end_ (S idx) t' s'
      | Raise e => (Raise e, s')
      | Running => (Running, s')
      end
  | Raise e => (Raise e, s')
  | Running => (Running, s')
  end.
Proof.
  intros Hs Ho Ht Hc. cbn [simulation_loop].
  apply Z.leb_le in Ht. rewrite Ht.
  unfold bind at 1. unfold lift at 1. rewrite Hc.
  unfold bind at 1. rewrite (on_dataset_open _ s d Hs Ho).
  unfold bind at 1.
  rewrite (on_dataset_open _ (with_sink s _) _ eq_refl) by exact Ho.
  unfold bind at 1. unfold commit_step.
  destruct (idx mod 24 =? 0)%nat.
  - rewrite (on_dataset_open _ (with_sink (with_sink s _) _) _ eq_refl) by exact Ho.
    unfold bind at 1. unfold lift at 1.
    destruct (timedelta_hours tsh) as [delta|e|]; try reflexivity;
      unfold bind at 1; unfold lift at 1;
      destruct (datetime_add t delta); reflexivity.
  - unfold ret at 1.
    unfold bind at 1. unfold lift at 1.
    destruct (timedelta_hours tsh) as [delta|e|]; try reflexivity;
      unfold bind at 1; unfold lift at 1;
      destruct (datetime_add t delta); reflexivity.
Qed.

(** One full iteration of the loop. *)
Lemma loop_step fuel tsh start end_ idx t s d fr delta :
  sink s = Some d -> NetCDF.isopen d = true ->
  (t <= end_)%Z ->
  compute_frame idx t = Ok fr ->
  timedelta_hours tsh = Ok delta ->
  simulation_loop compute_frame (S fuel) tsh start end_ idx t s =
  match datetime_add t delta with
  | Ok t' =>
      simulation_loop compute_frame fuel tsh start end_ (S idx) t'
        (with_sink s (commit_step start idx t fr d))
  | Raise e => (Raise e, with_sink s (commit_step start idx t fr d))
  | Running => (Running, with_sink s (commit_step start idx t fr d))
  end.
Proof.
  intros Hs Ho Ht Hc Hd.
  rewrite (loop_step_gen fuel tsh start end_ idx t s d fr Hs Ho Ht Hc), Hd.
  reflexivity.
Qed.

Lemma loop_exit fuel tsh start end_ idx t s :
  (end_ < t)%Z ->
  simulation_loop compute_frame (S fuel) tsh start end_ idx t s = (Ok tt, s).
Proof.
  intros Ht. cbn [simulation_loop].
  apply Z.leb_gt in Ht. rewrite Ht. reflexivity.
Qed.


Lemma datetime_add_ok (t delta : Z) :
  (0 <= t + delta <= datetime_max)%Z -> datetime_add t delta = Ok (t + delta)%Z.
Proof.
  intros [H0 H1]. unfold datetime_add.
  apply Z.leb_le in H0, H1. rewrite H0, H1. reflexivity.
Qed.

Lemma datetime_add_overflow (t delta : Z) :
  (datetime_max < t + delta)%Z -> datetime_add t delta = Raise OverflowError.
Proof.
  intros H. unfold datetime_add.
  apply Z.leb_gt in H. rewrite H, andb_false_r. reflexivity.
Qed.

(** [k] full iterations, each computing its frame and stepping the clock. *)
Lemma loop_prefix (frames : list NetCDF.frame) :
  forall (fuel : nat) tsh (start end_ : datetime) (delta : Z) (idx : nat)
         (t : datetime) s d,
    sink s = Some d -> NetCDF.isopen d = true ->
    timedelta_hours tsh = Ok delta ->
    (forall i, (i < List.length frames)%nat ->
       compute_frame (idx + i) (t + Z.of_nat i * delta)%Z
         = Ok (nth i frames []) /\
       (t + Z.of_nat i * delta <= end_)%Z /\
       (0 <= t + Z.of_nat (S i) * delta <= datetime_max)%Z) ->
    simulation_loop compute_frame (List.length frames + fuel) tsh start end_ idx t s =
    simulation_loop compute_frame fuel tsh start end_
      (idx + List.length frames) (t + Z.of_nat (List.length frames) * delta)%Z
      (with_sink s (commit_all start delta idx t frames d)).
Proof.
  induction frames as [|fr rest IH]; intros fuel tsh start end_ delta idx t s d Hs Ho Hd Hall.
  - cbn [List.length commit_all Nat.add Z.of_nat].
    replace (idx + 0)%nat with idx by lia. replace (t + 0 * delta)%Z with t by lia.
    destruct s as [sk b]. cbn in Hs. subst sk. reflexivity.
  - cbn [List.length commit_all Nat.add].
    destruct (Hall 0%nat) as (Hc0 & Ht0 & Hr0); [cbn; lia|].
    replace (idx + 0)%nat with idx in Hc0 by lia.
    replace (t + Z.of_nat 0 * delta)%Z with t in Hc0, Ht0 by lia.
    replace (t + Z.of_nat 1 * delta)%Z with (t + delta)%Z in Hr0 by lia.
    cbn [nth] in Hc0.
    rewrite (loop_step _ _ _ _ _ _ _ _ _ _ Hs Ho Ht0 Hc0 Hd).
    rewrite (datetime_add_ok _ _ Hr0).
    rewrite (IH fuel tsh start end_ delta (S idx) (t + delta)%Z
               (with_sink s (commit_step start idx t fr d))
               (commit_step start idx t fr d) eq_refl).
    + f_equal; lia.
    + rewrite commit_step_isopen. exact Ho.
    + exact Hd.
    + intros i Hi. destruct (Hall (S i)) as (Hc & Ht & Hr); [cbn; lia|].
      replace (S idx + i)%nat with (idx + S i)%nat by lia.
      replace (t + delta + Z.of_nat i * delta)%Z
        with (t + Z.of_nat (S i) * delta)%Z by lia.
      replace (t + delta + Z.of_nat (S i) * delta)%Z
        with (t + Z.of_nat (S (S i)) * delta)%Z by lia.
      cbn [nth] in Hc. auto.
Qed.


(** *** What the committed dataset holds *)

Lemma grow_le {A} (n : nat) (l : list (option A)) :
  (n <= List.length l)%nat -> NetCDF.grow n l = l.
Proof.
  intros Hn. unfold NetCDF.grow.
  replace (n - List.length l)%nat with 0%nat by lia. apply app_nil_r.
Qed.

Lemma grow_succ {A} (l : list (option A)) :
  NetCDF.grow (S (List.length l)) l = l ++ [None].
Proof.
  unfold NetCDF.grow.
  replace (S (List.length l) - List.length l)%nat with 1%nat by lia. reflexivity.
Qed.

Lemma put_at_end {A} (l : list (option A)) (v : A) :
  NetCDF.put (List.length l) v l = l ++ [Some v].
Proof.
  unfold NetCDF.put. rewrite grow_le by lia.
  rewrite firstn_all, skipn_all2 by lia. reflexivity.
Qed.

Lemma put_last {A} (l : list (option A)) (v : A) :
  NetCDF.put (List.length l) v (l ++ [None]) = l ++ [Some v].
Proof.
  unfold NetCDF.put. rewrite grow_le by (rewrite length_app; cbn; lia).
  rewrite firstn_app, firstn_all, Nat.sub_diag. cbn [firstn].
  rewrite app_nil_r, skipn_all2 by (rewrite length_app; cbn; lia). reflexivity.
Qed.

Lemma commit_step_fields start idx t fr d :
  List.length (NetCDF.times d) = idx ->
  List.length (NetCDF.illumination d) = idx ->
  NetCDF.times (commit_step start idx t fr d)
    = NetCDF.times d ++ [Some (hours_between t start)] /\
  NetCDF.illumination (commit_step start idx t fr d)
    = NetCDF.illumination d ++ [Some (packed d fr)] /\
  NetCDF.scale_factor (commit_step start idx t fr d) = NetCDF.scale_factor d /\
  NetCDF.add_offset (commit_step start idx t fr d) = NetCDF.add_offset d /\
  NetCDF.syncs (commit_step start idx t fr d)
    = (NetCDF.syncs d + if (idx mod 24 =? 0)%nat then 1 else 0)%nat.
Proof.
  intros Ht Hi. unfold commit_step, packed.
  assert (H1 : NetCDF.put idx (hours_between t start) (NetCDF.times d)
               = NetCDF.times d ++ [Some (hours_between t start)])
    by (rewrite <- Ht; apply put_at_end).
  assert (H2 : NetCDF.grow (S idx) (NetCDF.illumination d)
               = NetCDF.illumination d ++ [None])
    by (rewrite <- Hi; apply grow_succ).
  destruct (idx mod 24 =? 0)%nat;
    cbn [NetCDF.sync NetCDF.set_frame NetCDF.set_time NetCDF.times
         NetCDF.illumination NetCDF.scale_factor NetCDF.add_offset NetCDF.syncs];
    rewrite H1, H2;
    (rewrite grow_le by (rewrite length_app; cbn; lia));
    (rewrite <- Hi at 1); rewrite put_last;
    repeat split; lia.
Qed.

Lemma commit_all_fields (frames : list NetCDF.frame) :
  forall start (delta : Z) (idx : nat) (t : datetime) d,
    List.length (NetCDF.times d) = idx ->
    List.length (NetCDF.illumination d) = idx ->
    NetCDF.times (commit_all start delta idx t frames d)
      = NetCDF.times d
        ++ map (fun i => Some (hours_between (t + Z.of_nat i * delta)%Z start))
               (seq 0 (List.length frames)) /\
    NetCDF.illumination (commit_all start delta idx t frames d)
      = NetCDF.illumination d ++ map (fun fr => Some (packed d fr)) frames /\
    NetCDF.closes (commit_all start delta idx t frames d) = NetCDF.closes d /\
    NetCDF.isopen (commit_all start delta idx t frames d) = NetCDF.isopen d.
Proof.
  induction frames as [|fr rest IH]; intros start delta idx t d Ht Hi.
  - cbn. rewrite !app_nil_r. auto.
  - cbn [commit_all List.length].
    destruct (commit_step_fields start idx t fr d Ht Hi) as (H1 & H2 & H3 & H4 & _).
    destruct (IH start delta (S idx) (t + delta)%Z (commit_step start idx t fr d))
      as (I1 & I2 & I3 & I4).
    { rewrite H1, length_app. cbn. lia. }
    { rewrite H2, length_app. cbn. lia. }
    rewrite I1, I2, I3, I4, H1, H2, commit_step_closes, commit_step_isopen.
    rewrite <- !app_assoc. cbn [app seq map].
    repeat split.
    + do 2 f_equal.
      * f_equal. f_equal. lia.
      * rewrite <- seq_shift, map_map. apply map_ext. intros i.
        do 2 f_equal. lia.
    + do 2 f_equal. apply map_ext. intros fr'. unfold packed.
      rewrite H3, H4. reflexivity.
Qed.

(** *** The run of the driver *)

Section ConfiguredRun.

Variables (cfg paths mission tsh : json) (p : string) (dem : RealDEM.t).
Hypothesis Hpaths : subscript cfg "paths" = Ok paths.
Hypothesis Hout : subscript paths "output_netcdf" = Ok (JStr p).
Hypothesis Hlats : concat (RealDEM.lats dem) <> [].
Hypothesis Hmission : dict_get cfg "mission" (JObj []) = Ok mission.
Hypothesis Hstep : dict_get mission "time_step_hours" (JNum 1) = Ok tsh.

Lemma try_body_eval fuel (start end_ : datetime) s0 :
  (bind_ds false ;;;
   (paths <- lift (subscript cfg "paths") ;;
    output_netcdf <- lift (subscript paths "output_netcdf") ;;
    init_netcdf None output_netcdf dem ;;;
    bind_ds true ;;;
    mission <- lift (dict_get cfg "mission" (JObj [])) ;;
    time_step_hours <- lift (dict_get mission "time_step_hours" (JNum 1)) ;;
    simulation_loop compute_frame fuel time_step_hours start end_ 0 start)) s0
  = simulation_loop compute_frame fuel tsh start end_ 0 start (opened dem).
Proof.
  unfold bind, lift, bind_ds, modify, init_netcdf.
  rewrite Hpaths, Hout.
  destruct (concat (RealDEM.lats dem)) as [|x l] eqn:E; [contradiction|].
  cbn. rewrite Hmission, Hstep. reflexivity.
Qed.

(** The driver returns what the loop returned, seen through the handlers,
    after closing the dataset the loop left open. *)
Lemma run_driver_eval fuel (start end_ : datetime) s0 r d :
  simulation_loop compute_frame fuel tsh start end_ 0 start (opened dem)
    = (r, with_sink (opened dem) d) ->
  NetCDF.isopen d = true ->
  run_driver compute_frame None fuel cfg dem start end_ s0 =
  match r with
  | Running => (Running, with_sink (opened dem) d)
  | _ => (outcome_of r, with_sink (opened dem) (NetCDF.close d))
  end.
Proof.
  intros Hloop Ho. unfold run_driver.
  unfold bind at 1. unfold bind_ds at 1. unfold modify at 1.
  unfold try_except_finally.
  pose proof (try_body_eval fuel start end_ s0) as Hbody.
  unfold bind at 1 in Hbody. unfold bind_ds at 1 in Hbody.
  unfold modify at 1 in Hbody.
  rewrite Hbody, Hloop.
  assert (Hfin : finally_close (with_sink (opened dem) d)
                 = (Ok tt, with_sink (opened dem) (NetCDF.close d))).
  { unfold finally_close, bind, get, on_dataset. cbn. rewrite Ho. reflexivity. }
  destruct r as [[]|e|].
  - rewrite Hfin. reflexivity.
  - destruct e; cbn [handlers is_Exception outcome_of];
      unfold raise, ret; rewrite Hfin; reflexivity.
  - reflexivity.
Qed.


Lemma hours_between_self (t : datetime) : hours_between t t = 0.
Proof. unfold hours_between. rewrite Z.sub_diag. reflexivity. Qed.

Lemma hours_between_one_hour (t : datetime) :
  hours_between (t + us_per_hour)%Z t = 1.
Proof.
  unfold hours_between.
  replace (t + us_per_hour - t)%Z with us_per_hour by lia. reflexivity.
Qed.


(** C8.  With the default one-hour step and an end one hour after the
    start, the run commits exactly two frames with elapsed times 0 and 1,
    flushes once, and closes the dataset before it returns; it returns
    normally unless the clock cannot be advanced past the last
    representable [datetime]. *)
Theorem two_hourly_steps (start : datetime) (f0 f1 : NetCDF.frame) :
  tsh = JNum 1 ->
  (0 <= start)%Z -> (start + us_per_hour <= datetime_max)%Z ->
  compute_frame 0 start = Ok f0 ->
  compute_frame 1 (start + us_per_hour)%Z = Ok f1 ->
  forall fuel s0, (2 < fuel)%nat ->
  exists r d,
    run_driver compute_frame None fuel cfg dem start (start + us_per_hour)%Z s0
      = (r, {| sink := Some d; ds_bound := true |}) /\
    r = (if (start + 2 * us_per_hour <=? datetime_max)%Z
         then Ok tt else Raise OverflowError) /\
    NetCDF.times d = [Some 0; Some 1] /\
    NetCDF.illumination d
      = [Some (map (map (NetCDF.pack (1 / 254) (1 # 2))) f0);
         Some (map (map (NetCDF.pack (1 / 254) (1 # 2))) f1)] /\
    NetCDF.syncs d = 1%nat /\
    NetCDF.closes d = 1%nat /\
    NetCDF.isopen d = false.
Proof.
  intros Htsh Hs0 Hs1 Hc0 Hc1 fuel s0 Hfuel.
  destruct fuel as [|[|[|fuel]]]; try lia.
  assert (Hd : timedelta_hours tsh = Ok us_per_hour) by (rewrite Htsh; reflexivity).
  set (d0 := NetCDF.create (RealDEM.y_coords dem) (RealDEM.x_coords dem)).
  set (d1 := commit_step start 0 start f0 d0).
  set (d2 := commit_step start 1 (start + us_per_hour)%Z f1 d1).
  assert (Ho2 : NetCDF.isopen d2 = true) by reflexivity.
  assert (Hfields :
    NetCDF.times (NetCDF.close d2) = [Some 0; Some 1] /\
    NetCDF.illumination (NetCDF.close d2)
      = [Some (map (map (NetCDF.pack (1 / 254) (1 # 2))) f0);
         Some (map (map (NetCDF.pack (1 / 254) (1 # 2))) f1)] /\
    NetCDF.syncs (NetCDF.close d2) = 1%nat /\
    NetCDF.closes (NetCDF.close d2) = 1%nat /\
    NetCDF.isopen (NetCDF.close d2) = false).
  { destruct (commit_step_fields start 0 start f0 d0 eq_refl eq_refl)
      as (A1 & A2 & A3 & A4 & A5).
    fold d1 in A1, A2, A3, A4, A5.
    destruct (commit_step_fields start 1 (start + us_per_hour)%Z f1 d1)
      as (B1 & B2 & _ & _ & B5);
      [rewrite A1; reflexivity | rewrite A2; reflexivity |].
    fold d2 in B1, B2, B5.
    change (NetCDF.times (NetCDF.close d2)) with (NetCDF.times d2).
    change (NetCDF.illumination (NetCDF.close d2)) with (NetCDF.illumination d2).
    change (NetCDF.syncs (NetCDF.close d2)) with (NetCDF.syncs d2).
    change (NetCDF.closes (NetCDF.close d2)) with (S (NetCDF.closes d2)).
    rewrite B1, B2, B5, A1, A2, A5.
    unfold packed. rewrite A3, A4.
    rewrite hours_between_self, hours_between_one_hour.
    repeat split. }
  assert (Hloop : exists r,
    simulation_loop compute_frame (S (S (S fuel))) tsh start
      (start + us_per_hour)%Z 0 start (opened dem)
    = (r, with_sink (opened dem) d2) /\
    outcome_of r = (if (start + 2 * us_per_hour <=? datetime_max)%Z
                    then Ok tt else Raise OverflowError) /\
    r <> Running).
  { rewrite (loop_step (S (S fuel)) tsh start (start + us_per_hour)%Z 0 start
               (opened dem) d0 f0 us_per_hour eq_refl eq_refl
               ltac:(unfold us_per_hour; lia) Hc0 Hd).
    rewrite datetime_add_ok by (unfold us_per_hour in *; lia).
    fold d1.
    rewrite (loop_step (S fuel) tsh start (start + us_per_hour)%Z 1
               (start + us_per_hour)%Z (with_sink (opened dem) d1) d1 f1
               us_per_hour eq_refl eq_refl ltac:(lia) Hc1 Hd).
    change (with_sink (with_sink (opened dem) d1)
              (commit_step start 1 (start + us_per_hour)%Z f1 d1))
      with (with_sink (opened dem) d2).
    destruct (Z.leb_spec (start + 2 * us_per_hour) datetime_max) as [Hin|Hover].
    - rewrite datetime_add_ok by (unfold us_per_hour in *; lia).
      rewrite loop_exit by (unfold us_per_hour; lia).
      exists (Ok tt). repeat split. discriminate.
    - rewrite datetime_add_overflow by (unfold us_per_hour in *; lia).
      exists (Raise OverflowError). repeat split. discriminate. }
  destruct Hloop as (r & Hloop & Hr & Hnr).
  exists (outcome_of r), (NetCDF.close d2).
  split.
  - rewrite (run_driver_eval (S (S (S fuel))) start (start + us_per_hour)%Z s0 r d2
               Hloop Ho2).
    destruct r; [reflexivity | reflexivity | congruence].
  - split; [exact Hr | exact Hfields].
Qed.

End ConfiguredRun.

End DriverFacts.

(** * The entry point *)

Section EntryPoint.

Import Mission.

Variable compute_frame : nat -> datetime -> result NetCDF.frame.
Variable create_error : option exn.
Variable warp : string -> Q -> Q -> Q * Q.
Variable files : Files.
Variable config_file : exn + json.
Variable ephemeris_error : option exn.
Variable fromisoformat : string -> exn + datetime.

Lemma RealDEM_call_three_arguments (a1 a2 a3 : json) :
  RealDEM_call warp files [a1; a2; a3] = Raise TypeError.
Proof. reflexivity. Qed.

(** C2.  Whatever the configuration, the [__main__] block ends with an
    exception and leaves the output untouched: the loop is never entered.
    When the configuration provides both paths, the exception is the
    [TypeError] of calling [RealDEM] with three arguments. *)
Theorem main_fails_before_simulation (fuel : nat) (s0 : State) :
  (exists e,
     main compute_frame create_error warp files config_file ephemeris_error
          fromisoformat fuel s0 = (Raise e, s0)) /\
  (forall cfg paths output_meta output_horizon,
     config_file = inr cfg ->
     subscript cfg "paths" = Ok paths ->
     subscript paths "output_meta" = Ok output_meta ->
     subscript paths "output_horizon" = Ok output_horizon ->
     main compute_frame create_error warp files config_file ephemeris_error
          fromisoformat fuel s0 = (Raise TypeError, s0)).
Proof.
  assert (Hsub : forall v key, subscript v key <> Running).
  { intros v key. unfold subscript. destruct v; try discriminate.
    destruct (assoc key fields); discriminate. }
  split.
  - unfold main, bind, lift.
    destruct config_file as [e|cfg]; cbn [of_sum]; [eexists; reflexivity|].
    destruct (subscript cfg "paths") as [paths|e|] eqn:Hp;
      [|eexists; reflexivity|exfalso; exact (Hsub _ _ Hp)].
    destruct (subscript paths "output_meta") as [a1|e|] eqn:H1;
      [|eexists; reflexivity|exfalso; exact (Hsub _ _ H1)].
    destruct (subscript paths "output_horizon") as [a2|e|] eqn:H2;
      [|eexists; reflexivity|exfalso; exact (Hsub _ _ H2)].
    rewrite RealDEM_call_three_arguments. eexists. reflexivity.
  - intros cfg paths a1 a2 Hcfg Hp H1 H2.
    unfold main, bind, lift. rewrite Hcfg. cbn [of_sum].
    rewrite Hp, H1, H2, RealDEM_call_three_arguments. reflexivity.
Qed.

End EntryPoint.

(** * Concrete runs *)

Section ConcreteRuns.

Import Mission.
Local Open Scope string_scope.
Local Open Scope Q_scope.

Lemma main_fails_before_simulation_witness :
  main frames_ok None warp_id files_sn (inr cfg_demo) None
       (fun _ => inl ValueError) 10 state_demo
  = (Raise TypeError, state_demo).
Proof.
  apply (proj2 (main_fails_before_simulation frames_ok None warp_id files_sn
                  (inr cfg_demo) None (fun _ => inl ValueError) 10 state_demo)
           cfg_demo paths_demo
           (JStr "output_data/meta.json") (JStr "output_data/horizon.bin"));
    reflexivity.
Defined.

Lemma packing_roundtrip_witness :
  0 <= 1 # 3 /\ 1 # 3 <= 1 /\
  NetCDF.pack (1 / 254) (1 # 2) (1 # 3) <> (-128)%Z.
Proof.
  assert (H0 : 0 <= 1 # 3) by discriminate.
  assert (H1 : 1 # 3 <= 1) by discriminate.
  split; [exact H0 | split; [exact H1|]].
  pose proof (packing_roundtrip [] []) as H. cbv zeta in H.
  destruct H as (_ & _ & _ & _ & _ & H).
  exact (proj2 (proj2 (proj2 (H (1 # 3) H0 H1)))).
Defined.

Lemma two_hourly_steps_witness :
  exists r d,
    run_driver frames_ok None 3 cfg_demo dem_demo start_demo
               (start_demo + us_per_hour)%Z state_demo
    = (r, {| sink := Some d; ds_bound := true |}) /\
    r = Ok tt /\
    NetCDF.times d = [Some 0; Some 1] /\
    NetCDF.closes d = 1%nat.
Proof.
  assert (Hlats : concat (RealDEM.lats dem_demo) <> []) by discriminate.
  assert (H0 : (0 <= start_demo)%Z) by discriminate.
  assert (H1 : (start_demo + us_per_hour <= datetime_max)%Z) by discriminate.
  assert (Hfuel : (2 < 3)%nat) by lia.
  destruct (two_hourly_steps frames_ok cfg_demo paths_demo mission_demo (JNum 1)
              "output_data/illumination.nc" dem_demo
              eq_refl eq_refl Hlats eq_refl eq_refl
              start_demo [[1 # 2]] [[1 # 2]] eq_refl H0 H1 eq_refl eq_refl
              3%nat state_demo Hfuel)
    as (r & d & Hrun & Hr & Ht & _ & _ & Hc & _).
  exists r, d. repeat split; assumption.
Defined.


End ConcreteRuns.

(** * Further properties of the physics model *)

Section PhysicsRange.

Import IlluminationEngine.
Local Open Scope R_scope.



Lemma seg_frac_even (h r : R) : seg_frac (- h) r = seg_frac h r.
Proof. unfold seg_frac. rewrite Rabs_Ropp. reflexivity. Qed.

(** X2.  For a positive radius, exchanging the sun elevation and the horizon
    elevation (the offset [h] becomes [-h]) gives the complementary
    fraction: the two values add up to one. *)
Theorem fraction_complement (s e r : R) :
  0 < r -> fraction_px s e r + fraction_px e s r = 1.
Proof.
  intros Hr.
  destruct (Rle_lt_dec (e - s) (- r)) as [Ha|Ha].
  { rewrite (fraction_px_above s e r) by assumption.
    rewrite (fraction_px_below e s r) by lra. ring. }
  destruct (Rle_lt_dec r (e - s)) as [Hb|Hb].
  { rewrite (fraction_px_below s e r) by assumption.
    rewrite (fraction_px_above e s r) by lra. ring. }
  rewrite !fraction_px_partial by lra.
  replace (s - e) with (- (e - s)) by ring.
  destruct (Rtotal_order (e - s) 0) as [H|[H|H]].
  - rewrite (vals_neg s e r) by assumption.
    replace (- (e - s)) with (s - e) by ring.
    rewrite (vals_nonneg e s r) by lra.
    replace (s - e) with (- (e - s)) by ring. rewrite seg_frac_even. ring.
  - replace (- (e - s)) with (s - e) by ring.
    rewrite (vals_nonneg s e r), (vals_nonneg e s r) by lra.
    replace (s - e) with 0 by lra. rewrite H.
    rewrite seg_frac_chord by assumption.
    rewrite Rabs_R0, Rmin_left by lra.
    replace (0 / r) with 0 by (field; lra). rewrite chord_fn_0.
    pose proof PI_RGT_0. field. lra.
  - rewrite (vals_nonneg s e r) by lra.
    replace (- (e - s)) with (s - e) by ring.
    rewrite (vals_neg e s r) by lra.
    replace (s - e) with (- (e - s)) by ring. rewrite seg_frac_even. ring.
Qed.

Lemma fraction_complement_witness :
  0 < 1 / 4 /\ fraction_px 0 (1 / 8) (1 / 4) + fraction_px (1 / 8) 0 (1 / 4) = 1.
Proof.
  assert (Hr : 0 < 1 / 4) by lra.
  split; [exact Hr | exact (fraction_complement 0 (1 / 8) (1 / 4) Hr)].
Defined.

Lemma Rmin_ratio (h r : R) :
  0 < r -> Rmin (Rabs h) r / r = Rmin (Rabs (h / r)) 1.
Proof.
  intros Hr. assert (Hi : 0 < / r) by (apply Rinv_0_lt_compat; assumption).
  unfold Rdiv. rewrite Rabs_mult, (Rabs_pos_eq (/ r)) by lra.
  replace 1 with (r * / r) by (field; lra).
  rewrite Rmin_scale by lra. reflexivity.
Qed.

(** X3.  The fraction only depends on the ratio of the offset
    [h = e - s] to the radius: two pixels with positive radii and the same
    ratio [h / r] get the same value (so the result does not depend on the
    unit of the angles, nor on the two elevations separately). *)
Theorem fraction_depends_on_ratio (s1 e1 r1 s2 e2 r2 : R) :
  0 < r1 -> 0 < r2 ->
  (e1 - s1) / r1 = (e2 - s2) / r2 ->
  fraction_px s1 e1 r1 = fraction_px s2 e2 r2.
Proof.
  intros Hr1 Hr2 Hq.
  set (h1 := e1 - s1) in *. set (h2 := e2 - s2) in *.
  assert (Hi1 : 0 < / r1) by (apply Rinv_0_lt_compat; assumption).
  assert (Hi2 : 0 < / r2) by (apply Rinv_0_lt_compat; assumption).
  assert (E1 : h1 = h1 / r1 * r1) by (field; lra).
  assert (E2 : h2 = h2 / r2 * r2) by (field; lra).
  set (t := h1 / r1) in *. rewrite <- Hq in E2. clearbody t.
  destruct (Rle_lt_dec t (- 1)) as [Ha|Ha].
  { rewrite (fraction_px_above s1 e1 r1), (fraction_px_above s2 e2 r2);
      fold h1 h2; try assumption; try reflexivity; nra. }
  destruct (Rle_lt_dec 1 t) as [Hb|Hb].
  { rewrite (fraction_px_below s1 e1 r1), (fraction_px_below s2 e2 r2);
      fold h1 h2; try assumption; try reflexivity; nra. }
  rewrite (fraction_px_partial s1 e1 r1), (fraction_px_partial s2 e2 r2);
    fold h1 h2; try assumption; try nra.
  assert (Hs : seg_frac h1 r1 = seg_frac h2 r2).
  { rewrite !seg_frac_chord, !Rmin_ratio by assumption.
    replace (h1 / r1) with t by (rewrite E1 at 1; field; lra).
    replace (h2 / r2) with t by (rewrite E2 at 1; field; lra). reflexivity. }
  destruct (Rle_lt_dec 0 t) as [H0|H0].
  - unfold h1, h2. rewrite (vals_nonneg s1 e1 r1), (vals_nonneg s2 e2 r2);
      fold h1 h2; try assumption; try nra.
  - unfold h1, h2. rewrite (vals_neg s1 e1 r1), (vals_neg s2 e2 r2);
      fold h1 h2; try assumption; try nra.
Qed.

Lemma fraction_depends_on_ratio_witness :
  0 < 1 / 4 /\ 0 < 1 / 2 /\ (1 / 8 - 0) / (1 / 4) = (1 / 4 - 0) / (1 / 2) /\
  fraction_px 0 (1 / 8) (1 / 4) = fraction_px 0 (1 / 4) (1 / 2).
Proof.
  assert (H1 : 0 < 1 / 4) by lra.
  assert (H2 : 0 < 1 / 2) by lra.
  assert (H3 : (1 / 8 - 0) / (1 / 4) = (1 / 4 - 0) / (1 / 2)) by (field; lra).
  split; [exact H1 | split; [exact H2 | split; [exact H3 |]]].
  exact (fraction_depends_on_ratio 0 (1 / 8) (1 / 4) 0 (1 / 4) (1 / 2) H1 H2 H3).
Defined.

End PhysicsRange.

Section PhysicsStrict.

Import IlluminationEngine.
Local Open Scope R_scope.











End PhysicsStrict.

(** * Properties of the ephemeris model *)

Section KernelFacts.

Import RealEphemeris.

Variable path_exists : string -> bool.
Variable furnsh_error : string -> option exn.

Lemma for_each_kernels (dir : string) (l : list string) :
  (forall k, In k l -> furnsh_error (os_path_join dir k) = None) ->
  forall pool,
    for_each l (fun k =>
      let path := os_path_join dir k in
      if negb (path_exists path) then raise FileNotFoundError
      else furnsh furnsh_error path) pool
    = (if forallb path_exists (map (os_path_join dir) l)
       then Ok tt else Raise FileNotFoundError,
       pool ++ take_while path_exists (map (os_path_join dir) l)).
Proof.
  induction l as [|k l IH]; intros Hok pool; cbn [for_each map forallb take_while].
  - rewrite app_nil_r. reflexivity.
  - unfold bind at 1. cbv zeta.
    destruct (path_exists (os_path_join dir k)) eqn:E; cbn [negb andb].
    + unfold furnsh. rewrite (Hok k (or_introl eq_refl)).
      unfold modify. rewrite IH by (intros k' Hk'; apply Hok; right; assumption).
      rewrite <- app_assoc. reflexivity.
    + unfold raise. rewrite app_nil_r. reflexivity.
Qed.

(** X4.  [RealEphemeris.__init__] empties the kernel pool and then loads
    the five kernels in the order of the list; it stops with
    [FileNotFoundError] at the first kernel file that does not exist, and
    the kernels before that one stay loaded.  (For kernel files that
    [furnsh] accepts.) *)
Theorem kernels_loaded_up_to_first_missing (kernel_dir : string) (pool0 : list string) :
  (forall k, In k kernels -> furnsh_error (os_path_join kernel_dir k) = None) ->
  let paths := map (os_path_join kernel_dir) kernels in
  init path_exists furnsh_error kernel_dir pool0
  = (if forallb path_exists paths then Ok tt else Raise FileNotFoundError,
     take_while path_exists paths).
Proof.
  intros Hok paths. unfold init, kclear. unfold bind at 1. unfold modify at 1.
  rewrite (for_each_kernels kernel_dir kernels Hok). reflexivity.
Qed.

End KernelFacts.

Section KernelWitness.

Import RealEphemeris.
Local Open Scope string_scope.

Lemma kernels_loaded_up_to_first_missing_witness :
  init (fun p => String.eqb p "input_data/naif0012.tls") (fun _ => None)
       "input_data" ["stale.bsp"]
  = (Raise FileNotFoundError, ["input_data/naif0012.tls"]).
Proof.
  exact (kernels_loaded_up_to_first_missing
           (fun p => String.eqb p "input_data/naif0012.tls") (fun _ => None)
           "input_data" ["stale.bsp"] (fun _ _ => eq_refl)).
Defined.

End KernelWitness.

Section GeometryFacts.

Import IlluminationEngine RealEphemeris.
Local Open Scope R_scope.

Lemma degrees_radians (x : R) : radians (degrees x) = x.
Proof. unfold radians, degrees. pose proof PI_RGT_0. field. lra. Qed.

Lemma degrees_le (a b : R) : a <= b -> degrees a <= degrees b.
Proof.
  intros H. unfold degrees. pose proof PI_RGT_0 as Hpi.
  assert (0 < 180 / PI) by (apply Rdiv_lt_0_compat; lra). nra.
Qed.

Lemma degrees_lt (a b : R) : a < b -> degrees a < degrees b.
Proof.
  intros H. unfold degrees. pose proof PI_RGT_0 as Hpi.
  assert (0 < 180 / PI) by (apply Rdiv_lt_0_compat; lra). nra.
Qed.

Lemma degrees_half_pi : degrees (PI / 2) = 90.
Proof. unfold degrees. pose proof PI_RGT_0. field. lra. Qed.


Lemma norm_nonneg (v : vec3) : 0 <= norm v.
Proof. destruct v as [[x y] z]. unfold norm. apply sqrt_pos. Qed.









Lemma asin_pos (x : R) : 0 < x <= 1 -> 0 < asin x.
Proof.
  intros Hx. pose proof (asin_bound x) as [Hlo Hhi].
  destruct (Rlt_le_dec 0 (asin x)) as [H|H]; [assumption|].
  exfalso. pose proof PI_RGT_0 as Hpi.
  pose proof (sin_incr_1 (asin x) 0) as Hi.
  rewrite sin_asin, sin_0 in Hi by lra. lra.
Qed.

Lemma asin_monotone (x y : R) : -1 <= x -> x <= y -> y <= 1 -> asin x <= asin y.
Proof.
  intros Hx Hxy Hy.
  destruct (Rle_lt_dec (asin x) (asin y)) as [H|H]; [assumption|].
  exfalso.
  pose proof (asin_bound x) as [? ?]. pose proof (asin_bound y) as [? ?].
  pose proof (sin_increasing_1 (asin y) (asin x)) as Hi.
  rewrite !sin_asin in Hi by lra. lra.
Qed.

Variable spkpos : datetime -> vec3.

(** X8.  As long as the sun is not closer than its own radius, the apparent
    radius is a positive angle of at most 90 degrees whose sine is the
    ratio of the solar radius to the distance; and it does not grow when
    the distance grows. *)
Theorem apparent_radius_bounds (t : datetime) :
  SUN_RADIUS_KM <= norm (spkpos t) ->
  let r := get_apparent_sun_radius spkpos t in
  0 < r <= 90 /\
  sin (radians r) * norm (spkpos t) = SUN_RADIUS_KM /\
  forall t', norm (spkpos t) <= norm (spkpos t') ->
    get_apparent_sun_radius spkpos t' <= r.
Proof.
  intros Hd r. unfold r, get_apparent_sun_radius, get_sun_vector_body_fixed.
  set (d := norm (spkpos t)) in *.
  assert (HR : 0 < SUN_RADIUS_KM) by (unfold SUN_RADIUS_KM; lra).
  assert (Hd0 : 0 < d) by lra.
  assert (Hq : 0 < SUN_RADIUS_KM / d <= 1).
  { split; [apply Rdiv_lt_0_compat; assumption|].
    apply (Rmult_le_reg_r d); [assumption|].
    unfold Rdiv. rewrite Rmult_assoc, Rinv_l; lra. }
  split; [|split].
  - split.
    + replace 0 with (degrees 0) by (unfold degrees; ring).
      apply degrees_lt, asin_pos. assumption.
    + rewrite <- degrees_half_pi. apply degrees_le, asin_bound.
  - rewrite degrees_radians, sin_asin by lra. field. lra.
  - intros t' Hle. set (d' := norm (spkpos t')) in *.
    apply degrees_le, asin_monotone.
    + assert (0 < SUN_RADIUS_KM / d') by (apply Rdiv_lt_0_compat; lra). lra.
    + unfold Rdiv. apply Rmult_le_compat_l; [lra|].
      apply Rinv_le_contravar; assumption.
    + lra.
Qed.

End GeometryFacts.

Section GeometryWitness.

Import IlluminationEngine RealEphemeris.
Local Open Scope R_scope.

Lemma apparent_radius_bounds_witness :
  SUN_RADIUS_KM <= norm (0, 0, 149600000) /\
  0 < get_apparent_sun_radius (fun _ => (0, 0, 149600000)) 0%Z <= 90.
Proof.
  assert (Hd : SUN_RADIUS_KM <= norm (0, 0, 149600000)).
  { unfold norm, SUN_RADIUS_KM.
    replace (0 ^ 2 + 0 ^ 2 + 149600000 ^ 2) with (149600000 * 149600000) by ring.
    rewrite sqrt_square; lra. }
  split; [exact Hd|].
  exact (proj1 (apparent_radius_bounds (fun _ => (0, 0, 149600000)) 0%Z Hd)).
Defined.

End GeometryWitness.

(** * Properties of the frame generator *)

Section GeneratorFacts.

Import SimulationGenerator.
Local Open Scope Z_scope.

Context {Frame : Type}.
Variable compute_frame : datetime -> result Frame.

Lemma one_hour : timedelta_hours (JNum 1) = Ok us_per_hour.
Proof. reflexivity. Qed.

Lemma generate_stop fuel (end_ t : datetime) :
  end_ < t -> generate compute_frame (S fuel) end_ t = ([], Ok tt).
Proof.
  intros H. cbn [generate].
  destruct (t <=? end_) eqn:E; [apply Z.leb_le in E; lia | reflexivity].
Qed.

Lemma generate_step fuel (end_ t : datetime) (fr : Frame) :
  t <= end_ -> 0 <= t + us_per_hour <= datetime_max ->
  compute_frame t = Ok fr ->
  generate compute_frame (S fuel) end_ t
  = ((t, fr) :: fst (generate compute_frame fuel end_ (t + us_per_hour)),
     snd (generate compute_frame fuel end_ (t + us_per_hour))).
Proof.
  intros Hle Hb Hc. cbn [generate].
  destruct (t <=? end_) eqn:E; [|apply Z.leb_gt in E; lia].
  rewrite Hc, one_hour. cbn [rbind].
  rewrite datetime_add_ok by assumption. reflexivity.
Qed.

Lemma generate_all (f : datetime -> Frame) (end_ : datetime) (m : nat) :
  forall (t : datetime) (fuel : nat),
    0 <= t -> t <= end_ -> end_ + us_per_hour <= datetime_max ->
    (forall t', t <= t' <= end_ -> compute_frame t' = Ok (f t')) ->
    Z.of_nat m = (end_ - t) / us_per_hour ->
    (S m < fuel)%nat ->
    generate compute_frame fuel end_ t
    = (map (fun i => (t + Z.of_nat i * us_per_hour,
                      f (t + Z.of_nat i * us_per_hour)))
           (seq 0 (S m)),
       Ok tt).
Proof.
  assert (Hh : 0 < us_per_hour) by (unfold us_per_hour; lia).
  induction m as [|m IH]; intros t fuel H0 Hle Hmax Hf Hm Hfuel.
  - destruct fuel as [|[|fuel]]; try lia.
    rewrite (generate_step _ end_ t (f t)); try lia; [|apply Hf; lia].
    assert (end_ - t < us_per_hour).
    { pose proof (Z.mul_div_le (end_ - t) us_per_hour Hh).
      pose proof (Z.mod_pos_bound (end_ - t) us_per_hour Hh).
      pose proof (Z.div_mod (end_ - t) us_per_hour). nia. }
    rewrite generate_stop by lia. cbn.
    rewrite Z.add_0_r. reflexivity.
  - destruct fuel as [|fuel]; try lia.
    rewrite (generate_step _ end_ t (f t)); try lia; [|apply Hf; lia].
    assert (Hq : us_per_hour <= end_ - t).
    { destruct (Z_lt_le_dec (end_ - t) us_per_hour) as [Hlt|]; [|assumption].
      rewrite Z.div_small in Hm by lia. lia. }
    rewrite (IH (t + us_per_hour) fuel); try lia.
    + cbn [fst snd]. f_equal.
      change (seq 0 (S (S m))) with (0%nat :: seq 1 (S m)).
      rewrite <- seq_shift, map_cons, map_map. f_equal.
      * cbn. rewrite Z.add_0_r. reflexivity.
      * apply map_ext. intros i.
        replace (t + Z.of_nat (S i) * us_per_hour)
          with (t + us_per_hour + Z.of_nat i * us_per_hour) by lia.
        reflexivity.
    + intros t' Ht'. apply Hf. lia.
    + replace (end_ - (t + us_per_hour)) with (end_ - t + (-1) * us_per_hour) by lia.
      rewrite Z.div_add by lia. lia.
Qed.

(** X9.  Consumed to its end, the generator yields one frame per hour from
    the start date on, as long as the time does not exceed the end date:
    [floor((end - start) / 1 h) + 1] frames at the times [start + i h], and
    then it finishes normally.  With an end date before the start date it
    yields nothing.  (Every frame can be computed, and the end date is more
    than an hour before the last representable date.) *)
Theorem generator_yields_hourly (f : datetime -> Frame) (start end_ : datetime) :
  0 <= start -> end_ + us_per_hour <= datetime_max ->
  (forall t, start <= t <= end_ -> compute_frame t = Ok (f t)) ->
  (end_ < start ->
   forall fuel, (0 < fuel)%nat ->
     run_simulation_generator compute_frame fuel start end_ = ([], Ok tt)) /\
  (start <= end_ ->
   let n := Z.to_nat ((end_ - start) / us_per_hour) in
   forall fuel, (S n < fuel)%nat ->
     run_simulation_generator compute_frame fuel start end_
     = (map (fun i => (start + Z.of_nat i * us_per_hour,
                       f (start + Z.of_nat i * us_per_hour)))
            (seq 0 (S n)),
        Ok tt)).
Proof.
  intros H0 Hmax Hf. split.
  - intros Hlt fuel Hfuel. destruct fuel; [lia|].
    apply generate_stop. assumption.
  - intros Hle n fuel Hfuel. unfold run_simulation_generator.
    apply generate_all; try assumption.
    unfold n. rewrite Z2Nat.id; [reflexivity|].
    apply Z.div_pos; unfold us_per_hour; lia.
Qed.

(** X10.  The generator stops at the first frame that cannot be computed:
    the frames of the hours before it have been yielded, and the exception
    is what the consumer gets next. *)
Theorem generator_stops_at_failure (f : datetime -> Frame) (start end_ : datetime)
    (k : nat) (e : exn) :
  0 <= start -> end_ + us_per_hour <= datetime_max ->
  start + Z.of_nat k * us_per_hour <= end_ ->
  (forall i, (i < k)%nat ->
     compute_frame (start + Z.of_nat i * us_per_hour)
     = Ok (f (start + Z.of_nat i * us_per_hour))) ->
  compute_frame (start + Z.of_nat k * us_per_hour) = Raise e ->
  forall fuel, (k < fuel)%nat ->
    run_simulation_generator compute_frame fuel start end_
    = (map (fun i => (start + Z.of_nat i * us_per_hour,
                      f (start + Z.of_nat i * us_per_hour)))
           (seq 0 k),
       Raise e).
Proof.
  assert (Hh : 0 < us_per_hour) by (unfold us_per_hour; lia).
  unfold run_simulation_generator. revert start.
  induction k as [|k IH]; intros start H0 Hmax Hle Hok Hfail fuel Hfuel.
  - destruct fuel; [lia|]. cbn [generate seq map].
    rewrite Z.mul_0_l, Z.add_0_r in *.
    destruct (start <=? end_) eqn:E; [|apply Z.leb_gt in E; lia].
    rewrite Hfail. reflexivity.
  - destruct fuel; [lia|].
    pose proof (Hok 0%nat ltac:(lia)) as H0k. cbn in H0k. rewrite Z.add_0_r in H0k.
    rewrite (generate_step _ end_ start (f start)); try lia; [|exact H0k].
    rewrite (IH (start + us_per_hour)); try lia.
    + cbn [fst snd]. f_equal.
      change (seq 0 (S k)) with (0%nat :: seq 1 k).
      rewrite <- seq_shift, map_cons, map_map. f_equal.
      * cbn. rewrite Z.add_0_r. reflexivity.
      * apply map_ext. intros i.
        replace (start + Z.of_nat (S i) * us_per_hour)
          with (start + us_per_hour + Z.of_nat i * us_per_hour) by lia.
        reflexivity.
    + intros i Hi.
      replace (start + us_per_hour + Z.of_nat i * us_per_hour)
        with (start + Z.of_nat (S i) * us_per_hour) by lia.
      apply Hok. lia.
    + replace (start + us_per_hour + Z.of_nat k * us_per_hour)
        with (start + Z.of_nat (S k) * us_per_hour) by lia.
      exact Hfail.
Qed.

End GeneratorFacts.

Section GeneratorWitness.

Import SimulationGenerator.
Local Open Scope Z_scope.

Lemma generator_yields_hourly_witness :
  run_simulation_generator (fun t => Ok t) 4 start_demo (start_demo + 5400000000)
  = ([(start_demo, start_demo);
      (start_demo + 1 * us_per_hour, start_demo + 1 * us_per_hour)], Ok tt).
Proof.
  assert (H0 : 0 <= start_demo) by (unfold start_demo; lia).
  assert (Hmax : start_demo + 5400000000 + us_per_hour <= datetime_max)
    by (vm_compute; discriminate).
  assert (Hle : start_demo <= start_demo + 5400000000) by lia.
  pose proof (proj2 (generator_yields_hourly (fun t => Ok t) (fun t => t)
                       start_demo (start_demo + 5400000000) H0 Hmax
                       (fun _ _ => eq_refl)) Hle 4%nat) as H.
  cbv zeta in H.
  replace ((start_demo + 5400000000 - start_demo) / us_per_hour) with 1 in H
    by (vm_compute; reflexivity).
  specialize (H ltac:(cbn; lia)).
  rewrite H. cbn [seq map Z.of_nat]. rewrite Z.mul_0_l, Z.add_0_r. reflexivity.
Defined.

Lemma generator_stops_at_failure_witness :
  run_simulation_generator
    (fun t => if (t =? start_demo) then Ok t else Raise ValueError)
    4 start_demo (start_demo + 5 * us_per_hour)
  = ([(start_demo, start_demo)], Raise ValueError).
Proof.
  assert (H0 : 0 <= start_demo) by (unfold start_demo; lia).
  assert (Hmax : start_demo + 5 * us_per_hour + us_per_hour <= datetime_max)
    by (vm_compute; discriminate).
  assert (Hle : start_demo + Z.of_nat 1 * us_per_hour
                <= start_demo + 5 * us_per_hour) by (vm_compute; discriminate).
  assert (Hok : forall i, (i < 1)%nat ->
            (fun t => if (t =? start_demo) then Ok t else Raise ValueError)
              (start_demo + Z.of_nat i * us_per_hour)
            = Ok ((fun t => t) (start_demo + Z.of_nat i * us_per_hour))).
  { intros i Hi. assert (i = 0%nat) by lia. subst i. reflexivity. }
  assert (Hfail :
            (fun t => if (t =? start_demo) then Ok t else Raise ValueError)
              (start_demo + Z.of_nat 1 * us_per_hour) = Raise ValueError)
    by reflexivity.
  pose proof (generator_stops_at_failure
                (fun t => if (t =? start_demo) then Ok t else Raise ValueError)
                (fun t => t) start_demo (start_demo + 5 * us_per_hour)
                1 ValueError H0 Hmax Hle Hok Hfail 4%nat ltac:(lia)) as H.
  rewrite H. cbn [seq map Z.of_nat]. rewrite Z.mul_0_l, Z.add_0_r. reflexivity.
Defined.

End GeneratorWitness.

(** * Further properties of the driver *)

Section DriverRuns.

Import Mission.

Variable compute_frame : nat -> datetime -> result NetCDF.frame.

Lemma nth_map_seq {A} (g : nat -> A) (k i : nat) (d : A) :
  (i < k)%nat -> nth i (map g (seq 0 k)) d = g i.
Proof.
  intros Hi. rewrite (nth_indep _ d (g 0%nat)) by (rewrite length_map, length_seq; exact Hi).
  rewrite map_nth, seq_nth by exact Hi. reflexivity.
Qed.

(** Number of indices below [n] that are multiples of 24. *)
Lemma sync_count_step (n : nat) :
  ((S n + 23) / 24 = (n + 23) / 24 + (if (n mod 24 =? 0) then 1 else 0))%nat.
Proof.
  pose proof (Nat.div_mod_eq n 24) as Hn.
  pose proof (Nat.mod_upper_bound n 24 ltac:(lia)) as Hr.
  set (q := (n / 24)%nat) in *. set (r := (n mod 24)%nat) in *.
  rewrite <- (Nat.div_unique (S n + 23) 24 (q + 1) r) by lia.
  destruct (r =? 0)%nat eqn:E.
  - apply Nat.eqb_eq in E.
    rewrite <- (Nat.div_unique (n + 23) 24 q 23) by lia. reflexivity.
  - apply Nat.eqb_neq in E.
    rewrite <- (Nat.div_unique (n + 23) 24 (q + 1) (r - 1)) by lia. lia.
Qed.

Lemma commit_step_syncs start idx t fr d :
  NetCDF.syncs (commit_step start idx t fr d)
  = (NetCDF.syncs d + if (idx mod 24 =? 0)%nat then 1 else 0)%nat.
Proof.
  unfold commit_step. destruct (idx mod 24 =? 0)%nat; cbn; lia.
Qed.

Lemma commit_all_syncs (frames : list NetCDF.frame) :
  forall start (delta : Z) (idx : nat) (t : datetime) d,
    (NetCDF.syncs (commit_all start delta idx t frames d) + (idx + 23) / 24
     = NetCDF.syncs d + (idx + List.length frames + 23) / 24)%nat.
Proof.
  induction frames as [|fr frames IH]; intros start delta idx t d; cbn [commit_all List.length].
  - rewrite Nat.add_0_r. reflexivity.
  - pose proof (IH start delta (S idx) (t + delta)%Z (commit_step start idx t fr d)) as H.
    rewrite commit_step_syncs in H. pose proof (sync_count_step idx) as Hs.
    replace (idx + S (List.length frames))%nat with (S idx + List.length frames)%nat by lia.
    lia.
Qed.

Lemma datetime_add_underflow (t delta : Z) :
  (t + delta < 0)%Z -> datetime_add t delta = Raise OverflowError.
Proof.
  intros H. unfold datetime_add.
  destruct (0 <=? t + delta)%Z eqn:E; [apply Z.leb_le in E; lia | reflexivity].
Qed.

Lemma timedelta_hours_raises (v : json) (e : exn) :
  timedelta_hours v = Raise e -> e = TypeError \/ e = OverflowError.
Proof.
  unfold timedelta_hours. intros H.
  destruct v; try (inversion H; auto; fail);
    match type of H with
    | (if ?c then _ else _) = _ => destruct c; inversion H; auto
    end.
Qed.

Section Configured.

Variables (cfg paths mission tsh : json) (p : string) (dem : RealDEM.t).
Hypothesis Hpaths : subscript cfg "paths" = Ok paths.
Hypothesis Hout : subscript paths "output_netcdf" = Ok (JStr p).
Hypothesis Hlats : concat (RealDEM.lats dem) <> [].
Hypothesis Hmission : dict_get cfg "mission" (JObj []) = Ok mission.
Hypothesis Hstep : dict_get mission "time_step_hours" (JNum 1) = Ok tsh.

Let created : NetCDF.Dataset :=
  NetCDF.create (RealDEM.y_coords dem) (RealDEM.x_coords dem).

(** X11.  A run with a positive step over [start .. end] in which every
    frame can be computed writes [k = floor((end - start) / step) + 1]
    frames, at the elapsed hours [i * step]; it flushes the file once every
    24 frames, [ceil(k / 24)] times in all, closes it once and returns
    normally. *)
Theorem complete_run_counts (f : nat -> NetCDF.frame) (delta : Z)
    (start end_ : datetime) :
  timedelta_hours tsh = Ok delta -> (0 < delta)%Z ->
  (0 <= start)%Z -> (start <= end_)%Z -> (end_ + delta <= datetime_max)%Z ->
  let k := S (Z.to_nat ((end_ - start) / delta)) in
  (forall i, (i < k)%nat ->
     compute_frame i (start + Z.of_nat i * delta)%Z = Ok (f i)) ->
  forall fuel s0, (k < fuel)%nat ->
  exists d,
    run_driver compute_frame None fuel cfg dem start end_ s0
    = (Ok tt, {| sink := Some d; ds_bound := true |}) /\
    NetCDF.times d
    = map (fun i => Some (hours_between (start + Z.of_nat i * delta)%Z start))
          (seq 0 k) /\
    NetCDF.illumination d
    = map (fun i => Some (map (map (NetCDF.pack (1 / 254) (1 # 2))) (f i)))
          (seq 0 k) /\
    NetCDF.syncs d = ((k + 23) / 24)%nat /\
    NetCDF.closes d = 1%nat /\
    NetCDF.isopen d = false.
Proof.
  intros Hd Hpos H0 Hle Hmax k Hf fuel s0 Hfuel.
  set (q := ((end_ - start) / delta)%Z) in *.
  assert (Hq0 : (0 <= q)%Z) by (apply Z.div_pos; lia).
  assert (Hqlo : (q * delta <= end_ - start)%Z).
  { unfold q. rewrite Z.mul_comm. apply Z.mul_div_le. lia. }
  assert (Hqhi : (end_ - start < (q + 1) * delta)%Z).
  { pose proof (Z.mod_pos_bound (end_ - start) delta Hpos).
    pose proof (Z.div_mod (end_ - start) delta ltac:(lia)). fold q in H1. nia. }
  assert (Hk : Z.of_nat k = (q + 1)%Z) by (unfold k; lia).
  set (frames := map f (seq 0 k)).
  assert (Hlen : List.length frames = k)
    by (unfold frames; rewrite length_map, length_seq; reflexivity).
  assert (Hall : forall i, (i < List.length frames)%nat ->
            compute_frame (0 + i) (start + Z.of_nat i * delta)%Z
              = Ok (nth i frames []) /\
            (start + Z.of_nat i * delta <= end_)%Z /\
            (0 <= start + Z.of_nat (S i) * delta <= datetime_max)%Z).
  { intros i Hi. rewrite Hlen in Hi. split; [|split].
    - unfold frames. rewrite nth_map_seq by exact Hi. apply Hf. exact Hi.
    - nia.
    - nia. }
  destruct fuel as [|fuel]; [lia|].
  assert (Hpre :
    simulation_loop compute_frame (S fuel) tsh start end_ 0 start (opened dem)
    = (Ok tt, with_sink (opened dem) (commit_all start delta 0 start frames created))).
  { replace (S fuel) with (List.length frames + S (fuel - k))%nat by lia.
    rewrite (loop_prefix compute_frame frames (S (fuel - k)) tsh start end_ delta
               0%nat start (opened dem) created eq_refl eq_refl Hd Hall).
    apply loop_exit. rewrite Hlen, Hk. lia. }
  destruct (commit_all_fields frames start delta 0%nat start created
              eq_refl eq_refl) as (F1 & F2 & F3 & F4).
  pose proof (commit_all_syncs frames start delta 0%nat start created) as F5.
  rewrite (run_driver_eval compute_frame cfg paths mission tsh p dem
             Hpaths Hout Hlats Hmission Hstep (S fuel) start end_ s0 _ _ Hpre F4).
  eexists. split; [reflexivity|].
  cbn [NetCDF.close NetCDF.times NetCDF.illumination NetCDF.syncs NetCDF.closes
       NetCDF.isopen].
  split; [rewrite F1, Hlen; reflexivity|].
  split; [rewrite F2; unfold frames; rewrite map_map; reflexivity|].
  split; [rewrite Hlen in F5; cbn in F5; cbn; lia|].
  split; [rewrite F3; reflexivity | reflexivity].
Qed.

(** X12.  A step of zero (for instance ["time_step_hours": 0], or a step
    that rounds to zero microseconds) never advances the time: when the
    start is not after the end and frames can be computed, the loop does
    not come to an end.  However many iterations are run, the run is still
    going, each iteration has written one more frame at elapsed time 0, and
    the file has not been closed. *)
Theorem zero_step_never_finishes (f : nat -> NetCDF.frame) (start end_ : datetime) :
  timedelta_hours tsh = Ok 0%Z ->
  (0 <= start <= datetime_max)%Z -> (start <= end_)%Z ->
  (forall i, compute_frame i start = Ok (f i)) ->
  forall fuel s0,
  exists d,
    run_driver compute_frame None fuel cfg dem start end_ s0
    = (Running, {| sink := Some d; ds_bound := true |}) /\
    NetCDF.times d = repeat (Some 0) fuel /\
    List.length (NetCDF.illumination d) = fuel /\
    NetCDF.closes d = 0%nat /\
    NetCDF.isopen d = true.
Proof.
  intros Hd Hs Hle Hf fuel s0.
  set (frames := map f (seq 0 fuel)).
  assert (Hlen : List.length frames = fuel)
    by (unfold frames; rewrite length_map, length_seq; reflexivity).
  assert (Hall : forall i, (i < List.length frames)%nat ->
            compute_frame (0 + i) (start + Z.of_nat i * 0)%Z
              = Ok (nth i frames []) /\
            (start + Z.of_nat i * 0 <= end_)%Z /\
            (0 <= start + Z.of_nat (S i) * 0 <= datetime_max)%Z).
  { intros i Hi. rewrite Hlen in Hi. rewrite !Z.mul_0_r, Z.add_0_r.
    split; [|lia]. unfold frames. rewrite nth_map_seq by exact Hi. apply Hf. }
  assert (Hpre :
    simulation_loop compute_frame fuel tsh start end_ 0 start (opened dem)
    = (Running, with_sink (opened dem) (commit_all start 0 0 start frames created))).
  { replace fuel with (List.length frames + 0)%nat at 1 by lia.
    rewrite (loop_prefix compute_frame frames 0%nat tsh start end_ 0%Z
               0%nat start (opened dem) created eq_refl eq_refl Hd Hall).
    reflexivity. }
  destruct (commit_all_fields frames start 0%Z 0%nat start created
              eq_refl eq_refl) as (F1 & F2 & F3 & F4).
  rewrite (run_driver_eval compute_frame cfg paths mission tsh p dem
             Hpaths Hout Hlats Hmission Hstep fuel start end_ s0 _ _ Hpre F4).
  eexists. split; [reflexivity|].
  split; [|split; [|split]].
  - rewrite F1, Hlen. cbn [NetCDF.times created NetCDF.create app].
    clear. induction fuel as [|n IH]; [reflexivity|].
    rewrite seq_S, map_app, IH. cbn [map].
    rewrite Z.mul_0_r, Z.add_0_r, hours_between_self.
    rewrite <- repeat_cons. reflexivity.
  - rewrite F2. cbn [NetCDF.illumination created NetCDF.create app].
    rewrite length_map. exact Hlen.
  - rewrite F3. reflexivity.
  - exact F4.
Qed.

(** X13.  A step that [timedelta] rejects (a string or [null] is a
    [TypeError], a huge number an [OverflowError]) is only noticed at the
    end of the first iteration: frame 0 has been computed, written at
    elapsed time 0 and flushed; then the exception is raised again by the
    handler, after the file has been closed. *)
Theorem bad_step_stops_after_first_frame (f0 : NetCDF.frame) (e : exn)
    (start end_ : datetime) :
  timedelta_hours tsh = Raise e ->
  (start <= end_)%Z ->
  compute_frame 0 start = Ok f0 ->
  forall fuel s0, (0 < fuel)%nat ->
  exists d,
    run_driver compute_frame None fuel cfg dem start end_ s0
    = (Raise e, {| sink := Some d; ds_bound := true |}) /\
    (e = TypeError \/ e = OverflowError) /\
    NetCDF.times d = [Some 0] /\
    NetCDF.illumination d = [Some (map (map (NetCDF.pack (1 / 254) (1 # 2))) f0)] /\
    NetCDF.syncs d = 1%nat /\
    NetCDF.closes d = 1%nat /\
    NetCDF.isopen d = false.
Proof.
  intros Hd Hle Hf fuel s0 Hfuel.
  destruct fuel as [|fuel]; [lia|].
  assert (Hpre :
    simulation_loop compute_frame (S fuel) tsh start end_ 0 start (opened dem)
    = (Raise e, with_sink (opened dem) (commit_step start 0 start f0 created))).
  { rewrite (loop_step_gen compute_frame fuel tsh start end_ 0%nat start
               (opened dem) created f0 eq_refl eq_refl Hle Hf).
    cbv zeta. rewrite Hd. reflexivity. }
  rewrite (run_driver_eval compute_frame cfg paths mission tsh p dem
             Hpaths Hout Hlats Hmission Hstep (S fuel) start end_ s0 _ _ Hpre
             (commit_step_isopen _ _ _ _ _)).
  destruct (timedelta_hours_raises tsh e Hd) as [-> | ->];
    (eexists; split; [reflexivity|]; split; [auto|];
     cbn [NetCDF.close NetCDF.times NetCDF.illumination NetCDF.syncs
          NetCDF.closes NetCDF.isopen];
     destruct (commit_step_fields start 0%nat start f0 created eq_refl eq_refl)
       as (G1 & G2 & _ & _ & G5);
     rewrite G1, G2, G5, hours_between_self; repeat split; reflexivity).
Qed.

(** X14.  With a negative step the time moves away from the end date, so
    the loop condition never fails: the run goes backwards in time, writing
    [floor(start / |step|) + 1] frames, until the time would fall before
    the first representable date; it then fails with [OverflowError],
    after closing the file. *)
Theorem negative_step_runs_to_the_first_date (f : nat -> NetCDF.frame) (delta : Z)
    (start end_ : datetime) :
  timedelta_hours tsh = Ok delta -> (delta < 0)%Z ->
  (0 <= start)%Z -> (start <= end_)%Z -> (start <= datetime_max)%Z ->
  let k := S (Z.to_nat (start / - delta)) in
  (forall i, (i < k)%nat ->
     compute_frame i (start + Z.of_nat i * delta)%Z = Ok (f i)) ->
  forall fuel s0, (k <= fuel)%nat ->
  exists d,
    run_driver compute_frame None fuel cfg dem start end_ s0
    = (Raise OverflowError, {| sink := Some d; ds_bound := true |}) /\
    NetCDF.times d
    = map (fun i => Some (hours_between (start + Z.of_nat i * delta)%Z start))
          (seq 0 k) /\
    NetCDF.closes d = 1%nat /\
    NetCDF.isopen d = false.
Proof.
  intros Hd Hneg H0 Hle Hmax k Hf fuel s0 Hfuel.
  set (q := (start / - delta)%Z) in *.
  assert (Hpos : (0 < - delta)%Z) by lia.
  assert (Hq0 : (0 <= q)%Z) by (apply Z.div_pos; lia).
  assert (Hqlo : (q * - delta <= start)%Z).
  { unfold q. rewrite Z.mul_comm. apply Z.mul_div_le. lia. }
  assert (Hqhi : (start < (q + 1) * - delta)%Z).
  { pose proof (Z.mod_pos_bound start (- delta) Hpos).
    pose proof (Z.div_mod start (- delta) ltac:(lia)). fold q in H1. nia. }
  set (frames := map f (seq 0 (Z.to_nat q))).
  assert (Hlen : List.length frames = Z.to_nat q)
    by (unfold frames; rewrite length_map, length_seq; reflexivity).
  assert (Hall : forall i, (i < List.length frames)%nat ->
            compute_frame (0 + i) (start + Z.of_nat i * delta)%Z
              = Ok (nth i frames []) /\
            (start + Z.of_nat i * delta <= end_)%Z /\
            (0 <= start + Z.of_nat (S i) * delta <= datetime_max)%Z).
  { intros i Hi. rewrite Hlen in Hi. split; [|split].
    - unfold frames. rewrite nth_map_seq by exact Hi. apply Hf. unfold k. lia.
    - nia.
    - nia. }
  set (d1 := commit_all start delta 0 start frames created).
  destruct (commit_all_fields frames start delta 0%nat start created
              eq_refl eq_refl) as (F1 & F2 & F3 & F4).
  fold d1 in F1, F2, F3, F4.
  set (tq := (start + Z.of_nat (Z.to_nat q) * delta)%Z).
  assert (Hpre :
    simulation_loop compute_frame fuel tsh start end_ 0 start (opened dem)
    = (Raise OverflowError,
       with_sink (opened dem) (commit_step start (Z.to_nat q) tq (f (Z.to_nat q)) d1))).
  { replace fuel with (List.length frames + S (fuel - k))%nat by (unfold k in *; lia).
    rewrite (loop_prefix compute_frame frames (S (fuel - k)) tsh start end_ delta
               0%nat start (opened dem) created eq_refl eq_refl Hd Hall).
    rewrite Hlen. fold d1. fold tq. cbn [Nat.add].
    rewrite (loop_step_gen compute_frame (fuel - k) tsh start end_ (Z.to_nat q) tq
               (with_sink (opened dem) d1) d1 (f (Z.to_nat q)) eq_refl F4).
    - cbv zeta. rewrite Hd, datetime_add_underflow by (unfold tq; nia). reflexivity.
    - unfold tq. nia.
    - apply Hf. unfold k. lia. }
  rewrite (run_driver_eval compute_frame cfg paths mission tsh p dem
             Hpaths Hout Hlats Hmission Hstep fuel start end_ s0 _ _ Hpre
             ltac:(rewrite commit_step_isopen; exact F4)).
  eexists. split; [reflexivity|].
  cbn [NetCDF.close NetCDF.times NetCDF.closes NetCDF.isopen].
  assert (Hl1 : List.length (NetCDF.times d1) = Z.to_nat q).
  { rewrite F1. cbn. rewrite length_map, length_seq. exact Hlen. }
  assert (Hl2 : List.length (NetCDF.illumination d1) = Z.to_nat q).
  { rewrite F2. cbn. rewrite length_map. exact Hlen. }
  destruct (commit_step_fields start (Z.to_nat q) tq (f (Z.to_nat q)) d1 Hl1 Hl2)
    as (G1 & _).
  split; [|split].
  - rewrite G1, F1. unfold k. rewrite seq_S, map_app, Hlen. reflexivity.
  - rewrite commit_step_closes, F3. reflexivity.
  - reflexivity.
Qed.

End Configured.

(** X15.  When the file has been created but [init_netcdf] fails before it
    returns (the latitude grid of the terrain is empty, so its minimum does
    not exist), the local name [ds] of the driver is still [None]: the
    [finally] clause does not call [close], and the [ValueError] leaves the
    driver with the file open. *)
Theorem failed_init_leaves_file_open (cfg paths : json) (p : string)
    (dem : RealDEM.t) (start end_ : datetime) (fuel : nat) (s0 : State) :
  subscript cfg "paths" = Ok paths ->
  subscript paths "output_netcdf" = Ok (JStr p) ->
  concat (RealDEM.lats dem) = [] ->
  exists d,
    run_driver compute_frame None fuel cfg dem start end_ s0
    = (Raise ValueError, {| sink := Some d; ds_bound := false |}) /\
    NetCDF.isopen d = true /\ NetCDF.closes d = 0%nat.
Proof.
  intros Hpaths Hout Hl. unfold run_driver.
  unfold try_except_finally, bind, lift, bind_ds, modify, init_netcdf, raise.
  cbn. rewrite Hpaths, Hout, Hl. cbn.
  eexists. split; [reflexivity|]. split; reflexivity.
Qed.

(** X16.  When the configuration has no output path (the key ["paths"] or
    ["output_netcdf"] is missing, or [cfg] is not a dictionary), or when
    the file cannot be created, the driver raises that exception again
    without having created, written or closed any file. *)
Theorem no_output_file_without_path (cfg : json) (create_error : option exn)
    (dem : RealDEM.t) (start end_ : datetime) (fuel : nat) (s0 : State) :
  let untouched := {| sink := sink s0; ds_bound := false |} in
  (forall e, subscript cfg "paths" = Raise e ->
     (e = KeyError \/ e = TypeError) /\
     run_driver compute_frame create_error fuel cfg dem start end_ s0
     = (Raise e, untouched)) /\
  (forall paths e,
     subscript cfg "paths" = Ok paths ->
     subscript paths "output_netcdf" = Raise e ->
     (e = KeyError \/ e = TypeError) /\
     run_driver compute_frame create_error fuel cfg dem start end_ s0
     = (Raise e, untouched)) /\
  (forall paths p e,
     subscript cfg "paths" = Ok paths ->
     subscript paths "output_netcdf" = Ok (JStr p) ->
     create_error = Some e -> is_Exception e = true ->
     run_driver compute_frame create_error fuel cfg dem start end_ s0
     = (Raise e, untouched)).
Proof.
  intros untouched.
  assert (Hsub : forall v key e, subscript v key = Raise e ->
                   e = KeyError \/ e = TypeError).
  { intros v key e H. unfold subscript in H.
    destruct v; try (inversion H; auto; fail).
    destruct (assoc key fields); inversion H; auto. }
  split; [|split].
  - intros e He. split; [eapply Hsub; exact He|].
    unfold run_driver, try_except_finally, bind, lift, bind_ds, modify.
    cbn. rewrite He.
    destruct (Hsub _ _ _ He) as [-> | ->]; reflexivity.
  - intros paths e Hp He. split; [eapply Hsub; exact He|].
    unfold run_driver, try_except_finally, bind, lift, bind_ds, modify.
    cbn. rewrite Hp, He.
    destruct (Hsub _ _ _ He) as [-> | ->]; reflexivity.
  - intros paths p e Hp Ho Hc He.
    unfold run_driver, try_except_finally, bind, lift, bind_ds, modify, init_netcdf.
    cbn. rewrite Hp, Ho, Hc.
    destruct e; try discriminate He; reflexivity.
Qed.

End DriverRuns.

Section DriverRunWitnesses.

Import Mission.
Local Open Scope string_scope.
Local Open Scope Q_scope.

Lemma complete_run_counts_witness :
  exists d,
    run_driver frames_ok None 3 cfg_demo dem_demo start_demo
               (start_demo + us_per_hour)%Z state_demo
    = (Ok tt, {| sink := Some d; ds_bound := true |}) /\
    NetCDF.times d = [Some 0; Some 1] /\
    NetCDF.syncs d = 1%nat.
Proof.
  assert (Hlats : concat (RealDEM.lats dem_demo) <> []) by discriminate.
  assert (Hpos : (0 < us_per_hour)%Z) by reflexivity.
  assert (H0 : (0 <= start_demo)%Z) by discriminate.
  assert (Hle : (start_demo <= start_demo + us_per_hour)%Z) by discriminate.
  assert (Hmax : (start_demo + us_per_hour + us_per_hour <= datetime_max)%Z)
    by discriminate.
  assert (Hfuel : (2 < 3)%nat) by lia.
  destruct (complete_run_counts frames_ok cfg_demo paths_demo mission_demo (JNum 1)
              "output_data/illumination.nc" dem_demo
              eq_refl eq_refl Hlats eq_refl eq_refl
              (fun _ => [[1 # 2]]) us_per_hour start_demo
              (start_demo + us_per_hour)%Z eq_refl Hpos H0 Hle Hmax
              (fun _ _ => eq_refl) 3%nat state_demo Hfuel)
    as (d & Hrun & Ht & _ & Hs & _).
  exists d. split; [exact Hrun|]. split; [exact Ht | exact Hs].
Defined.

Lemma zero_step_never_finishes_witness :
  exists d,
    run_driver frames_ok None 3 (cfg_with_step (JNum 0)) dem_demo start_demo
               (start_demo + us_per_hour)%Z state_demo
    = (Running, {| sink := Some d; ds_bound := true |}) /\
    NetCDF.times d = [Some 0; Some 0; Some 0].
Proof.
  assert (Hlats : concat (RealDEM.lats dem_demo) <> []) by discriminate.
  assert (Hs : (0 <= start_demo <= datetime_max)%Z) by (split; discriminate).
  assert (Hle : (start_demo <= start_demo + us_per_hour)%Z) by discriminate.
  destruct (zero_step_never_finishes frames_ok (cfg_with_step (JNum 0)) paths_demo
              (mission_with_step (JNum 0)) (JNum 0)
              "output_data/illumination.nc" dem_demo
              eq_refl eq_refl Hlats eq_refl eq_refl
              (fun _ => [[1 # 2]]) start_demo (start_demo + us_per_hour)%Z
              eq_refl Hs Hle (fun _ => eq_refl) 3%nat state_demo)
    as (d & Hrun & Ht & _).
  exists d. split; [exact Hrun | exact Ht].
Defined.

Lemma bad_step_stops_after_first_frame_witness :
  exists d,
    run_driver frames_ok None 3 (cfg_with_step (JStr "1")) dem_demo start_demo
               (start_demo + us_per_hour)%Z state_demo
    = (Raise TypeError, {| sink := Some d; ds_bound := true |}) /\
    NetCDF.times d = [Some 0] /\
    NetCDF.closes d = 1%nat.
Proof.
  assert (Hlats : concat (RealDEM.lats dem_demo) <> []) by discriminate.
  assert (Hle : (start_demo <= start_demo + us_per_hour)%Z) by discriminate.
  assert (Hfuel : (0 < 3)%nat) by lia.
  destruct (bad_step_stops_after_first_frame frames_ok (cfg_with_step (JStr "1"))
              paths_demo (mission_with_step (JStr "1")) (JStr "1")
              "output_data/illumination.nc" dem_demo
              eq_refl eq_refl Hlats eq_refl eq_refl
              [[1 # 2]] TypeError start_demo (start_demo + us_per_hour)%Z
              eq_refl Hle eq_refl 3%nat state_demo Hfuel)
    as (d & Hrun & _ & Ht & _ & _ & Hc & _).
  exists d. split; [exact Hrun|]. split; [exact Ht | exact Hc].
Defined.

Lemma negative_step_runs_to_the_first_date_witness :
  exists d,
    run_driver frames_ok None 2 (cfg_with_step (JNum (-1))) dem_demo early_date
               (early_date + us_per_hour)%Z state_demo
    = (Raise OverflowError, {| sink := Some d; ds_bound := true |}) /\
    NetCDF.times d = [Some 0; Some (-1)] /\
    NetCDF.closes d = 1%nat.
Proof.
  assert (Hlats : concat (RealDEM.lats dem_demo) <> []) by discriminate.
  assert (Hneg : (- us_per_hour < 0)%Z) by reflexivity.
  assert (H0 : (0 <= early_date)%Z) by discriminate.
  assert (Hle : (early_date <= early_date + us_per_hour)%Z) by discriminate.
  assert (Hmax : (early_date <= datetime_max)%Z) by discriminate.
  assert (Hfuel : (2 <= 2)%nat) by lia.
  destruct (negative_step_runs_to_the_first_date frames_ok
              (cfg_with_step (JNum (-1))) paths_demo
              (mission_with_step (JNum (-1))) (JNum (-1))
              "output_data/illumination.nc" dem_demo
              eq_refl eq_refl Hlats eq_refl eq_refl
              (fun _ => [[1 # 2]]) (- us_per_hour)%Z early_date
              (early_date + us_per_hour)%Z eq_refl Hneg H0 Hle Hmax
              (fun _ _ => eq_refl) 2%nat state_demo Hfuel)
    as (d & Hrun & Ht & Hc & _).
  exists d. split; [exact Hrun|]. split; [exact Ht | exact Hc].
Defined.

Lemma failed_init_leaves_file_open_witness :
  exists d,
    run_driver frames_ok None 3 cfg_demo dem_no_pixels start_demo
               (start_demo + us_per_hour)%Z state_demo
    = (Raise ValueError, {| sink := Some d; ds_bound := false |}) /\
    NetCDF.isopen d = true /\ NetCDF.closes d = 0%nat.
Proof.
  exact (failed_init_leaves_file_open frames_ok cfg_demo paths_demo
           "output_data/illumination.nc" dem_no_pixels start_demo
           (start_demo + us_per_hour)%Z 3 state_demo eq_refl eq_refl eq_refl).
Defined.

Lemma no_output_file_without_path_witness :
  run_driver frames_ok None 3 (JObj []) dem_demo start_demo
             (start_demo + us_per_hour)%Z state_demo
  = (Raise KeyError, {| sink := None; ds_bound := false |}).
Proof.
  exact (proj2 (proj1 (no_output_file_without_path frames_ok (JObj []) None
                         dem_demo start_demo (start_demo + us_per_hour)%Z 3
                         state_demo) KeyError eq_refl)).
Defined.

End DriverRunWitnesses.

(** * Further properties of the terrain model *)

Section GridFacts.

Lemma combine_app_same {A B} (a a' : list A) (b b' : list B) :
  List.length a = List.length b ->
  combine (a ++ a') (b ++ b') = combine a b ++ combine a' b'.
Proof.
  revert b. induction a as [|x a IH]; intros [|y b] H; try discriminate; cbn.
  - reflexivity.
  - f_equal. apply IH. cbn in H. lia.
Qed.

Lemma combine_const {A B} (l : list A) (y : B) :
  combine l (map (fun _ => y) l) = map (fun x => (x, y)) l.
Proof. induction l as [|x l IH]; cbn; [reflexivity | f_equal; exact IH]. Qed.

(** Flattening the two mesh grids and pairing them visits the points row
    by row. *)
Lemma meshgrid_flat {A} (xc yc : list A) :
  combine (concat (map (fun _ => xc) yc))
          (concat (map (fun y => map (fun _ => y) xc) yc))
  = concat (map (fun y => map (fun x => (x, y)) xc) yc).
Proof.
  induction yc as [|y yc IH]; cbn [map concat]; [reflexivity|].
  rewrite combine_app_same by (rewrite length_map; reflexivity).
  rewrite combine_const, IH. reflexivity.
Qed.

Lemma map_const_repeat {A B} (c : B) (l : list A) :
  map (fun _ => c) l = repeat c (List.length l).
Proof. induction l as [|x l IH]; cbn; [reflexivity | f_equal; exact IH]. Qed.

Lemma rows_of_concat {A} (rows : list (list A)) (w : nat) :
  Forall (fun row => List.length row = w) rows ->
  rows_of (concat rows) (List.length rows) w = rows.
Proof.
  unfold rows_of. induction rows as [|r rows IH]; intros Hall; [reflexivity|].
  inversion Hall as [|? ? Hr Hrest]; subst.
  cbn [List.length concat]. rewrite <- cons_seq, map_cons. f_equal.
  - cbn [Nat.mul skipn]. rewrite firstn_app, Nat.sub_diag, firstn_O, app_nil_r.
    apply firstn_all.
  - rewrite <- seq_shift, map_map. rewrite <- (IH Hrest) at 2.
    apply map_ext. intros i. f_equal.
    replace (S i * List.length r)%nat with (List.length r + i * List.length r)%nat by lia.
    rewrite skipn_app, skipn_all2 by lia. cbn [app]. f_equal. lia.
Qed.

Lemma rows_of_nil {A} (h : nat) :
  rows_of (@nil A) h 0 = repeat [] h.
Proof.
  unfold rows_of. rewrite <- (length_seq h 0) at 2.
  rewrite <- map_const_repeat. apply map_ext. intros i. reflexivity.
Qed.

(** Reshaping the values computed at the flattened mesh gives the grid of
    the values, row [i] for [yc[i]] and column [j] for [xc[j]]. *)
Lemma reshape_meshgrid {A B} (g : A * A -> B) (xc yc : list A) (h w : Z)
    (grid : list (list B)) :
  List.length yc = Z.to_nat h -> List.length xc = Z.to_nat w ->
  np_reshape2 (map g (concat (map (fun y => map (fun x => (x, y)) xc) yc))) h w
    = Ok grid ->
  grid = map (fun y => map (fun x => g (x, y)) xc) yc.
Proof.
  intros Hh Hw.
  set (rows := map (fun y => map (fun x => g (x, y)) xc) yc).
  assert (Hflat : map g (concat (map (fun y => map (fun x => (x, y)) xc) yc))
                  = concat rows).
  { unfold rows. rewrite concat_map, map_map.
    f_equal. apply map_ext. intros y. rewrite map_map. reflexivity. }
  assert (Hlen : List.length rows = Z.to_nat h)
    by (unfold rows; rewrite length_map; exact Hh).
  assert (Hall : Forall (fun row => List.length row = Z.to_nat w) rows).
  { unfold rows. apply Forall_forall. intros row Hin.
    apply in_map_iff in Hin as (y & <- & _). rewrite length_map. exact Hw. }
  rewrite Hflat. unfold np_reshape2.
  destruct ((0 <=? h) && (0 <=? w))%Z eqn:E1.
  { destruct (h * w =? _)%Z; [|discriminate].
    intros H. inversion H. rewrite <- Hlen. apply rows_of_concat. exact Hall. }
  destruct ((h =? -1) && (0 <? w))%Z eqn:E2.
  { apply andb_true_iff in E2 as [E2 _]. apply Z.eqb_eq in E2. subst h.
    destruct rows; [|discriminate Hlen]. cbn [concat List.length Z.of_nat].
    rewrite Zmod_0_l, Zdiv_0_l.
    cbn. intros H. inversion H. reflexivity. }
  destruct ((w =? -1) && (0 <? h))%Z eqn:E3; [|discriminate].
  apply andb_true_iff in E3 as [E3 E4]. apply Z.eqb_eq in E3. subst w.
  apply Z.ltb_lt in E4.
  assert (Hc : concat rows = []).
  { clear - Hall. induction rows as [|r rows IH]; [reflexivity|].
    inversion Hall as [|? ? Hr Hrest]; subst. cbn.
    destruct r; [|discriminate Hr]. apply IH. exact Hrest. }
  rewrite Hc. cbn [List.length Z.of_nat].
  rewrite Zmod_0_l, Zdiv_0_l. cbn [Z.eqb Z.to_nat].
  intros H. inversion H. rewrite rows_of_nil.
  rewrite <- Hlen. clear - Hall.
  induction rows as [|r rows IH]; [reflexivity|].
  inversion Hall as [|? ? Hr Hrest]; subst. cbn.
  destruct r; [|discriminate Hr]. f_equal. apply IH. exact Hrest.
Qed.

End GridFacts.

Section InitFacts.

Import RealDEM.

Variable warp : string -> Q -> Q -> Q * Q.
Variable files : Files.

Lemma roi_of_inv (m : Meta) (T : Affine.t) (roi : Roi) :
  roi_of m T = Ok roi ->
  ~ Affine.a T == 0 /\
  buffer_px roi = py_int (buffer_m_of m / Affine.a T) /\
  x_start roi = buffer_px roi /\
  x_end roi = (meta_width m - buffer_px roi)%Z /\
  y_start roi = buffer_px roi /\
  y_end roi = (meta_height m - buffer_px roi)%Z.
Proof.
  intros H.
  assert (Ha : ~ Affine.a T == 0).
  { unfold roi_of in H. destruct (Qeq_bool (Affine.a T) 0) eqn:E; [discriminate|].
    apply Qeq_bool_neq. exact E. }
  rewrite (roi_of_ok m T Ha) in H. injection H as <-. cbn. repeat split; auto.
Qed.

Lemma coords_x_length T roi :
  List.length (coords_x T roi) = Z.to_nat (x_end roi - x_start roi).
Proof. unfold coords_x. rewrite !length_map. apply arange_length. Qed.


(** What [load] returns, field by field. *)
Lemma load_inv (p q : string) (raw : t) :
  load warp files p q = Ok raw ->
  exists m T roi flat cube,
    meta_file files p = Some m /\
    Affine.from_gdal (meta_transform m) = Ok T /\
    roi_of m T = Ok roi /\
    mask_file files q = Some flat /\
    memmap flat (meta_height m) (meta_width m) = Ok cube /\
    meta raw = m /\ transform raw = T /\
    roi_width raw = (x_end roi - x_start roi)%Z /\
    roi_height raw = (y_end roi - y_start roi)%Z /\
    width raw = roi_width raw /\ height raw = roi_height raw /\
    horizon_roi raw = select_roi roi cube /\
    x_coords raw = coords_x T roi /\
    y_coords raw = coords_y T roi /\
    X_grid raw = map (fun _ => x_coords raw) (y_coords raw) /\
    Y_grid raw = map (fun y => map (fun _ => y) (x_coords raw)) (y_coords raw) /\
    lats raw = map (fun y => map (fun x => snd (warp (meta_crs m) x y))
                                 (x_coords raw)) (y_coords raw) /\
    lons raw = map (fun y => map (fun x => fst (warp (meta_crs m) x y))
                                 (x_coords raw)) (y_coords raw).
Proof.
  unfold load. intros Hload.
  destruct (meta_file files p) as [m|] eqn:Em; [|discriminate].
  destruct (Affine.from_gdal (meta_transform m)) as [T| |] eqn:ET; try discriminate.
  cbn [rbind] in Hload.
  destruct (roi_of m T) as [roi| |] eqn:Eroi; try discriminate. cbn [rbind] in Hload.
  destruct (mask_file files q) as [flat|] eqn:Eflat; [|discriminate].
  destruct (memmap flat (meta_height m) (meta_width m)) as [cube| |] eqn:Ecube;
    try discriminate.
  cbn [rbind] in Hload.
  rewrite !map_map, meshgrid_flat in Hload.
  match type of Hload with
  | rbind ?r _ = _ => destruct r as [la| |] eqn:Ela; try discriminate
  end.
  cbn [rbind] in Hload.
  match type of Hload with
  | rbind ?r _ = _ => destruct r as [lo| |] eqn:Elo; try discriminate
  end.
  cbn [rbind] in Hload.
  apply (reshape_meshgrid (fun p => snd (warp (meta_crs m) (fst p) (snd p)))) in Ela;
    [|apply coords_y_length | apply coords_x_length].
  apply (reshape_meshgrid (fun p => fst (warp (meta_crs m) (fst p) (snd p)))) in Elo;
    [|apply coords_y_length | apply coords_x_length].
  injection Hload as <-. subst la lo. cbn.
  exists m, T, roi, flat, cube. repeat split; try assumption; reflexivity.
Qed.

(** The orientation step only touches the y vector, the horizon cube and the
    latitude and longitude grids. *)
Lemma enforce_decreasing_y_keeps (raw dem : t) :
  enforce_decreasing_y raw = Ok dem ->
  meta dem = meta raw /\ transform dem = transform raw /\
  roi_width dem = roi_width raw /\ roi_height dem = roi_height raw /\
  width dem = width raw /\ height dem = height raw /\
  x_coords dem = x_coords raw /\
  X_grid dem = X_grid raw /\ Y_grid dem = Y_grid raw /\
  y_coords raw <> [].
Proof.
  unfold enforce_decreasing_y. intros Hen.
  destruct (first_last (y_coords raw)) as [[y0 y1]| |] eqn:E; try discriminate.
  apply first_last_nth in E as (Hne & _).
  cbn [rbind fst snd] in Hen.
  destruct (Qlt_le_dec y0 y1); inversion Hen; subst; cbn; repeat split; auto.
Qed.

Lemma init_inv (p q : string) (dem : t) :
  init warp files p q = Ok dem ->
  exists raw, load warp files p q = Ok raw /\ enforce_decreasing_y raw = Ok dem.
Proof.
  unfold init. intros H.
  destruct (load warp files p q) as [raw| |]; try discriminate.
  exists raw. split; [reflexivity | exact H].
Qed.

Lemma profile_length (flat : list Z) (k : nat) :
  (k + 360 <= List.length flat)%nat ->
  List.length (firstn 360 (skipn k flat)) = 360%nat.
Proof. intros H. rewrite length_firstn, length_skipn. lia. Qed.

Lemma memmap_shape (flat : list Z) (H W : Z) (cube : list (list (list Z))) :
  memmap flat H W = Ok cube ->
  (0 <= H)%Z /\ (0 <= W)%Z /\
  List.length cube = Z.to_nat H /\
  Forall (fun plane =>
            List.length plane = Z.to_nat W /\
            Forall (fun profile => List.length profile = 360%nat) plane) cube.
Proof.
  unfold memmap. intros Hm.
  destruct ((H <? 0) || (W <? 0))%Z eqn:E1; [discriminate|].
  apply orb_false_iff in E1 as [E1 E2]. apply Z.ltb_ge in E1, E2.
  destruct (Z.of_nat (List.length flat) <? H * W * 360)%Z eqn:E3; [discriminate|].
  apply Z.ltb_ge in E3. injection Hm as <-.
  split; [exact E1|]. split; [exact E2|].
  split; [rewrite length_map, length_seq; reflexivity|].
  apply Forall_forall. intros plane Hin.
  apply in_map_iff in Hin as (i & <- & Hi). apply in_seq in Hi.
  split; [rewrite length_map, length_seq; reflexivity|].
  apply Forall_forall. intros profile Hin.
  apply in_map_iff in Hin as (j & <- & Hj). apply in_seq in Hj.
  apply profile_length. nia.
Qed.

Lemma Forall_py_slice {A} (P : A -> Prop) (lo hi : Z) (l : list A) :
  Forall P l -> Forall P (py_slice lo hi l).
Proof.
  intros H. apply Forall_forall. intros x Hin.
  apply In_py_slice in Hin. revert x Hin. apply Forall_forall. exact H.
Qed.

(** The shapes of the arrays of a terrain returned by [load], for a
    non-negative buffer that leaves at least no negative width. *)
Lemma load_shapes (p q : string) (raw : t) :
  load warp files p q = Ok raw ->
  (0 <= py_int (buffer_m_of (meta raw) / Affine.a (transform raw)))%Z ->
  let b := py_int (buffer_m_of (meta raw) / Affine.a (transform raw)) in
  height raw = (meta_height (meta raw) - 2 * b)%Z /\
  width raw = (meta_width (meta raw) - 2 * b)%Z /\
  List.length (y_coords raw) = Z.to_nat (height raw) /\
  List.length (x_coords raw) = Z.to_nat (width raw) /\
  has_shape (horizon_roi raw) (Z.to_nat (height raw)) (Z.to_nat (width raw)) /\
  Forall (Forall (fun profile => List.length profile = 360%nat)) (horizon_roi raw) /\
  has_shape (lats raw) (Z.to_nat (height raw)) (Z.to_nat (width raw)) /\
  has_shape (lons raw) (Z.to_nat (height raw)) (Z.to_nat (width raw)).
Proof.
  intros Hload Hb b.
  destruct (load_inv p q raw Hload)
    as (m & T & roi & flat & cube & Hm & HT & Hroi & Hflat & Hcube & Em & ET & Ew & Eh
        & Ew' & Eh' & Ehor & Ex & Ey & EX & EY & Ela & Elo).
  fold b in Hb.
  assert (Hbeq : b = py_int (buffer_m_of m / Affine.a T))
    by (unfold b; rewrite Em, ET; reflexivity).
  clearbody b. rewrite Em.
  destruct (roi_of_inv m T roi Hroi) as (Ha & Hbp & Hxs & Hxe & Hys & Hye).
  rewrite <- Hbeq in Hbp.
  destruct (memmap_shape flat _ _ cube Hcube) as (HH & HW & Hlen & Hplanes).
  assert (Hh : height raw = (meta_height m - 2 * b)%Z) by lia.
  assert (Hw : width raw = (meta_width m - 2 * b)%Z) by lia.
  assert (Hly : List.length (y_coords raw) = Z.to_nat (height raw)).
  { rewrite Ey, coords_y_length. f_equal. lia. }
  assert (Hlx : List.length (x_coords raw) = Z.to_nat (width raw)).
  { rewrite Ex, coords_x_length. f_equal. lia. }
  destruct (select_roi_interior roi cube (meta_height m) (meta_width m))
    as (S1 & S2 & _); try assumption; try lia.
  { intros row Hin. rewrite Forall_forall in Hplanes.
    destruct (Hplanes row Hin) as [Hl _]. lia. }
  split; [exact Hh|]. split; [exact Hw|]. split; [exact Hly|]. split; [exact Hlx|].
  split; [|split; [|split]].
  - rewrite Ehor. split.
    + rewrite S1. f_equal. lia.
    + apply Forall_forall. intros row Hin. rewrite (S2 row Hin). f_equal. lia.
  - rewrite Ehor. unfold select_roi. apply Forall_forall. intros row Hin.
    apply in_map_iff in Hin as (plane & <- & Hin).
    apply Forall_py_slice. apply In_py_slice in Hin.
    rewrite Forall_forall in Hplanes. apply (Hplanes plane Hin).
  - rewrite Ela. split; [rewrite length_map; exact Hly|].
    apply Forall_forall. intros row Hin.
    apply in_map_iff in Hin as (y & <- & _). rewrite length_map. exact Hlx.
  - rewrite Elo. split; [rewrite length_map; exact Hly|].
    apply Forall_forall. intros row Hin.
    apply in_map_iff in Hin as (y & <- & _). rewrite length_map. exact Hlx.
Qed.

Lemma has_shape_rev {A} (g : list (list A)) (h w : nat) :
  has_shape g h w -> has_shape (rev g) h w.
Proof.
  intros [Hl Hr]. split; [rewrite length_rev; exact Hl | apply Forall_rev; exact Hr].
Qed.

Lemma init_shapes_gen (p q : string) (dem : t) :
  init warp files p q = Ok dem ->
  (0 <= py_int (buffer_m_of (meta dem) / Affine.a (transform dem)))%Z ->
  let b := py_int (buffer_m_of (meta dem) / Affine.a (transform dem)) in
  (1 <= height dem)%Z /\
  height dem = (meta_height (meta dem) - 2 * b)%Z /\
  width dem = (meta_width (meta dem) - 2 * b)%Z /\
  List.length (y_coords dem) = Z.to_nat (height dem) /\
  List.length (x_coords dem) = Z.to_nat (width dem) /\
  has_shape (horizon_roi dem) (Z.to_nat (height dem)) (Z.to_nat (width dem)) /\
  Forall (Forall (fun profile => List.length profile = 360%nat)) (horizon_roi dem) /\
  has_shape (lats dem) (Z.to_nat (height dem)) (Z.to_nat (width dem)) /\
  has_shape (lons dem) (Z.to_nat (height dem)) (Z.to_nat (width dem)).
Proof.
  intros Hinit Hb b.
  destruct (init_inv p q dem Hinit) as (raw & Hload & Hen).
  destruct (enforce_decreasing_y_keeps raw dem Hen)
    as (Km & KT & Krw & Krh & Kw & Kh & Kx & KX & KY & Kne).
  rewrite Km, KT in Hb. unfold b. rewrite Km, KT, Kh, Kw, Kx.
  destruct (load_shapes p q raw Hload Hb) as (L1 & L2 & L3 & L4 & L5 & L6 & L7 & L8).
  assert (H1 : (1 <= height raw)%Z).
  { destruct (y_coords raw) as [|y l] eqn:E; [contradiction|]. cbn in L3. lia. }
  split; [exact H1|]. split; [exact L1|]. split; [exact L2|].
  destruct (enforce_decreasing_y_cases raw dem Hen) as (y0 & y1 & _ & Hc).
  destruct Hc as [(_ & _ & Ey & Eh & Ela & Elo) | (_ & ->)].
  - rewrite Ey, Eh, Ela, Elo, length_rev.
    split; [exact L3|]. split; [exact L4|].
    split; [apply has_shape_rev; exact L5|].
    split; [apply Forall_rev; exact L6|].
    split; apply has_shape_rev; assumption.
  - repeat split; try assumption; try apply L5; try apply L7; try apply L8.
Qed.


(** X18.  The latitude and longitude grids of a constructed terrain stay
    aligned with its coordinate vectors, also after the rows have been
    flipped: entry [(i, j)] is the reprojection of the point
    [(x_coords[j], y_coords[i])]. *)
Theorem latlon_grids_follow_coords (p q : string) (dem : t) :
  init warp files p q = Ok dem ->
  lats dem = map (fun y => map (fun x => snd (warp (meta_crs (meta dem)) x y))
                               (x_coords dem)) (y_coords dem) /\
  lons dem = map (fun y => map (fun x => fst (warp (meta_crs (meta dem)) x y))
                               (x_coords dem)) (y_coords dem).
Proof.
  intros Hinit.
  destruct (init_inv p q dem Hinit) as (raw & Hload & Hen).
  destruct (enforce_decreasing_y_keeps raw dem Hen)
    as (Km & _ & _ & _ & _ & _ & Kx & _ & _ & _).
  destruct (load_inv p q raw Hload)
    as (m & T & roi & flat & cube & _ & _ & _ & _ & _ & Em & _ & _ & _
        & _ & _ & _ & _ & _ & _ & _ & Ela & Elo).
  rewrite Km, Kx, Em.
  destruct (enforce_decreasing_y_cases raw dem Hen) as (y0 & y1 & _ & Hc).
  destruct Hc as [(_ & _ & Ey & _ & Fla & Flo) | (_ & ->)].
  - rewrite Ey, Fla, Flo, Ela, Elo, !map_rev. split; reflexivity.
  - split; assumption.
Qed.

Lemma decreasing_ends (v : list Q) (y0 y1 : Q) :
  strictly_decreasing v -> first_last v = Ok (y0, y1) -> ~ y0 < y1.
Proof.
  intros Hd Hfl. apply first_last_nth in Hfl as (Hne & H0 & H1).
  destruct (List.length v - 1)%nat as [|k] eqn:E.
  - rewrite H0 in H1. injection H1 as <-. apply Qlt_irrefl.
  - assert (Hlt : y1 < y0) by (apply (Hd 0%nat (S k) y0 y1); [lia | assumption..]).
    intros H. apply (Qlt_irrefl y0). eapply Qlt_trans; eassumption.
Qed.

Lemma increasing_ends (v : list Q) (y0 y1 : Q) :
  strictly_increasing v -> first_last v = Ok (y0, y1) -> y1 <= y0 ->
  rev v = v.
Proof.
  intros Hi Hfl Hle. apply first_last_nth in Hfl as (Hne & H0 & H1).
  destruct v as [|a [|b v]]; [contradiction | reflexivity |].
  exfalso. cbn [List.length] in H1.
  assert (Hlt : y0 < y1).
  { apply (Hi 0%nat (S (List.length v)) y0 y1); [lia | exact H0 |].
    replace (S (List.length v)) with (S (S (List.length v)) - 1)%nat by lia.
    exact H1. }
  apply (Qlt_irrefl y0). eapply Qlt_le_trans; eassumption.
Qed.

(** X19.  The orientation step flips the y vector, the horizon cube and the
    latitude and longitude grids, but not the mesh grid [Y_grid]: for a
    raster stored South-to-North (positive row spacing) the rows of
    [Y_grid] are those of the reversed y vector, so [Y_grid[i]] no longer
    belongs to [y_coords[i]]; for a raster stored North-to-South it
    does.  [X_grid] repeats the x vector in both cases. *)
Theorem Y_grid_keeps_file_order (p q : string) (dem : t) :
  init warp files p q = Ok dem ->
  (Affine.e (transform dem) < 0 ->
   Y_grid dem = map (fun y => map (fun _ => y) (x_coords dem)) (y_coords dem)) /\
  (0 < Affine.e (transform dem) ->
   Y_grid dem = map (fun y => map (fun _ => y) (x_coords dem))
                    (rev (y_coords dem))) /\
  X_grid dem = map (fun _ => x_coords dem) (y_coords dem).
Proof.
  intros Hinit.
  destruct (init_inv p q dem Hinit) as (raw & Hload & Hen).
  destruct (enforce_decreasing_y_keeps raw dem Hen)
    as (_ & KT & _ & _ & _ & _ & Kx & KX & KY & _).
  destruct (load_inv p q raw Hload)
    as (m & T & roi & flat & cube & _ & _ & _ & _ & _ & _ & ET & _ & _
        & _ & _ & _ & _ & Ey & EX & EY & _ & _).
  rewrite KT, Kx, KX, KY, ET, EX, EY.
  destruct (enforce_decreasing_y_cases raw dem Hen) as (y0 & y1 & Hfl & Hc).
  destruct Hc as [(Hlt & _ & Fy & _) | (Hle & ->)].
  - rewrite Fy, rev_involutive. split; [|split].
    + intros He. exfalso.
      apply (decreasing_ends (y_coords raw) y0 y1); try assumption.
      rewrite Ey. apply coords_y_decreasing. exact He.
    + reflexivity.
    + rewrite !map_const_repeat, length_rev. reflexivity.
  - split; [reflexivity|]. split; [|reflexivity].
    intros He. rewrite (increasing_ends (y_coords raw) y0 y1); try assumption;
      [reflexivity|].
    rewrite Ey. apply coords_y_increasing. exact He.
Qed.

Lemma memmap_settled (flat : list Z) (H W : Z) : memmap flat H W <> Running.
Proof.
  unfold memmap. destruct ((H <? 0) || (W <? 0))%Z; [discriminate|].
  destruct (_ <? _)%Z; discriminate.
Qed.

Lemma np_reshape2_settled {A} (flat : list A) (h w : Z) :
  np_reshape2 flat h w <> Running.
Proof.
  unfold np_reshape2.
  repeat match goal with
         | |- context [if ?c then _ else _] => destruct c
         end; discriminate.
Qed.

(** X20.  When the buffer leaves no row of the raster (the height is at
    most twice the buffer in pixels), [RealDEM] cannot be constructed: the
    constructor raises. *)
Theorem init_rejects_empty_roi (p q : string) (m : Meta) (T : Affine.t) :
  meta_file files p = Some m ->
  Affine.from_gdal (meta_transform m) = Ok T ->
  ~ Affine.a T == 0 ->
  (meta_height m <= 2 * py_int (buffer_m_of m / Affine.a T))%Z ->
  exists e, init warp files p q = Raise e.
Proof.
  intros Hm HT Ha Hh.
  destruct (init warp files p q) as [dem|e|] eqn:E.
  - exfalso.
    destruct (init_inv p q dem E) as (raw & Hload & Hen).
    destruct (enforce_decreasing_y_keeps raw dem Hen)
      as (_ & _ & _ & _ & _ & _ & _ & _ & _ & Hne).
    destruct (load_inv p q raw Hload)
      as (m' & T' & roi & flat & cube & Hm' & HT' & Hroi & _ & _ & _ & _ & _ & _
          & _ & _ & _ & _ & Ey & _).
    rewrite Hm in Hm'. injection Hm' as <-.
    rewrite HT in HT'. injection HT' as <-.
    destruct (roi_of_inv m T roi Hroi) as (_ & Hbp & _ & _ & Hys & Hye).
    apply Hne. apply length_zero_iff_nil.
    rewrite Ey, coords_y_length. lia.
  - exists e. reflexivity.
  - exfalso. unfold init, load in E. rewrite Hm, HT in E. cbn [rbind] in E.
    rewrite (roi_of_ok m T Ha) in E. cbn [rbind] in E.
    destruct (mask_file files q) as [flat|]; [|discriminate].
    destruct (memmap flat (meta_height m) (meta_width m)) as [cube| |] eqn:Ec;
      try discriminate; [|exact (memmap_settled _ _ _ Ec)].
    cbn [rbind] in E.
    match type of E with
    | rbind (rbind ?r _) _ = _ =>
        destruct r as [la| |] eqn:Ela; try discriminate;
          [|exact (np_reshape2_settled _ _ _ Ela)]
    end.
    cbn [rbind] in E.
    match type of E with
    | rbind (rbind ?r _) _ = _ =>
        destruct r as [lo| |] eqn:Elo; try discriminate;
          [|exact (np_reshape2_settled _ _ _ Elo)]
    end.
    cbn [rbind] in E. unfold enforce_decreasing_y, first_last, py_index in E.
    cbn [y_coords] in E.
    repeat match type of E with
           | context [if ?c then _ else _] => destruct c; cbn [rbind] in E
           | context [match nth_error ?l ?i with _ => _ end] =>
               destruct (nth_error l i); cbn [rbind] in E
           end; discriminate.
Qed.




End InitFacts.

(** * Further properties of the horizon lookup *)

Section TraverseFacts.

Import RealDEM.

Lemma traverse_ok {A B} (g : A -> result B) (l : list A) :
  (forall x, In x l -> exists y, g x = Ok y) ->
  exists ys, traverse g l = Ok ys.
Proof.
  induction l as [|x l IH]; intros H; cbn [traverse].
  - eexists. reflexivity.
  - destruct (H x (or_introl eq_refl)) as (y & Hy).
    destruct IH as (ys & Hys); [intros x' Hx'; apply H; right; exact Hx'|].
    rewrite Hy. cbn [rbind]. rewrite Hys. cbn [rbind]. eexists. reflexivity.
Qed.

Lemma traverse_inv {A B} (g : A -> result B) (l : list A) (ys : list B) :
  traverse g l = Ok ys -> Forall2 (fun x y => g x = Ok y) l ys.
Proof.
  revert ys. induction l as [|x l IH]; intros ys H; cbn [traverse] in H.
  - injection H as <-. constructor.
  - destruct (g x) as [y| |] eqn:Ey; try discriminate. cbn [rbind] in H.
    destruct (traverse g l) as [ys'| |]; try discriminate. cbn [rbind] in H.
    injection H as <-. constructor; [exact Ey | apply IH; reflexivity].
Qed.

Lemma traverse_raises {A B} (g : A -> result B) (l : list A) (e0 : exn) :
  (forall x, In x l -> g x <> Running /\ forall e, g x = Raise e -> e = e0) ->
  traverse g l <> Running /\ forall e, traverse g l = Raise e -> e = e0.
Proof.
  induction l as [|x l IH]; intros H; cbn [traverse].
  - split; [discriminate | intros e He; discriminate He].
  - destruct (H x (or_introl eq_refl)) as (Hr & He).
    destruct IH as (IHr & IHe); [intros x' Hx'; apply H; right; exact Hx'|].
    destruct (g x) as [y|e'|]; cbn [rbind].
    + destruct (traverse g l) as [ys|e'|]; cbn [rbind].
      * split; [discriminate | intros e H'; discriminate H'].
      * split; [discriminate|]. intros e H'. injection H' as <-. apply IHe. reflexivity.
      * contradiction.
    + split; [discriminate|]. intros e H'. injection H' as <-. apply He. reflexivity.
    + contradiction.
Qed.

Lemma py_index_raises {A} (l : list A) (i : Z) :
  py_index l i <> Running /\ forall e, py_index l i = Raise e -> e = IndexError.
Proof.
  unfold py_index.
  destruct (_ && _); [destruct (nth_error _ _)|];
    (split; [discriminate | intros e H; inversion H; reflexivity]).
Qed.

Lemma combine_seq_nth {A} (l : list A) :
  forall (s i : nat) (x : A),
    nth_error l i = Some x <-> In ((s + i)%nat, x) (combine (seq s (List.length l)) l).
Proof.
  induction l as [|a l IH]; intros s i x; cbn [List.length seq combine].
  - split; [destruct i; discriminate | intros []].
  - split.
    + destruct i as [|i]; cbn [nth_error].
      * intros H. injection H as <-. left. rewrite Nat.add_0_r. reflexivity.
      * intros H. right. replace (s + S i)%nat with (S s + i)%nat by lia.
        apply IH. exact H.
    + intros [H|H].
      * injection H as Hs <-. assert (i = 0%nat) by lia. subst i. reflexivity.
      * pose proof (in_combine_l _ _ _ _ H) as Hin. apply in_seq in Hin.
        destruct i as [|i]; [lia|]. cbn [nth_error].
        replace (s + S i)%nat with (S s + i)%nat in H by lia.
        apply IH in H. exact H.
Qed.

Lemma indexed_nth {A} (l : list A) (i : nat) (x : A) :
  nth_error l i = Some x <-> In (i, x) (indexed l).
Proof. unfold indexed. apply (combine_seq_nth l 0 i x). Qed.

Lemma indexed_length {A} (l : list A) : List.length (indexed l) = List.length l.
Proof.
  unfold indexed. rewrite length_combine, length_seq. apply Nat.min_id.
Qed.

End TraverseFacts.

Section LookupGrid.

Import RealDEM.

Context {F : Type} {ops : FloatOps F}.

Lemma horizon_px_raises (profile : list Z) (az : F) :
  horizon_px profile az <> Running /\
  forall e, horizon_px profile az = Raise e -> e = IndexError.
Proof.
  unfold horizon_px.
  destruct (py_index_raises profile (floor_astype_int (np_mod az (of_int 360))))
    as (R1 & E1).
  destruct (py_index profile (floor_astype_int (np_mod az (of_int 360))))
    as [v1|e1|]; cbn [rbind].
  - match goal with
    | |- context [py_index profile ?i] =>
        destruct (py_index_raises profile i) as (R2 & E2);
        destruct (py_index profile i) as [v2|e2|]; cbn [rbind]
    end.
    + split; [discriminate | intros e H; discriminate H].
    + split; [discriminate|]. intros e H. injection H as <-. apply E2. reflexivity.
    + contradiction.
  - split; [discriminate|]. intros e H. injection H as <-. apply E1. reflexivity.
  - contradiction.
Qed.

Lemma lookup_cell_raises (self : t) (i : nat) (cell : nat * F) :
  let r := (plane <~ py_index (horizon_roi self) (Z.of_nat i) ;;
            profile <~ py_index plane (Z.of_nat (fst cell)) ;;
            horizon_px profile (snd cell)) in
  r <> Running /\ forall e, r = Raise e -> e = IndexError.
Proof.
  cbv zeta.
  destruct (py_index_raises (horizon_roi self) (Z.of_nat i)) as (R1 & E1).
  destruct (py_index (horizon_roi self) (Z.of_nat i)) as [plane|e1|]; cbn [rbind].
  - destruct (py_index_raises plane (Z.of_nat (fst cell))) as (R2 & E2).
    destruct (py_index plane (Z.of_nat (fst cell))) as [profile|e2|]; cbn [rbind].
    + apply horizon_px_raises.
    + split; [discriminate|]. intros e H. injection H as <-. apply E2. reflexivity.
    + contradiction.
  - split; [discriminate|]. intros e H. injection H as <-. apply E1. reflexivity.
  - contradiction.
Qed.

Lemma lookup_raises (self : t) (az : list (list F)) :
  get_horizon_elevation_vectorized self az <> Running /\
  forall e, get_horizon_elevation_vectorized self az = Raise e -> e = IndexError.
Proof.
  unfold get_horizon_elevation_vectorized.
  apply traverse_raises. intros row _. apply traverse_raises. intros cell _.
  apply (lookup_cell_raises self (fst row) cell).
Qed.

Lemma Forall2_indexed_length {A B} (l : list A) (ys : list B)
    (R : nat * A -> B -> Prop) :
  Forall2 R (indexed l) ys -> List.length ys = List.length l.
Proof.
  intros H. apply Forall2_length in H. rewrite indexed_length in H. lia.
Qed.

Lemma Forall2_in_l {A B} (R : A -> B -> Prop) (l : list A) (ys : list B) (x : A) :
  Forall2 R l ys -> In x l -> exists y, R x y.
Proof.
  induction 1 as [|a b l' ys' Hab _ IH]; intros Hin; [destruct Hin|].
  destruct Hin as [<- | Hin]; [exists b; exact Hab | apply IH; exact Hin].
Qed.

Lemma lookup_same_shape (self : t) (az : list (list F)) (out : list (list F)) :
  get_horizon_elevation_vectorized self az = Ok out -> same_shape az out.
Proof.
  unfold get_horizon_elevation_vectorized, same_shape. intros H.
  apply traverse_inv in H. unfold indexed in H.
  remember (seq 0 (List.length az)) as idx eqn:Eidx.
  assert (Hl : List.length idx = List.length az) by (subst idx; apply length_seq).
  clear Eidx. revert idx out Hl H.
  induction az as [|row az IH]; intros [|i idx] out Hl H; try discriminate;
    cbn [combine] in H; inversion H; subst.
  - constructor.
  - constructor.
    + match goal with
      | Hrow : traverse _ _ = Ok _ |- _ =>
          apply traverse_inv, Forall2_indexed_length in Hrow; cbn [snd] in Hrow;
            symmetry; exact Hrow
      end.
    + eapply IH; [|eassumption]. cbn in Hl. lia.
Qed.

(** X22.  Whatever the float arithmetic, the vectorised lookup either
    returns a grid of the shape of the azimuth grid or raises
    [IndexError], nothing else; and it raises [IndexError] as soon as the
    azimuth grid has an entry outside the terrain: in a row beyond the last
    row of the horizon cube, or in a column beyond the last column. *)
Theorem lookup_shape_or_index_error (self : t) (az : list (list F)) :
  (forall out, get_horizon_elevation_vectorized self az = Ok out ->
     same_shape az out) /\
  ((exists out, get_horizon_elevation_vectorized self az = Ok out) \/
   get_horizon_elevation_vectorized self az = Raise IndexError) /\
  (forall (i j : nat) (row : list F) (a : F),
     nth_error az i = Some row -> nth_error row j = Some a ->
     (List.length (horizon_roi self) <= i)%nat \/
     (exists plane, nth_error (horizon_roi self) i = Some plane /\
                    (List.length plane <= j)%nat) ->
     get_horizon_elevation_vectorized self az = Raise IndexError).
Proof.
  destruct (lookup_raises self az) as (Hrun & Herr).
  assert (Hkinds : (exists out, get_horizon_elevation_vectorized self az = Ok out) \/
                   get_horizon_elevation_vectorized self az = Raise IndexError).
  { destruct (get_horizon_elevation_vectorized self az) as [out|e|] eqn:E.
    - left. exists out. reflexivity.
    - right. rewrite (Herr e eq_refl). reflexivity.
    - contradiction. }
  split; [apply lookup_same_shape|]. split; [exact Hkinds|].
  intros i j row a Hi Hj Hout.
  destruct Hkinds as [(out & Hok)|]; [|assumption].
  exfalso. unfold get_horizon_elevation_vectorized in Hok.
  apply traverse_inv in Hok.
  apply indexed_nth in Hi. apply indexed_nth in Hj.
  destruct (Forall2_in_l _ _ _ _ Hok Hi) as (orow & Hrow). cbn [fst snd] in Hrow.
  apply traverse_inv in Hrow.
  destruct (Forall2_in_l _ _ _ _ Hrow Hj) as (v & Hcell). cbn [fst snd] in Hcell.
  destruct (py_index (horizon_roi self) (Z.of_nat i)) as [plane| |] eqn:Ep;
    try discriminate.
  cbn [rbind] in Hcell.
  destruct (py_index plane (Z.of_nat j)) as [profile| |] eqn:Eq; try discriminate.
  apply py_index_inv in Ep as (i' & -> & Hir & Hnp).
  apply py_index_inv in Eq as (j' & -> & Hjr & _).
  destruct (Z.of_nat i <? 0)%Z eqn:Ei; [apply Z.ltb_lt in Ei; lia|].
  destruct (Z.of_nat j <? 0)%Z eqn:Ej; [apply Z.ltb_lt in Ej; lia|].
  rewrite Nat2Z.id in Hnp.
  destruct Hout as [Hrows | (plane' & Hp' & Hcols)]; [lia|].
  rewrite Hnp in Hp'. injection Hp' as <-. lia.
Qed.

End LookupGrid.

Section ExactLookup.

Import RealDEM.

Lemma exact_lookup_value (profile : list Z) (az : Q) :
  List.length profile = 360%nat ->
  let m := Exact.np_mod az 360 in
  let k := Qfloor m in
  exists v1 v2,
    nth_error profile (Z.to_nat k) = Some v1 /\
    nth_error profile (Z.to_nat ((k + 1) mod 360)) = Some v2 /\
    horizon_px (ops := Exact.ops) profile az
    = Ok (inject_Z v1 / 100
          + (inject_Z v2 / 100 - inject_Z v1 / 100) * (m - inject_Z k)).
Proof.
  intros Hlen m k.
  pose proof (exact_floor_range az) as Hf. fold m k in Hf.
  assert (Hc : (0 <= (k + 1) mod 360 < 360)%Z) by (apply Z.mod_pos_bound; lia).
  destruct (py_index_in_range profile k) as (v1 & Hn1 & H1); [rewrite Hlen; lia|].
  destruct (py_index_in_range profile ((k + 1) mod 360)) as (v2 & Hn2 & H2);
    [rewrite Hlen; lia|].
  exists v1, v2. split; [exact Hn1|]. split; [exact Hn2|].
  unfold horizon_px. cbn [np_mod floor_astype_int Exact.ops of_int fadd fsub fmul fdiv].
  change (inject_Z 360) with 360%Q. fold m. fold k.
  rewrite H1. cbn [rbind]. rewrite H2. cbn [rbind].
  change (inject_Z 100) with 100%Q. reflexivity.
Qed.

(** X23.  In exact arithmetic the lookup is the linear interpolation of the
    two neighbouring buckets at every azimuth: with [m] the azimuth wrapped
    into [0, 360), [k] its integer part and [t = m - k] its fractional
    part, the result is [(1 - t) v[k] / 100 + t v[(k + 1) mod 360] / 100],
    which lies between the two stored values. *)
Theorem lookup_interpolates (profile : list Z) (az : Q) :
  List.length profile = 360%nat ->
  let m := Exact.np_mod az 360 in
  let k := Qfloor m in
  let t := m - inject_Z k in
  exists v1 v2 r,
    nth_error profile (Z.to_nat k) = Some v1 /\
    nth_error profile (Z.to_nat ((k + 1) mod 360)) = Some v2 /\
    horizon_px (ops := Exact.ops) profile az = Ok r /\
    0 <= t /\ t < 1 /\
    r == (1 - t) * (inject_Z v1 / 100) + t * (inject_Z v2 / 100) /\
    (inject_Z v1 / 100 <= inject_Z v2 / 100 ->
     inject_Z v1 / 100 <= r /\ r <= inject_Z v2 / 100) /\
    (inject_Z v2 / 100 <= inject_Z v1 / 100 ->
     inject_Z v2 / 100 <= r /\ r <= inject_Z v1 / 100).
Proof.
  intros Hlen m k t.
  destruct (exact_lookup_value profile az Hlen) as (v1 & v2 & Hn1 & Hn2 & Hr).
  fold m k t in Hn1, Hn2, Hr.
  exists v1, v2. eexists. split; [exact Hn1|]. split; [exact Hn2|].
  split; [exact Hr|].
  assert (Ht0 : 0 <= t) by (unfold t, k; pose proof (Qfloor_le m); lra).
  assert (Ht1 : t < 1).
  { unfold t, k. pose proof (Qlt_floor m) as H.
    rewrite inject_Z_plus in H. change (inject_Z 1) with 1 in H. lra. }
  split; [exact Ht0|]. split; [exact Ht1|].
  set (h1 := inject_Z v1 / 100). set (h2 := inject_Z v2 / 100).
  split; [ring|]. split; intros Hle; split; nra.
Qed.

Lemma lookup_interpolates_witness :
  List.length (repeat 1234%Z 360) = 360%nat /\
  exists r, horizon_px (ops := Exact.ops) (repeat 1234%Z 360) (721 # 2) = Ok r.
Proof.
  assert (Hlen : List.length (repeat 1234%Z 360) = 360%nat) by reflexivity.
  split; [exact Hlen|].
  destruct (lookup_interpolates (repeat 1234%Z 360) (721 # 2) Hlen)
    as (v1 & v2 & r & _ & _ & Hr & _).
  exists r. exact Hr.
Defined.

Lemma exact_np_mod_periodic (az : Q) (n : Z) :
  Exact.np_mod (az + 360 * inject_Z n) 360 == Exact.np_mod az 360.
Proof.
  unfold Exact.np_mod.
  assert (Hq : (az + 360 * inject_Z n) / 360 == az / 360 + inject_Z n)
    by (field; discriminate).
  assert (Hfl : Qfloor ((az + 360 * inject_Z n) / 360) = (Qfloor (az / 360) + n)%Z).
  { rewrite (Qfloor_comp _ _ Hq).
    pose proof (Qfloor_le (az / 360)) as Hlo.
    pose proof (Qlt_floor (az / 360)) as Hhi.
    rewrite inject_Z_plus in Hhi. change (inject_Z 1) with 1 in Hhi.
    pose proof (Qfloor_le (az / 360 + inject_Z n)) as Hlo'.
    pose proof (Qlt_floor (az / 360 + inject_Z n)) as Hhi'.
    rewrite inject_Z_plus in Hhi'. change (inject_Z 1) with 1 in Hhi'.
    set (a := Qfloor (az / 360)) in *.
    set (b := Qfloor (az / 360 + inject_Z n)) in *.
    assert (H1 : inject_Z b < inject_Z (a + n + 1)).
    { rewrite !inject_Z_plus. change (inject_Z 1) with 1. lra. }
    assert (H2 : inject_Z (a + n) < inject_Z (b + 1)).
    { rewrite !inject_Z_plus. change (inject_Z 1) with 1. lra. }
    rewrite <- Zlt_Qlt in H1, H2. lia. }
  rewrite Hfl, inject_Z_plus. ring.
Qed.

(** X24.  In exact arithmetic the lookup has period 360 degrees: adding any
    whole number of turns to the azimuth gives the same horizon
    elevation. *)
Theorem lookup_periodic (profile : list Z) (az : Q) (n : Z) :
  List.length profile = 360%nat ->
  exists r r',
    horizon_px (ops := Exact.ops) profile az = Ok r /\
    horizon_px (ops := Exact.ops) profile (az + 360 * inject_Z n) = Ok r' /\
    r' == r.
Proof.
  intros Hlen.
  destruct (exact_lookup_value profile az Hlen) as (v1 & v2 & Hn1 & Hn2 & Hr).
  destruct (exact_lookup_value profile (az + 360 * inject_Z n) Hlen)
    as (v1' & v2' & Hn1' & Hn2' & Hr').
  pose proof (exact_np_mod_periodic az n) as Hm.
  rewrite (Qfloor_comp _ _ Hm) in Hn1', Hn2', Hr'.
  rewrite Hn1 in Hn1'. injection Hn1' as <-.
  rewrite Hn2 in Hn2'. injection Hn2' as <-.
  eexists. eexists. split; [exact Hr|]. split; [exact Hr'|].
  rewrite Hm. reflexivity.
Qed.

Lemma lookup_periodic_witness :
  List.length (repeat 1234%Z 360) = 360%nat /\
  exists r r',
    horizon_px (ops := Exact.ops) (repeat 1234%Z 360) 90 = Ok r /\
    horizon_px (ops := Exact.ops) (repeat 1234%Z 360) (90 + 360 * inject_Z (-2))
    = Ok r' /\
    r' == r.
Proof.
  assert (Hlen : List.length (repeat 1234%Z 360) = 360%nat) by reflexivity.
  split; [exact Hlen|].
  exact (lookup_periodic (repeat 1234%Z 360) 90 (-2) Hlen).
Defined.

(** On a terrain whose horizon cube has [h] rows of [w] profiles of 360
    values, the exact lookup is defined for every azimuth grid that fits. *)
Lemma exact_lookup_grid_defined (self : t) (h w : nat) (az : list (list Q)) :
  has_shape (horizon_roi self) h w ->
  Forall (Forall (fun profile => List.length profile = 360%nat)) (horizon_roi self) ->
  (List.length az <= h)%nat ->
  Forall (fun row => (List.length row <= w)%nat) az ->
  exists out,
    get_horizon_elevation_vectorized (ops := Exact.ops) self az = Ok out /\
    same_shape az out.
Proof.
  intros [Hh Hw] Hprof Hrows Hcols.
  assert (Hok : exists out,
            get_horizon_elevation_vectorized (ops := Exact.ops) self az = Ok out).
  { unfold get_horizon_elevation_vectorized.
    apply traverse_ok. intros [i row] Hin. apply indexed_nth in Hin.
    cbn [fst snd].
    assert (Hi : (i < List.length az)%nat) by (apply nth_error_Some; congruence).
    destruct (py_index_in_range (horizon_roi self) (Z.of_nat i))
      as (plane & Hnp & Hp); [lia|].
    rewrite Nat2Z.id in Hnp. apply nth_error_In in Hnp.
    rewrite Forall_forall in Hw, Hprof, Hcols.
    pose proof (Hw plane Hnp) as Hwp. pose proof (Hprof plane Hnp) as Hpp.
    pose proof (Hcols row (nth_error_In _ _ Hin)) as Hrow.
    apply traverse_ok. intros [j a] Hin'. apply indexed_nth in Hin'.
    cbn [fst snd].
    assert (Hj : (j < List.length row)%nat) by (apply nth_error_Some; congruence).
    rewrite Hp. cbn [rbind].
    destruct (py_index_in_range plane (Z.of_nat j)) as (profile & Hnq & Hq); [lia|].
    rewrite Hq. cbn [rbind].
    rewrite Nat2Z.id in Hnq. apply nth_error_In in Hnq.
    rewrite Forall_forall in Hpp.
    destruct (exact_lookup_defined profile a (Hpp profile Hnq)) as (_ & _ & Hr).
    exact Hr. }
  destruct Hok as (out & Hout). exists out. split; [exact Hout|].
  apply (lookup_same_shape (ops := Exact.ops) self az out Hout).
Qed.

Variable warp : string -> Q -> Q -> Q * Q.
Variable files : Files.

(** X25.  On a terrain that [RealDEM] has constructed from a raster with a
    positive pixel size and a non-negative buffer, the lookup in exact
    arithmetic is defined for every azimuth grid that fits into the
    terrain, whatever the azimuth values, and returns a grid of the same
    shape. *)
Theorem constructed_terrain_lookup_defined (p q : string) (dem : t)
    (az : list (list Q)) :
  init warp files p q = Ok dem ->
  0 < Affine.a (transform dem) ->
  0 <= buffer_m_of (meta dem) ->
  (0 <= width dem)%Z ->
  (List.length az <= Z.to_nat (height dem))%nat ->
  Forall (fun row => (List.length row <= Z.to_nat (width dem))%nat) az ->
  exists out,
    get_horizon_elevation_vectorized (ops := Exact.ops) dem az = Ok out /\
    same_shape az out.
Proof.
  intros Hinit Ha Hbm Hw Hrows Hcols.
  assert (Hq : 0 <= buffer_m_of (meta dem) / Affine.a (transform dem)).
  { apply Qle_shift_div_l; [exact Ha|]. rewrite Qmult_0_l. exact Hbm. }
  assert (Hb : (0 <= py_int (buffer_m_of (meta dem) / Affine.a (transform dem)))%Z).
  { rewrite py_int_nonneg by exact Hq.
    change 0%Z with (Qfloor 0). apply Qfloor_resp_le. exact Hq. }
  destruct (init_shapes_gen warp files p q dem Hinit Hb)
    as (_ & _ & _ & _ & _ & Hshape & Hprof & _).
  exact (exact_lookup_grid_defined dem _ _ az Hshape Hprof Hrows Hcols).
Qed.

End ExactLookup.

Section TerrainWitnesses.

Import RealDEM.
Local Open Scope string_scope.
Local Open Scope Q_scope.

Lemma init_files_sn_fields :
  exists dem,
    init warp_id files_sn "meta.json" "horizon.bin" = Ok dem /\
    0 < Affine.a (transform dem) /\
    0 <= buffer_m_of (meta dem) /\
    0 < Affine.e (transform dem) /\
    height dem = 3%Z /\ width dem = 1%Z.
Proof.
  vm_compute. eexists. split; [reflexivity|]. vm_compute.
  repeat split; discriminate.
Qed.


Lemma latlon_grids_follow_coords_witness :
  exists dem,
    init warp_id files_sn "meta.json" "horizon.bin" = Ok dem /\
    lats dem = map (fun y => map (fun x => snd (warp_id (meta_crs (meta dem)) x y))
                                 (x_coords dem)) (y_coords dem).
Proof.
  destruct init_files_sn_fields as (dem & Hinit & _).
  exists dem. split; [exact Hinit|].
  exact (proj1 (latlon_grids_follow_coords warp_id files_sn
                  "meta.json" "horizon.bin" dem Hinit)).
Defined.

Lemma Y_grid_keeps_file_order_witness :
  exists dem,
    init warp_id files_sn "meta.json" "horizon.bin" = Ok dem /\
    Y_grid dem = map (fun y => map (fun _ => y) (x_coords dem)) (rev (y_coords dem)).
Proof.
  destruct init_files_sn_fields as (dem & Hinit & _ & _ & He & _).
  exists dem. split; [exact Hinit|].
  exact (proj1 (proj2 (Y_grid_keeps_file_order warp_id files_sn
                         "meta.json" "horizon.bin" dem Hinit)) He).
Defined.

Lemma init_rejects_empty_roi_witness :
  exists e, init warp_id files_all_buffer "meta.json" "horizon.bin" = Raise e.
Proof.
  assert (Ha : ~ Affine.a {| Affine.a := 20; Affine.b := 0; Affine.c := 0;
                             Affine.d := 0; Affine.e := 20; Affine.f := 0 |} == 0)
    by discriminate.
  apply (init_rejects_empty_roi warp_id files_all_buffer "meta.json" "horizon.bin"
           meta_all_buffer
           {| Affine.a := 20; Affine.b := 0; Affine.c := 0;
              Affine.d := 0; Affine.e := 20; Affine.f := 0 |}
           eq_refl eq_refl Ha).
  discriminate.
Defined.


Lemma lookup_shape_or_index_error_witness :
  get_horizon_elevation_vectorized (ops := Exact.ops) dem_demo [[0]; [0]]
  = Raise IndexError.
Proof.
  exact (proj2 (proj2 (lookup_shape_or_index_error (ops := Exact.ops) dem_demo
                         [[0]; [0]]))
           1%nat 0%nat [0] 0 eq_refl eq_refl (or_introl (le_n 1))).
Defined.

Lemma constructed_terrain_lookup_defined_witness :
  exists dem out,
    init warp_id files_sn "meta.json" "horizon.bin" = Ok dem /\
    get_horizon_elevation_vectorized (ops := Exact.ops) dem [[10]; [-20]; [725]]
    = Ok out.
Proof.
  destruct init_files_sn_fields as (dem & Hinit & Ha & Hb & _ & Hh & Hw).
  assert (Hw0 : (0 <= width dem)%Z) by (rewrite Hw; discriminate).
  assert (Hrows : le (List.length [[10]; [-20]; [725]]) (Z.to_nat (height dem)))
    by (rewrite Hh; apply le_n).
  assert (Hcols : Forall (fun row : list Q =>
                            (List.length row <= Z.to_nat (width dem))%nat)
                         [[10]; [-20]; [725]])
    by (rewrite Hw; repeat constructor).
  destruct (constructed_terrain_lookup_defined warp_id files_sn
              "meta.json" "horizon.bin" dem [[10]; [-20]; [725]]
              Hinit Ha Hb Hw0 Hrows Hcols) as (out & Hout & _).
  exists dem, out. split; [exact Hinit | exact Hout].
Defined.

End TerrainWitnesses.

(** * Binary64: the wrapped azimuth *)

Section Binary64Wrap.

Import RealDEM.
Local Open Scope Z_scope.

(** The mantissa of the double 360.0, at exponent -44. *)
Lemma of_int_360 : B64.of_int 360 = S754_finite false 6333186975989760 (-44).
Proof. reflexivity. Qed.

Lemma mantissa_360 : 6333186975989760 = 360 * 2 ^ 44.
Proof. reflexivity. Qed.

Lemma pow2_pos (k : Z) : 0 <= k -> 0 < 2 ^ k.
Proof. intros H. apply Z.pow_pos_nonneg; lia. Qed.

Lemma pow2_split (a b : Z) : 0 <= a -> 0 <= b -> 2 ^ (a + b) = 2 ^ a * 2 ^ b.
Proof. intros Ha Hb. apply Z.pow_add_r; assumption. Qed.

Lemma Zdigits2_mul_pow2 (m : positive) (k : Z) :
  0 <= k -> Zdigits2 (Z.pos m * 2 ^ k) = Zdigits2 (Z.pos m) + k.
Proof.
  intros Hk. pose proof (pow2_pos k Hk) as Hp.
  assert (H : 0 < Z.pos m * 2 ^ k) by (apply Z.mul_pos_pos; lia).
  destruct (Z.pos m * 2 ^ k) as [|q|q] eqn:E; try lia.
  rewrite !Zdigits2_log2, <- E, Z.log2_mul_pow2 by lia. lia.
Qed.

Lemma Zdigits2_pos_le (m : positive) (n : Z) :
  0 <= n -> Z.pos m < 2 ^ n -> Zdigits2 (Z.pos m) <= n.
Proof. intros Hn Hm. apply Zdigits2_le; [assumption | lia]. Qed.

(** The mantissa and exponent that [shr_fexp] returns. *)
Lemma shr_fexp_div (m e : Z) (l : location) :
  0 < m -> -1074 <= e ->
  let e' := Z.max e (Z.max (Zdigits2 m + e - 53) (-1074)) in
  snd (shr_fexp B64.prec B64.emax m e l) = e' /\
  shr_m (fst (shr_fexp B64.prec B64.emax m e l)) = m / 2 ^ (e' - e) /\
  0 < m / 2 ^ (e' - e).
Proof.
  intros Hm He e'.
  destruct (shr_fexp_pos m e l Hm He) as [[Hpos _] Hs].
  rewrite fexp_le in Hs. fold e' in Hs.
  split; [exact Hs|].
  assert (Hd : shr_m (fst (shr_fexp B64.prec B64.emax m e l)) = m / 2 ^ (e' - e)).
  { unfold shr_fexp, shr in *. rewrite fexp_le in *.
    destruct (Z.max (Zdigits2 m + e - 53) (-1074) - e) as [|p|p] eqn:E; cbn [fst snd] in *.
    - rewrite shr_record_of_loc_m. replace (e' - e) with 0 by lia.
      rewrite Z.pow_0_r, Z.div_1_r. reflexivity.
    - rewrite iter_shr_1 by (rewrite shr_record_of_loc_m; lia).
      rewrite shr_record_of_loc_m. f_equal. f_equal. lia.
    - rewrite shr_record_of_loc_m. replace (e' - e) with 0 by lia.
      rewrite Z.pow_0_r, Z.div_1_r. reflexivity. }
  split; [exact Hd | rewrite <- Hd; exact Hpos].
Qed.

(** Rounding a positive value below 360, given at an exponent of at most
    -44, returns a double of at most 360. *)
Lemma binary_round_aux_below_360 (s : bool) (m0 : positive) (e0 : Z) (l : location) :
  -1074 <= e0 <= -44 ->
  Z.pos m0 < 6333186975989760 * 2 ^ (-44 - e0) ->
  exists m3 e3,
    binary_round_aux B64.prec B64.emax s (Z.pos m0) e0 l = S754_finite s m3 e3 /\
    -1074 <= e3 <= -44 /\
    Z.pos m3 < 2 ^ 53 /\
    Z.pos m3 <= 6333186975989760 * 2 ^ (-44 - e3).
Proof.
  intros He0 Hv. set (A := 6333186975989760) in *.
  assert (HA : A < 2 ^ 53) by reflexivity.
  assert (HA0 : 0 < A) by reflexivity.
  unfold binary_round_aux.
  destruct (shr_fexp_div (Z.pos m0) e0 l ltac:(lia) ltac:(lia)) as (Hs1 & Hm1 & Hp1).
  cbv zeta in Hs1, Hm1, Hp1.
  destruct (shr_fexp B64.prec B64.emax (Z.pos m0) e0 l) as [mrs' e'] eqn:E1.
  cbn [fst snd] in Hs1, Hm1. symmetry in Hs1. rewrite Hs1 in Hm1, Hp1.
  (* the first shift *)
  assert (Hd0 : Zdigits2 (Z.pos m0) <= 9 - e0).
  { apply Zdigits2_pos_le; [lia|].
    replace (9 - e0) with (53 + (-44 - e0)) by lia.
    rewrite pow2_split by lia.
    pose proof (pow2_pos (-44 - e0) ltac:(lia)). nia. }
  assert (He' : e0 <= e' <= -44) by lia.
  assert (Hm1b : shr_m mrs' < A * 2 ^ (-44 - e')).
  { rewrite Hm1. apply Z.div_lt_upper_bound; [apply pow2_pos; lia|].
    replace (2 ^ (e' - e0) * (A * 2 ^ (-44 - e')))
      with (A * (2 ^ (e' - e0) * 2 ^ (-44 - e'))) by ring.
    rewrite <- pow2_split by lia. replace (e' - e0 + (-44 - e')) with (-44 - e0) by lia.
    exact Hv. }
  assert (Hm1p : 0 < shr_m mrs') by (rewrite Hm1; exact Hp1).
  (* rounding *)
  pose proof (round_nearest_even_bounds (shr_m mrs') (loc_of_shr_record mrs')) as Hr.
  set (m2 := round_nearest_even (shr_m mrs') (loc_of_shr_record mrs')) in *.
  assert (Hm2b : m2 <= A * 2 ^ (-44 - e')) by lia.
  assert (Hm2p : 0 < m2) by lia.
  (* the second shift *)
  destruct (shr_fexp_div m2 e' loc_Exact Hm2p ltac:(lia)) as (Hs2 & Hm3 & Hp3).
  cbv zeta in Hs2, Hm3, Hp3.
  destruct (shr_fexp B64.prec B64.emax m2 e' loc_Exact) as [mrs'' e''] eqn:E2.
  cbn [fst snd] in Hs2, Hm3. symmetry in Hs2. rewrite Hs2 in Hm3, Hp3.
  assert (Hd2 : Zdigits2 m2 <= 9 - e').
  { apply Zdigits2_le; [lia|]. split; [lia|].
    replace (9 - e') with (53 + (-44 - e')) by lia.
    rewrite pow2_split by lia.
    pose proof (pow2_pos (-44 - e') ltac:(lia)). nia. }
  assert (He'' : e' <= e'' <= -44) by lia.
  assert (Hm3b : shr_m mrs'' <= A * 2 ^ (-44 - e'')).
  { rewrite Hm3.
    replace (A * 2 ^ (-44 - e'')) with ((A * 2 ^ (-44 - e')) / 2 ^ (e'' - e')).
    - apply Z.div_le_mono; [apply pow2_pos; lia | exact Hm2b].
    - replace (-44 - e') with ((-44 - e'') + (e'' - e')) by lia.
      rewrite pow2_split by lia. rewrite Z.mul_assoc.
      apply Z.div_mul. pose proof (pow2_pos (e'' - e') ltac:(lia)). lia. }
  assert (Hm3s : shr_m mrs'' < 2 ^ 53).
  { rewrite Hm3. apply Z.div_lt_upper_bound; [apply pow2_pos; lia|].
    rewrite <- pow2_split by lia.
    destruct m2 as [|q|q]; try lia.
    pose proof (Zdigits2_gt q) as Hq.
    assert (Hle : 2 ^ Zdigits2 (Z.pos q) <= 2 ^ (e'' - e' + 53))
      by (apply Z.pow_le_mono_r; lia).
    lia. }
  assert (Hm3p : 0 < shr_m mrs'') by (rewrite Hm3; exact Hp3).
  destruct (shr_m mrs'') as [|p3|p3] eqn:E3; try lia.
  change (Z.sub B64.emax B64.prec) with 971.
  destruct (e'' <=? 971) eqn:E4; [|apply Z.leb_gt in E4; lia].
  exists p3, e''. repeat split; try lia.
Qed.

Lemma shl_align_value (m : positive) (e e' : Z) :
  let r := shl_align m e e' in
  snd r = Z.min e e' /\ Z.pos (fst r) = Z.pos m * 2 ^ (e - Z.min e e').
Proof.
  cbv zeta. destruct (shl_align_spec m e e') as [Hs Hv].
  split; [exact Hs|]. rewrite Hv, Hs. reflexivity.
Qed.

(** A value that fits a 53-bit mantissa is not changed by rounding. *)
Lemma binary_round_exact (s : bool) (m : positive) (e : Z) :
  Z.pos m < 2 ^ 53 -> -1074 <= e <= 971 ->
  exists mz ez,
    binary_round B64.prec B64.emax s m e = S754_finite s mz ez /\
    -1074 <= ez <= e /\
    Z.pos mz = Z.pos m * 2 ^ (e - ez) /\
    Z.pos mz < 2 ^ 53.
Proof.
  intros Hm He. unfold binary_round.
  change (Z.pos (digits2_pos m)) with (Zdigits2 (Z.pos m)).
  rewrite fexp_le.
  pose proof (Zdigits2_pos_le m 53 ltac:(lia) Hm) as Hd.
  set (f := Z.max (Zdigits2 (Z.pos m) + e - 53) (-1074)).
  assert (Hf : -1074 <= f <= e) by (unfold f; lia).
  destruct (shl_align_value m e f) as [Hs Hv]. cbv zeta in Hs, Hv.
  destruct (shl_align m e f) as [mz ez]. cbn [fst snd] in Hs, Hv.
  rewrite Z.min_r in Hs, Hv by lia. subst ez.
  assert (Hdz : Zdigits2 (Z.pos mz) = Zdigits2 (Z.pos m) + (e - f))
    by (rewrite Hv; apply Zdigits2_mul_pow2; lia).
  assert (Hmz : Z.pos mz < 2 ^ 53).
  { destruct (Z_le_gt_dec (Zdigits2 (Z.pos m) + e - 53) (-1074)) as [Hc|Hc].
    - pose proof (Zdigits2_gt mz) as Hg. rewrite Hdz in Hg.
      assert (2 ^ (Zdigits2 (Z.pos m) + (e - f)) <= 2 ^ 53)
        by (apply Z.pow_le_mono_r; unfold f in *; lia).
      lia.
    - pose proof (Zdigits2_gt mz) as Hg. rewrite Hdz in Hg.
      replace (Zdigits2 (Z.pos m) + (e - f)) with 53 in Hg by (unfold f; lia).
      exact Hg. }
  exists mz, f. split; [|repeat split; try lia; assumption].
  unfold binary_round_aux.
  assert (Hshr : forall l, l = loc_Exact ->
            shr_fexp B64.prec B64.emax (Z.pos mz) f l
            = (shr_record_of_loc (Z.pos mz) l, f)).
  { intros l _. unfold shr_fexp, shr. rewrite fexp_le, Hdz.
    replace (Zdigits2 (Z.pos m) + (e - f) + f) with (Zdigits2 (Z.pos m) + e) by lia.
    fold f. rewrite Z.sub_diag. reflexivity. }
  rewrite (Hshr loc_Exact eq_refl).
  cbn [shr_record_of_loc shr_m loc_of_shr_record round_nearest_even].
  rewrite (Hshr loc_Exact eq_refl). cbn [shr_record_of_loc shr_m].
  change (Z.sub B64.emax B64.prec) with 971.
  destruct (f <=? 971) eqn:E; [reflexivity | apply Z.leb_gt in E; lia].
Qed.

(** [fmod(x, 360.0)] of a finite double: zero, or a double of the sign of
    [x] and of magnitude below 360, at an exponent of at most -44. *)
Lemma fmod_360 (s : bool) (m : positive) (e : Z) :
  Z.pos m < 2 ^ 53 -> -1074 <= e <= 971 ->
  B64.fmod (S754_finite s m e) (S754_finite false 6333186975989760 (-44))
    = S754_zero s \/
  exists mz ez,
    B64.fmod (S754_finite s m e) (S754_finite false 6333186975989760 (-44))
      = S754_finite s mz ez /\
    -1074 <= ez <= -44 /\
    Z.pos mz < 2 ^ 53 /\
    Z.pos mz < 6333186975989760 * 2 ^ (-44 - ez).
Proof.
  intros Hm He. set (A := 6333186975989760) in *.
  assert (HA : A < 2 ^ 53) by reflexivity.
  unfold B64.fmod.
  destruct (shl_align_value m e (Z.min e (-44))) as [_ Hx]. cbv zeta in Hx.
  destruct (shl_align_value 6333186975989760 (-44) (Z.min e (-44))) as [_ Hy].
  cbv zeta in Hy. fold A in Hy.
  set (ez := Z.min e (-44)) in *.
  set (ax := Z.pos (fst (shl_align m e ez))) in *.
  set (ay := Z.pos (fst (shl_align 6333186975989760 (-44) ez))) in *.
  rewrite Z.min_r in Hx by (unfold ez; lia).
  rewrite Z.min_r in Hy by (unfold ez; lia).
  assert (Hez : -1074 <= ez <= -44) by (unfold ez; lia).
  assert (Hay : 0 < ay) by (unfold ay; lia).
  pose proof (Z.mod_pos_bound ax ay Hay) as Hr.
  assert (Hr53 : ax mod ay < 2 ^ 53).
  { destruct (Z_le_gt_dec e (-44)) as [Hc|Hc].
    - assert (ax = Z.pos m).
      { rewrite Hx. replace (e - ez) with 0 by (unfold ez; lia).
        rewrite Z.pow_0_r. lia. }
      pose proof (Z.mod_le ax ay ltac:(unfold ax; lia) Hay). lia.
    - assert (ay = A).
      { rewrite Hy. replace (-44 - ez) with 0 by (unfold ez; lia).
        rewrite Z.pow_0_r. lia. }
      lia. }
  destruct (ax mod ay) as [|r|r] eqn:Er; try lia.
  - left. destruct s; reflexivity.
  - right.
    assert (Hn : binary_normalize B64.prec B64.emax (cond_Zopp s (Z.pos r)) ez s
                 = binary_round B64.prec B64.emax s r ez)
      by (destruct s; reflexivity).
    rewrite Hn.
    destruct (binary_round_exact s r ez Hr53 ltac:(lia)) as (mz & fz & Hb & Hfz & Hv & H53).
    exists mz, fz. split; [exact Hb|]. split; [lia|]. split; [exact H53|].
    rewrite Hv.
    assert (Z.pos r < A * 2 ^ (-44 - ez)) by lia.
    replace (-44 - fz) with ((-44 - ez) + (ez - fz)) by lia.
    rewrite pow2_split by lia.
    pose proof (pow2_pos (ez - fz) ltac:(lia)). nia.
Qed.

(** Adding 360.0 to a negative remainder gives a double of at most 360. *)
Lemma add_360_to_negative (mz : positive) (fz : Z) :
  -1074 <= fz <= -44 ->
  Z.pos mz < 6333186975989760 * 2 ^ (-44 - fz) ->
  exists m3 e3,
    SFadd B64.prec B64.emax (S754_finite true mz fz)
          (S754_finite false 6333186975989760 (-44))
      = S754_finite false m3 e3 /\
    -1074 <= e3 <= -44 /\
    Z.pos m3 < 2 ^ 53 /\
    Z.pos m3 <= 6333186975989760 * 2 ^ (-44 - e3).
Proof.
  intros Hfz Hv. set (A := 6333186975989760) in *.
  unfold SFadd.
  destruct (shl_align_value mz fz (Z.min fz (-44))) as [_ Hx]. cbv zeta in Hx.
  destruct (shl_align_value 6333186975989760 (-44) (Z.min fz (-44))) as [_ Hy].
  cbv zeta in Hy. fold A in Hy.
  replace (Z.min fz (-44)) with fz in * by lia.
  rewrite Z.min_id in Hx. rewrite Z.min_r in Hy by lia.
  rewrite Z.sub_diag, Z.pow_0_r, Z.mul_1_r in Hx.
  cbn [cond_Zopp]. rewrite Hx, Hy.
  set (N := - Z.pos mz + A * 2 ^ (-44 - fz)).
  assert (HN : 0 < N < A * 2 ^ (-44 - fz)) by (unfold N; lia).
  destruct N as [|n|n] eqn:EN; try lia.
  cbn [binary_normalize]. unfold binary_round.
  change (Z.pos (digits2_pos n)) with (Zdigits2 (Z.pos n)).
  rewrite fexp_le.
  set (f := Z.max (Zdigits2 (Z.pos n) + fz - 53) (-1074)).
  destruct (shl_align_value n fz f) as [Hs Hw]. cbv zeta in Hs, Hw.
  destruct (shl_align n fz f) as [m0 e0]. cbn [fst snd] in Hs, Hw. subst e0.
  assert (He0 : -1074 <= Z.min fz f <= -44) by (unfold f; lia).
  apply binary_round_aux_below_360; [exact He0|].
  fold A. rewrite Hw.
  replace (-44 - Z.min fz f) with ((-44 - fz) + (fz - Z.min fz f)) by lia.
  rewrite pow2_split by lia.
  pose proof (pow2_pos (fz - Z.min fz f) ltac:(lia)). nia.
Qed.

(** [np.mod(x, 360.0)] of a finite double: plus zero, or a positive double
    of at most 360, at an exponent of at most -44; when [x] is not negative
    the result is below 360. *)
Lemma np_mod_360 (x : B64.float) :
  finite_double x = true ->
  B64.np_mod x (B64.of_int 360) = S754_zero false \/
  exists m3 e3,
    B64.np_mod x (B64.of_int 360) = S754_finite false m3 e3 /\
    -1074 <= e3 <= -44 /\
    Z.pos m3 < 2 ^ 53 /\
    Z.pos m3 <= 6333186975989760 * 2 ^ (-44 - e3) /\
    (B64.sign_of x = false -> Z.pos m3 < 6333186975989760 * 2 ^ (-44 - e3)).
Proof.
  intros Hx. rewrite of_int_360.
  destruct x as [s| | |s m e]; try discriminate.
  - left. destruct s; reflexivity.
  - cbn [finite_double] in Hx.
    apply andb_true_iff in Hx as [Hx H3]. apply andb_true_iff in Hx as [H1 H2].
    apply Z.ltb_lt in H1. apply Z.leb_le in H2, H3.
    unfold B64.np_mod.
    destruct (fmod_360 s m e H1 ltac:(lia)) as [Hz | (mz & ez & Hf & Hez & H53 & Hv)].
    + rewrite Hz. left. reflexivity.
    + rewrite Hf. destruct s.
      * right. cbn [SFltb SFcompare xorb].
        destruct (add_360_to_negative mz ez Hez Hv) as (m3 & e3 & Ha & He3 & Hm3 & Hv3).
        exists m3, e3. split; [exact Ha|]. repeat split; try lia.
        cbn [B64.sign_of]. discriminate.
      * right. cbn [SFltb SFcompare xorb].
        exists mz, ez. repeat split; try lia.
Qed.

Lemma floor_below_360 (m : positive) (e : Z) :
  -1074 <= e <= -44 ->
  Z.pos m < 6333186975989760 * 2 ^ (-44 - e) ->
  0 <= B64.floor_astype_int (S754_finite false m e) <= 359.
Proof.
  intros He Hv. unfold B64.floor_astype_int. cbn [cond_Zopp].
  assert (Hsh : Z.shiftl (Z.pos m) e = Z.pos m / 2 ^ (- e)).
  { rewrite <- Z.shiftr_opp_r. apply Z.shiftr_div_pow2. lia. }
  rewrite Hsh.
  pose proof (pow2_pos (- e) ltac:(lia)) as Hp.
  assert (H0 : 0 <= Z.pos m / 2 ^ (- e)) by (apply Z.div_pos; lia).
  assert (H1 : Z.pos m / 2 ^ (- e) < 360).
  { apply Z.div_lt_upper_bound; [exact Hp|].
    rewrite mantissa_360 in Hv.
    replace (- e) with (44 + (-44 - e)) by lia. rewrite pow2_split by lia.
    lia. }
  assert (Hr : ((B64.int64_min <=? Z.pos m / 2 ^ (- e))
                && (Z.pos m / 2 ^ (- e) <? 2 ^ 63)) = true).
  { apply andb_true_iff. split.
    - apply Z.leb_le. unfold B64.int64_min. lia.
    - apply Z.ltb_lt. assert (360 < 2 ^ 63) by reflexivity. lia. }
  rewrite Hr. lia.
Qed.

Lemma scale_360 (m e : Z) :
  -1074 <= e <= -44 ->
  (m * 2 ^ (e + 1074) <= 360 * 2 ^ 1074 <-> m <= 6333186975989760 * 2 ^ (-44 - e)).
Proof.
  intros He. rewrite mantissa_360.
  pose proof (pow2_pos (e + 1074) ltac:(lia)) as Hp.
  assert (H : 360 * 2 ^ 1074 = 360 * 2 ^ 44 * 2 ^ (-44 - e) * 2 ^ (e + 1074)).
  { rewrite <- !Z.mul_assoc, <- !pow2_split by lia.
    f_equal. f_equal. lia. }
  rewrite H. split; intros Hm; nia.
Qed.

(** The lookup at a wrapped azimuth whose floor is one of 0 .. 359. *)
Lemma b64_lookup_in_range (profile : list Z) (az : B64.float) :
  List.length profile = 360%nat ->
  0 <= B64.floor_astype_int (B64.np_mod az (B64.of_int 360)) <= 359 ->
  exists r, horizon_px (ops := B64.ops) profile az = Ok r.
Proof.
  intros Hlen Hf. unfold horizon_px.
  cbn [np_mod floor_astype_int B64.ops of_int fadd fsub fmul fdiv].
  set (k := B64.floor_astype_int (B64.np_mod az (B64.of_int 360))) in *.
  destruct (py_index_in_range profile k) as (v1 & _ & H1); [rewrite Hlen; lia|].
  destruct (py_index_in_range profile ((k + 1) mod 360)) as (v2 & _ & H2).
  { rewrite Hlen. pose proof (Z.mod_pos_bound (k + 1) 360). lia. }
  rewrite H1. cbn [rbind]. rewrite H2. cbn [rbind]. eexists. reflexivity.
Qed.

Lemma floor_plus_zero : B64.floor_astype_int (S754_zero false) = 0.
Proof. reflexivity. Qed.

(** X27.  In binary64, the lookup is defined at every azimuth that is zero
    or a positive finite double, whatever its magnitude: the wrapped
    azimuth is below 360, both bucket indices are in 0 .. 359, and the
    lookup returns.  (The failure of C5 needs a negative azimuth.) *)
Theorem b64_lookup_defined_for_nonnegative (profile : list Z) (az : B64.float) :
  List.length profile = 360%nat ->
  finite_double az = true ->
  B64.sign_of az = false ->
  0 <= B64.floor_astype_int (B64.np_mod az (B64.of_int 360)) <= 359 /\
  exists r, horizon_px (ops := B64.ops) profile az = Ok r.
Proof.
  intros Hlen Hfin Hsign.
  assert (Hf : 0 <= B64.floor_astype_int (B64.np_mod az (B64.of_int 360)) <= 359).
  { destruct (np_mod_360 az Hfin) as [Hz | (m3 & e3 & Hm & He3 & _ & _ & Hv)].
    - rewrite Hz, floor_plus_zero. lia.
    - rewrite Hm. apply floor_below_360; [exact He3 | exact (Hv Hsign)]. }
  split; [exact Hf | exact (b64_lookup_in_range profile az Hlen Hf)].
Qed.

Lemma b64_lookup_defined_for_nonnegative_witness :
  List.length (repeat 1234%Z 360) = 360%nat /\
  exists r,
    horizon_px (ops := B64.ops) (repeat 1234%Z 360) (B64.of_int 725) = Ok r.
Proof.
  assert (Hlen : List.length (repeat 1234%Z 360) = 360%nat) by reflexivity.
  split; [exact Hlen|].
  exact (proj2 (b64_lookup_defined_for_nonnegative (repeat 1234%Z 360)
                  (B64.of_int 725) Hlen eq_refl eq_refl)).
Defined.

(** X28.  In binary64, the wrap [np.mod(x, 360.0)] of any finite double,
    which is what [calculate_grid_geometry] hands to the lookup, is a
    double between 0 and 360 (360.0 itself can be reached by rounding), and
    the lookup is defined at every such azimuth: its own wrap maps 360.0 to
    0. *)
Theorem b64_lookup_defined_after_wrap (profile : list Z) (x : B64.float) :
  List.length profile = 360%nat ->
  finite_double x = true ->
  let az := B64.np_mod x (B64.of_int 360) in
  at_most_360 az = true /\
  exists r, horizon_px (ops := B64.ops) profile az = Ok r.
Proof.
  intros Hlen Hfin az.
  assert (Haz : at_most_360 az = true /\ finite_double az = true
                /\ B64.sign_of az = false).
  { unfold az.
    destruct (np_mod_360 x Hfin) as [Hz | (m3 & e3 & Hm & He3 & Hm3 & Hv & _)].
    - rewrite Hz. repeat split.
    - rewrite Hm. cbn [at_most_360 finite_double B64.sign_of].
      assert (H1 : (Z.pos m3 <? 2 ^ 53) = true) by (apply Z.ltb_lt; exact Hm3).
      assert (H2 : (-1074 <=? e3) = true) by (apply Z.leb_le; lia).
      assert (H3 : (e3 <=? 971) = true) by (apply Z.leb_le; lia).
      assert (H4 : (Z.pos m3 * 2 ^ (e3 + 1074) <=? 360 * 2 ^ 1074) = true)
        by (apply Z.leb_le, scale_360; assumption).
      rewrite H1, H2, H3, H4. repeat split. }
  destruct Haz as (Ha & Hf & Hs). split; [exact Ha|].
  destruct (np_mod_360 az Hf) as [Hz | (m3 & e3 & Hm & He3 & _ & _ & Hv)].
  - apply b64_lookup_in_range; [exact Hlen|]. rewrite Hz, floor_plus_zero. lia.
  - apply b64_lookup_in_range; [exact Hlen|]. rewrite Hm.
    apply floor_below_360; [exact He3 | exact (Hv Hs)].
Qed.

Lemma b64_lookup_defined_after_wrap_witness :
  List.length (repeat 1234%Z 360) = 360%nat /\
  at_most_360 (B64.np_mod minus_1e_20 (B64.of_int 360)) = true /\
  exists r,
    horizon_px (ops := B64.ops) (repeat 1234%Z 360)
               (B64.np_mod minus_1e_20 (B64.of_int 360)) = Ok r.
Proof.
  assert (Hlen : List.length (repeat 1234%Z 360) = 360%nat) by reflexivity.
  split; [exact Hlen|].
  exact (b64_lookup_defined_after_wrap (repeat 1234%Z 360) minus_1e_20 Hlen eq_refl).
Defined.

Lemma shr_1_round_bit (mrs : shr_record) :
  0 <= shr_m mrs -> shr_r (shr_1 mrs) = Z.odd (shr_m mrs).
Proof.
  destruct mrs as [m r s]. cbn [shr_m]. intros Hm.
  destruct m as [|[p|p|]|p]; try lia; reflexivity.
Qed.

Lemma iter_shr_1_nonneg (p : positive) (mrs : shr_record) :
  0 <= shr_m mrs -> 0 <= shr_m (iter_pos shr_1 p mrs).
Proof.
  intros H. rewrite iter_shr_1 by exact H.
  apply Z.div_pos; [exact H | apply pow2_pos; lia].
Qed.

(** After [p] one-bit shifts the round bit is the last bit shifted out. *)
Lemma iter_shr_1_round_bit (p : positive) :
  forall mrs, 0 <= shr_m mrs ->
    shr_r (iter_pos shr_1 p mrs) = Z.odd (shr_m mrs / 2 ^ (Z.pos p - 1)).
Proof.
  induction p as [p IH|p IH|]; intros mrs Hm; cbn [iter_pos].
  - assert (H1 : 0 <= shr_m (shr_1 mrs))
      by (rewrite shr_1_half by assumption; apply Z.div_pos; lia).
    rewrite IH by (apply iter_shr_1_nonneg; exact H1).
    rewrite iter_shr_1, shr_1_half by assumption.
    pose proof (pow2_pos (Z.pos p) ltac:(lia)) as Hp.
    pose proof (pow2_pos (Z.pos p - 1) ltac:(lia)) as Hp'.
    rewrite !Z.div_div by lia.
    f_equal. f_equal.
    replace (Z.pos p~1 - 1) with (1 + Z.pos p + (Z.pos p - 1)) by lia.
    rewrite !pow2_split by lia. change (2 ^ 1) with 2. ring.
  - rewrite IH by (apply iter_shr_1_nonneg; exact Hm).
    rewrite iter_shr_1 by assumption.
    pose proof (pow2_pos (Z.pos p) ltac:(lia)) as Hp.
    pose proof (pow2_pos (Z.pos p - 1) ltac:(lia)) as Hp'.
    rewrite Z.div_div by lia.
    f_equal. f_equal.
    replace (Z.pos p~0 - 1) with (Z.pos p + (Z.pos p - 1)) by lia.
    rewrite pow2_split by lia. reflexivity.
  - rewrite shr_1_round_bit by assumption.
    change (Z.pos 1 - 1) with 0. rewrite Z.pow_0_r, Z.div_1_r. reflexivity.
Qed.

Lemma Zdigits2_exact (n : positive) (d : Z) :
  1 <= d -> 2 ^ (d - 1) <= Z.pos n < 2 ^ d -> Zdigits2 (Z.pos n) = d.
Proof.
  intros Hd [Hlo Hhi].
  pose proof (Zdigits2_pos_le n d ltac:(lia) Hhi) as Hle.
  pose proof (Zdigits2_gt n) as Hgt.
  pose proof (Zdigits2_nonneg (Z.pos n)) as H0.
  assert (Hlt : 2 ^ (d - 1) < 2 ^ Zdigits2 (Z.pos n)) by lia.
  apply Z.pow_lt_mono_r_iff in Hlt; lia.
Qed.

(** 360.0 minus a positive amount of at most [2 ^ -45] rounds to 360.0. *)
Lemma add_360_to_tiny_negative (mz : positive) (fz : Z) :
  -1074 <= fz <= -45 ->
  Z.pos mz <= 2 ^ (-45 - fz) ->
  SFadd B64.prec B64.emax (S754_finite true mz fz)
        (S754_finite false 6333186975989760 (-44))
  = S754_finite false 6333186975989760 (-44).
Proof.
  intros Hfz Hv. set (A := 6333186975989760) in *.
  assert (HA : 2 ^ 52 < A < 2 ^ 53) by (split; reflexivity).
  unfold SFadd.
  destruct (shl_align_value mz fz (Z.min fz (-44))) as [_ Hx]. cbv zeta in Hx.
  destruct (shl_align_value 6333186975989760 (-44) (Z.min fz (-44))) as [_ Hy].
  cbv zeta in Hy. fold A in Hy.
  replace (Z.min fz (-44)) with fz in * by lia.
  rewrite Z.min_id in Hx. rewrite Z.min_r in Hy by lia.
  rewrite Z.sub_diag, Z.pow_0_r, Z.mul_1_r in Hx.
  cbn [cond_Zopp]. rewrite Hx, Hy.
  set (k := -44 - fz) in *.
  assert (Hk : 1 <= k) by (unfold k; lia).
  assert (Hv' : Z.pos mz <= 2 ^ (k - 1))
    by (replace (k - 1) with (-45 - fz) by (unfold k; lia); exact Hv).
  pose proof (pow2_pos (k - 1) ltac:(lia)) as Hp1.
  assert (Hpk : 2 ^ k = 2 * 2 ^ (k - 1)).
  { replace k with (1 + (k - 1)) at 1 by lia. rewrite pow2_split by lia.
    reflexivity. }
  set (N := - Z.pos mz + A * 2 ^ k).
  assert (HNlo : 2 ^ 52 * 2 ^ k <= N) by (unfold N; nia).
  assert (HNhi : N < A * 2 ^ k) by (unfold N; lia).
  assert (Hdiv : N / 2 ^ k = A - 1).
  { symmetry. apply (Z.div_unique N (2 ^ k) (A - 1) (2 ^ k - Z.pos mz)).
    - left. lia.
    - unfold N. ring. }
  assert (Hodd : Z.odd (N / 2 ^ (k - 1)) = true).
  { assert (E : N / 2 ^ (k - 1) = 2 * A - 1).
    { symmetry.
      apply (Z.div_unique N (2 ^ (k - 1)) (2 * A - 1) (2 ^ (k - 1) - Z.pos mz)).
      - left. lia.
      - unfold N. rewrite Hpk. ring. }
    rewrite E. reflexivity. }
  assert (HN0 : 0 < N) by nia.
  destruct N as [|n|n] eqn:EN; try lia.
  cbn [binary_normalize]. unfold binary_round.
  change (Z.pos (digits2_pos n)) with (Zdigits2 (Z.pos n)).
  assert (Hdig : Zdigits2 (Z.pos n) = 53 + k).
  { apply Zdigits2_exact; [lia|].
    replace (53 + k - 1) with (52 + k) by lia.
    rewrite !pow2_split by lia. split; [exact HNlo | nia]. }
  rewrite fexp_le, Hdig.
  replace (Z.max (53 + k + fz - 53) (-1074)) with (-44) by (unfold k; lia).
  destruct (shl_align_value n fz (-44)) as [Hs Hw]. cbv zeta in Hs, Hw.
  destruct (shl_align n fz (-44)) as [m0 e0]. cbn [fst snd] in Hs, Hw.
  rewrite Z.min_l in Hs, Hw by lia. subst e0.
  rewrite Z.sub_diag, Z.pow_0_r, Z.mul_1_r in Hw. injection Hw as ->.
  unfold binary_round_aux.
  assert (Hshr : exists mrs,
            shr_fexp B64.prec B64.emax (Z.pos n) fz loc_Exact = (mrs, -44)
            /\ shr_m mrs = A - 1 /\ shr_r mrs = true).
  { unfold shr_fexp, shr. rewrite fexp_le, Hdig.
    replace (Z.max (53 + k + fz - 53) (-1074) - fz) with k by (unfold k; lia).
    destruct k as [|pk|pk] eqn:Ek; try lia.
    eexists. split; [f_equal; lia|]. split.
    - rewrite iter_shr_1 by (cbn; lia). cbn [shr_record_of_loc shr_m]. exact Hdiv.
    - rewrite iter_shr_1_round_bit by (cbn; lia).
      cbn [shr_record_of_loc shr_m]. exact Hodd. }
  destruct Hshr as (mrs & -> & Hm & Hr).
  assert (Hround : round_nearest_even (shr_m mrs) (loc_of_shr_record mrs) = A).
  { destruct mrs as [mm rr ss]. cbn [shr_m shr_r] in Hm, Hr. subst mm rr.
    destruct ss; reflexivity. }
  rewrite Hround. reflexivity.
Qed.

(** X29.  In binary64, every negative azimuth of magnitude at most
    [2 ^ -45] (about 2.8e-14) makes the lookup fail: [fmod] returns the
    azimuth itself, adding 360.0 rounds to 360.0, so the wrapped azimuth is
    360.0, the lower bucket index is 360, and the lookup raises
    [IndexError]. *)
Theorem b64_tiny_negative_azimuth_fails (profile : list Z) (m : positive) (e : Z) :
  List.length profile = 360%nat ->
  Z.pos m < 2 ^ 53 -> -1074 <= e ->
  Z.pos m * 2 ^ (e + 1074) <= 2 ^ 1029 ->
  let az := S754_finite true m e in
  B64.np_mod az (B64.of_int 360) = B64.of_int 360 /\
  B64.floor_astype_int (B64.np_mod az (B64.of_int 360)) = 360 /\
  horizon_px (ops := B64.ops) profile az = Raise IndexError.
Proof.
  intros Hlen Hm He Hv az. set (A := 6333186975989760).
  assert (He45 : e <= -45).
  { pose proof (pow2_pos (e + 1074) ltac:(lia)) as Hp.
    assert (Hle : 2 ^ (e + 1074) <= 2 ^ 1029) by nia.
    apply Z.pow_le_mono_r_iff in Hle; lia. }
  assert (Hm45 : Z.pos m <= 2 ^ (-45 - e)).
  { pose proof (pow2_pos (e + 1074) ltac:(lia)) as Hp.
    replace 1029 with ((-45 - e) + (e + 1074)) in Hv by lia.
    rewrite (pow2_split (-45 - e) (e + 1074)) in Hv by lia.
    apply (Z.mul_le_mono_pos_r _ _ (2 ^ (e + 1074))); assumption. }
  assert (Hmod : B64.np_mod az (B64.of_int 360) = B64.of_int 360).
  { rewrite of_int_360. unfold az, B64.np_mod, B64.fmod.
    destruct (shl_align_value m e (Z.min e (-44))) as [_ Hx]. cbv zeta in Hx.
    destruct (shl_align_value 6333186975989760 (-44) (Z.min e (-44))) as [_ Hy].
    cbv zeta in Hy. fold A in Hy.
    replace (Z.min e (-44)) with e in * by lia.
    rewrite Z.min_id in Hx. rewrite Z.min_r in Hy by lia.
    rewrite Z.sub_diag, Z.pow_0_r, Z.mul_1_r in Hx.
    rewrite Hx, Hy.
    assert (Hlt : Z.pos m < A * 2 ^ (-44 - e)).
    { replace (-44 - e) with (1 + (-45 - e)) by lia. rewrite pow2_split by lia.
      pose proof (pow2_pos (-45 - e) ltac:(lia)).
      assert (1 < A * 2 ^ 1) by reflexivity. nia. }
    rewrite Z.mod_small by lia.
    cbn [cond_Zopp Z.opp binary_normalize].
    destruct (binary_round_exact true m e Hm ltac:(lia))
      as (mz & fz & Hb & Hfz & Hval & _).
    rewrite Hb. cbn [SFltb SFcompare xorb].
    apply add_360_to_tiny_negative; [lia|].
    rewrite Hval.
    replace (-45 - fz) with ((-45 - e) + (e - fz)) by lia.
    rewrite pow2_split by lia.
    pose proof (pow2_pos (e - fz) ltac:(lia)). nia. }
  split; [exact Hmod|]. split; [rewrite Hmod; reflexivity|].
  unfold horizon_px.
  cbn [np_mod floor_astype_int B64.ops of_int fadd fsub fmul fdiv].
  rewrite Hmod.
  change (B64.floor_astype_int (B64.of_int 360)) with 360.
  rewrite py_index_out_of_range by (rewrite Hlen; reflexivity).
  reflexivity.
Qed.

Lemma b64_tiny_negative_azimuth_fails_witness :
  List.length (repeat 1234%Z 360) = 360%nat /\
  horizon_px (ops := B64.ops) (repeat 1234%Z 360)
             (S754_finite true 4503599627370496 (-97)) = Raise IndexError.
Proof.
  assert (Hlen : List.length (repeat 1234%Z 360) = 360%nat) by reflexivity.
  assert (Hm : 4503599627370496 < 2 ^ 53) by reflexivity.
  assert (He : -1074 <= -97) by discriminate.
  assert (Hv : 4503599627370496 * 2 ^ (-97 + 1074) <= 2 ^ 1029)
    by (vm_compute; discriminate).
  split; [exact Hlen|].
  exact (proj2 (proj2 (b64_tiny_negative_azimuth_fails (repeat 1234%Z 360)
                         4503599627370496 (-97) Hlen Hm He Hv))).
Defined.

End Binary64Wrap.
